(** * A GELF/UDP client: framing, chunked transport and drain

    A shallow embedding of the [Graylog] class of [src/index.ts] and of
    the theorems that settle its specification.

    Two revisions of the class are part of the sources:
    - [src/src/index.ts], lines 1-302 (called revision 1 below);
    - the revision quoted in [src/src/index.spec.ts], lines 486-881
      (revision 2), which threads the number of bytes written through
      [_sendChunk], [_sendChunkedStream], [_sendData] and [send], makes
      the class an [EventEmitter] and gives [_log] a fourth argument,
      [disablePromiseRejection].
    The transport code ([getServer] ... [destroy]) is otherwise the same
    text in both revisions; it is embedded once, from revision 2, and
    revision 1 drops the byte count.

    Asynchronous code is embedded as a program tree ([Prog]): reads and
    writes of the object's fields, calls into the JavaScript runtime
    ([Request]) and their continuations.  The runtime's answers are not
    part of the program; an [Oracle] supplies them, so that a theorem
    quantified over oracles speaks of every behaviour of the network,
    of zlib and of the random generator.

    What the embedding leaves out: a call gives control back at the
    requests that wait (zlib, the random generator, the callback of
    [client.send], [process.nextTick]), not at the microtask hops of an
    [await] on a promise that is already settled; numbers of payload
    fields are rationals and buffer sizes integers; a string is the
    list of its bytes (positions in a string are counted in bytes, not
    in UTF-16 units); a payload is a finite map (the name "__proto__"
    is a field like any other); a listener of the 'err' event
    returns. *)

From Stdlib Require Import ZArith QArith Lia.
From Stdlib.Strings Require Import String Ascii Byte.
From stdpp Require Import gmap strings list.

Local Open Scope string_scope.
Local Open Scope list_scope.
Local Open Scope Z_scope.

(** ** JavaScript numbers that the chunking code computes with *)

(** [Math.ceil(a / b)] for a length [a] (never negative) and an integer
    [b]: the quotient is [Infinity], or [NaN] for 0 / 0, when [b] is
    zero.  Lengths are far below 2^53, so the rounding of the
    floating-point quotient never reaches the next integer. *)
Inductive Count : Type :=
| Finite (z : Z)
| Infinity
| NaN.

Definition Math_ceil_div (a b : Z) : Count :=
  if b =? 0 then (if a =? 0 then NaN else Infinity)
  else Finite (- ((- a) / b)).

(** [c > n] *)
Definition Count_gt (c : Count) (n : Z) : bool :=
  match c with
  | Finite z => n <? z
  | Infinity => true
  | NaN => false
  end.

(** Number of turns of [for (let i = 0; i < c; i++)]. *)
Definition Count_turns (c : Count) : nat :=
  match c with
  | Finite z => Z.to_nat z
  | Infinity => 0%nat
  | NaN => 0%nat
  end.

(** ** Buffers *)

Definition Buffer : Type := list byte.

Definition len {A} (l : list A) : Z := Z.of_nat (length l).

(** Storing a number in a [Uint8Array] cell keeps it modulo 256. *)
Definition u8 (z : Z) : byte :=
  match Byte.of_N (Z.to_N (z mod 256)) with
  | Some b => b
  | None => x00
  end.

Definition Count_u8 (c : Count) : byte :=
  match c with
  | Finite z => u8 z
  | Infinity => x00
  | NaN => x00
  end.

(** [Buffer.from(s)]: the bytes of the string. *)
Definition Buffer_from (s : string) : Buffer := list_byte_of_string s.

(** [Buffer.alloc(n)] for a size that is not negative; a negative size
    is refused with a RangeError, which the caller below raises. *)
Definition Buffer_alloc (n : Z) : Buffer := replicate (Z.to_nat n) x00.

(** [chunk[i] = b]; a write outside the buffer is ignored. *)
Definition Buffer_set (chunk : Buffer) (i : nat) (b : byte) : Buffer :=
  <[i := b]> chunk.

(** [source.copy(target, targetStart, sourceStart, sourceEnd)], giving
    the target after the copy.  The source range is cut at the end of
    the source and the copy stops at the end of the target.  (Node
    raises a RangeError for negative arguments; no caller passes one.) *)
Definition Buffer_copy (source target : Buffer)
    (targetStart sourceStart sourceEnd : Z) : Buffer :=
  let sourceEnd := Z.min sourceEnd (len source) in
  let nb := Z.min (sourceEnd - sourceStart) (len target - targetStart) in
  if nb <=? 0 then target
  else take (Z.to_nat targetStart) target
       ++ take (Z.to_nat nb) (drop (Z.to_nat sourceStart) source)
       ++ drop (Z.to_nat (targetStart + nb)) target.

(** [buf.slice(start, end)]: negative indices count from the end. *)
Definition slice_index (n i : Z) : Z :=
  if i <? 0 then Z.max (n + i) 0 else Z.min i n.

Definition Buffer_slice (buf : Buffer) (start stop : Z) : Buffer :=
  let s := slice_index (len buf) start in
  let e := slice_index (len buf) stop in
  take (Z.to_nat (e - s)) (drop (Z.to_nat s) buf).

(** ** Errors and results *)

Inductive Error : Type :=
| DeflateOption (was : string)
    (* 'deflate must be one of "optimal", "always", or "never". was ...' *)
| TooBig (limit : Z)
    (* 'Cannot log messages bigger than ' + limit + ' bytes' *)
| SocketDestroyed
    (* 'Socket was already destroyed' *)
| CloseCalledOnce
    (* 'Close was already called once' *)
| TypeError (what : string)
    (* raised by the runtime: a property of [undefined] is read, or
       [JSON.stringify] meets a BigInt *)
| RangeError (what : string)
    (* raised by [Buffer.alloc] for a negative size *)
| External (what : string).
    (* an error of the socket, of zlib or of crypto *)

Inductive Result (A : Type) : Type :=
| Ok (a : A)
| Err (e : Error).
Arguments Ok {A} a.
Arguments Err {A} e.

(** ** The object *)

Record HostPort : Type := mkHostPort { host : string; port : Z }.

Definition Socket : Type := nat.
Definition PromiseId : Type := nat.
Definition ListenerId : Type := nat.

(** The fields of a [Graylog] instance.  [_destroyIfNeeded] holds a
    closure built by [close]; it is represented by the promise that the
    closure resolves.  [listeners] are the callbacks registered for the
    'err' event (revision 2). *)
Record Graylog : Type := mkGraylog {
  servers : list HostPort;
  client : option Socket;
  hostname : string;
  facility : string;
  deflate : string;
  _bufferSize : Z;
  _unsentMessages : Z;
  _unsentChunks : Z;
  _callCount : nat;
  _destroyIfNeeded : option PromiseId;
  listeners : list ListenerId
}.

Definition with_client (c : option Socket) (this : Graylog) : Graylog :=
  mkGraylog (servers this) c (hostname this) (facility this) (deflate this)
    (_bufferSize this) (_unsentMessages this) (_unsentChunks this)
    (_callCount this) (_destroyIfNeeded this) (listeners this).

Definition with_unsentMessages (n : Z) (this : Graylog) : Graylog :=
  mkGraylog (servers this) (client this) (hostname this) (facility this)
    (deflate this) (_bufferSize this) n (_unsentChunks this)
    (_callCount this) (_destroyIfNeeded this) (listeners this).

Definition with_unsentChunks (n : Z) (this : Graylog) : Graylog :=
  mkGraylog (servers this) (client this) (hostname this) (facility this)
    (deflate this) (_bufferSize this) (_unsentMessages this) n
    (_callCount this) (_destroyIfNeeded this) (listeners this).

Definition with_callCount (n : nat) (this : Graylog) : Graylog :=
  mkGraylog (servers this) (client this) (hostname this) (facility this)
    (deflate this) (_bufferSize this) (_unsentMessages this)
    (_unsentChunks this) n (_destroyIfNeeded this) (listeners this).

Definition with_destroyIfNeeded (d : option PromiseId) (this : Graylog)
    : Graylog :=
  mkGraylog (servers this) (client this) (hostname this) (facility this)
    (deflate this) (_bufferSize this) (_unsentMessages this)
    (_unsentChunks this) (_callCount this) d (listeners this).

Definition with_listeners (l : list ListenerId) (this : Graylog) : Graylog :=
  mkGraylog (servers this) (client this) (hostname this) (facility this)
    (deflate this) (_bufferSize this) (_unsentMessages this)
    (_unsentChunks this) (_callCount this) (_destroyIfNeeded this) l.

(** [new Graylog(config)] *)
Record GraylogConfig : Type := mkConfig {
  cfg_servers : list HostPort;
  cfg_facility : option string;
  cfg_hostname : option string;
  cfg_bufferSize : option Z;
  cfg_deflate : option string
}.

(** [x || y] on an optional string: the empty string is falsy. *)
Definition string_or (x : option string) (y : string) : string :=
  match x with
  | Some s => if String.eqb s "" then y else s
  | None => y
  end.

Definition constructor (os_hostname : string) (config : GraylogConfig)
    : Result Graylog :=
  let deflate := string_or (cfg_deflate config) "optimal" in
  if negb (String.eqb deflate "optimal") && negb (String.eqb deflate "always")
     && negb (String.eqb deflate "never")
  then Err (DeflateOption deflate)
  else
    let bufferSize :=
      match cfg_bufferSize config with
      | Some b => if 0 <? b then b else 1400
      | None => 1400
      end in
    Ok (mkGraylog (cfg_servers config) None
          (string_or (cfg_hostname config) os_hostname)
          (string_or (cfg_facility config) "Node.js")
          deflate bufferSize 0 0 0%nat None []).

(** ** Programs *)

(** What the class asks of the runtime.  [SocketSend] is the call
    [client.send(msg, offset, length, port, address, cb)] itself, which
    may throw; [SendCallback] is its callback [(err, bytes)].  The
    requests for which [suspends] holds give control back to the event
    loop: other calls on the same object may run before the answer. *)
Inductive Request : Type -> Type :=
| DateNow : Request Z
| Deflate (data : Buffer) : Request (Result Buffer)
| RandomBytes (n : Z) : Request (Result Buffer)
| CreateSocket : Request Socket
| SocketSend (sock : Socket) (msg : Buffer) (offset length : Z)
    (port : Z) (address : string) : Request (option Error)
| SendCallback (sock : Socket) : Request (Result Z)
| SocketClose (sock : Socket) : Request unit
| NextTick : Request unit
| Settle (p : PromiseId) (r : Result unit) : Request unit
| Listener (cb : ListenerId) (e : Error) : Request unit.

Definition suspends {X} (req : Request X) : bool :=
  match req with
  | Deflate _ | RandomBytes _ | SendCallback _ | NextTick => true
  | _ => false
  end.

Inductive Prog (A : Type) : Type :=
| Ret (a : A)
| Throw (e : Error)
| Get (k : Graylog -> Prog A)
| Put (this : Graylog) (k : Prog A)
| Call {X : Type} (req : Request X) (k : X -> Prog A).
Arguments Ret {A} a.
Arguments Throw {A} e.
Arguments Get {A} k.
Arguments Put {A} this k.
Arguments Call {A X} req k.

Fixpoint bind {A B} (p : Prog A) (f : A -> Prog B) : Prog B :=
  match p with
  | Ret a => f a
  | Throw e => Throw e
  | Get k => Get (fun this => bind (k this) f)
  | Put this k => Put this (bind k f)
  | Call req k => Call req (fun x => bind (k x) f)
  end.

#[global] Instance Prog_ret : MRet Prog := @Ret.
#[global] Instance Prog_bind : MBind Prog := fun A B f p => bind p f.

Definition modify (f : Graylog -> Graylog) : Prog unit :=
  Get (fun this => Put (f this) (Ret tt)).

Definition call {X} (req : Request X) : Prog X := Call req Ret.

(** [await] of a promise of the runtime: a rejection is thrown. *)
Definition await {A} (req : Request (Result A)) : Prog A :=
  Call req (fun r => match r with Ok a => Ret a | Err e => Throw e end).

(** [try { body } finally { cleanup }] *)
Fixpoint try_finally {A} (body : Prog A) (cleanup : Prog unit) : Prog A :=
  match body with
  | Ret a => bind cleanup (fun _ => Ret a)
  | Throw e => bind cleanup (fun _ => Throw e)
  | Get k => Get (fun this => try_finally (k this) cleanup)
  | Put this k => Put this (try_finally k cleanup)
  | Call req k => Call req (fun x => try_finally (k x) cleanup)
  end.

(** [promise.then(onFulfilled, onRejected)] *)
Fixpoint then_ {A B} (p : Prog A) (onFulfilled : A -> Prog B)
    (onRejected : Error -> Prog B) : Prog B :=
  match p with
  | Ret a => onFulfilled a
  | Throw e => onRejected e
  | Get k => Get (fun this => then_ (k this) onFulfilled onRejected)
  | Put this k => Put this (then_ k onFulfilled onRejected)
  | Call req k => Call req (fun x => then_ (k x) onFulfilled onRejected)
  end.

(** ** Running a program *)

Inductive Event : Type :=
| Ev {X : Type} (req : Request X) (answer : X).

Definition Trace : Type := list Event.

(** The runtime: its answer to a request may depend on what happened
    before. *)
Definition Oracle : Type := forall X : Type, Request X -> Trace -> X.

(** One call run to its end, nothing else running in between. *)
Fixpoint run {A} (o : Oracle) (p : Prog A) (this : Graylog) (tr : Trace)
    : Trace * Graylog * Result A :=
  match p with
  | Ret a => (tr, this, Ok a)
  | Throw e => (tr, this, Err e)
  | Get k => run o (k this) this tr
  | Put this' k => run o k this' tr
  | Call req k => run o (k (o _ req tr)) this (tr ++ [Ev req (o _ req tr)])
  end.

(** A call run up to the first request that gives control back. *)
Inductive Paused (A : Type) : Type :=
| Finished (r : Result A)
| Waiting {X : Type} (req : Request X) (k : X -> Prog A).
Arguments Finished {A} r.
Arguments Waiting {A X} req k.

Fixpoint advance {A} (o : Oracle) (p : Prog A) (this : Graylog) (tr : Trace)
    : Trace * Graylog * Paused A :=
  match p with
  | Ret a => (tr, this, Finished (Ok a))
  | Throw e => (tr, this, Finished (Err e))
  | Get k => advance o (k this) this tr
  | Put this' k => advance o k this' tr
  | Call req k =>
      if suspends req then (tr, this, Waiting req k)
      else advance o (k (o _ req tr)) this (tr ++ [Ev req (o _ req tr)])
  end.

(** The continuation of a waiting call, entered with the runtime's
    answer [x] and with the object as the other calls have left it. *)
Definition resume {A X} (o : Oracle) (req : Request X) (k : X -> Prog A)
    (x : X) (this : Graylog) (tr : Trace) : Trace * Graylog * Paused A :=
  advance o (k x) this (tr ++ [Ev req x]).

(** ** The transport: [src/index.ts], [getServer] to [destroy] *)

(** [this.servers[this._callCount++ % this.servers.length]]; with no
    server the index is [NaN] and the result [undefined]. *)
Definition getServer : Prog (option HostPort) :=
  this ← Get Ret;
  Put (with_callCount (S (_callCount this)) this)
    (Ret (servers this !! (_callCount this `mod` length (servers this))%nat)).

Definition getClient : Prog (option Socket) :=
  this ← Get Ret;
  match client this with
  | Some sock => Ret (Some sock)
  | None =>
      sock ← call CreateSocket;
      modify (with_client (Some sock));;
      Ret (Some sock)
  end.

Definition _generateRandomId (n : Z) : Prog Buffer := await (RandomBytes n).

(** The executor of the promise of [_sendChunk].  An exception inside
    the executor rejects the promise: the missing server ([server.port]
    of [undefined]) and an exception of [client.send] itself. *)
Definition _sendChunk (chunk : Buffer) (server : option HostPort) : Prog Z :=
  client ← getClient;
  match client with
  | None => Throw SocketDestroyed
  | Some sock =>
      modify (fun this => with_unsentChunks (_unsentChunks this + 1) this);;
      match server with
      | None => Throw (TypeError "Cannot read property 'port' of undefined")
      | Some server =>
          thrown ← call (SocketSend sock chunk 0 (len chunk)
                           (port server) (host server));
          match thrown with
          | Some e => Throw e
          | None =>
              answer ← call (SendCallback sock);
              modify (fun this =>
                        with_unsentChunks (_unsentChunks this - 1) this);;
              match answer with
              | Err err => Throw err
              | Ok bytes => Ret bytes
              end
          end
      end
  end.

(** The body of the [for] loop of [_sendChunkedStream], [turns] turns
    from [chunkSequenceNumber] on.  [chunk] is the one buffer that every
    turn overwrites; what is handed to the socket is a view of its
    first bytes at the time of the call. *)
Fixpoint _sendChunkedStream_loop (turns : nat) (chunkSequenceNumber : Z)
    (dataSize : Z) (buffer chunk : Buffer) (server : option HostPort)
    (sendedBytes : Z) : Prog Z :=
  match turns with
  | O => Ret sendedBytes
  | S turns =>
      let chunk := Buffer_set chunk 10 (u8 chunkSequenceNumber) in
      let start := chunkSequenceNumber * dataSize in
      let stop := Z.min ((chunkSequenceNumber + 1) * dataSize) (len buffer) in
      let chunk := Buffer_copy buffer chunk 12 start stop in
      bytes ← _sendChunk (Buffer_slice chunk 0 (stop - start + 12)) server;
      _sendChunkedStream_loop turns (chunkSequenceNumber + 1) dataSize
        buffer chunk server (sendedBytes + bytes)
  end.

Definition _sendChunkedStream (buffer : Buffer) : Prog Z :=
  this ← Get Ret;
  let bufferSize := _bufferSize this in
  let dataSize := bufferSize - 12 in
  let chunkCount := Math_ceil_div (len buffer) dataSize in
  if Count_gt chunkCount 128 then Throw (TooBig (dataSize * 128))
  else
    id ← _generateRandomId 8;
    server ← getServer;
    if bufferSize <? 0 then Throw (RangeError "size")
    else
      let chunk := Buffer_alloc bufferSize in
      let chunk := Buffer_set chunk 0 x1e in
      let chunk := Buffer_set chunk 1 x0f in
      let chunk := Buffer_set chunk 11 (Count_u8 chunkCount) in
      let chunk := Buffer_copy id chunk 2 0 8 in
      _sendChunkedStream_loop (Count_turns chunkCount) 0 dataSize buffer chunk
        server 0.

(** [destroy()] *)
Definition destroy : Prog unit :=
  this ← Get Ret;
  match client this with
  | Some sock =>
      call (SocketClose sock);;
      modify (with_client None);;
      modify (with_destroyIfNeeded None)
  | None => Ret tt
  end.

(** The closure that [close] stores in [_destroyIfNeeded]; [p] is the
    promise whose [resolve] it has captured. *)
Definition destroyIfNeeded (p : PromiseId) : Prog unit :=
  this ← Get Ret;
  if (_unsentChunks this =? 0) && (_unsentMessages this =? 0)
  then destroy;; call (Settle p (Ok tt))
  else Ret tt.

(** [if (this._destroyIfNeeded) this._destroyIfNeeded()] *)
Definition call_destroyIfNeeded : Prog unit :=
  this ← Get Ret;
  match _destroyIfNeeded this with
  | Some p => destroyIfNeeded p
  | None => Ret tt
  end.

Definition _sendData (buffer : Buffer) : Prog Z :=
  sendedBytes ←
    try_finally
      (modify (fun this => with_unsentMessages (_unsentMessages this + 1) this);;
       this ← Get Ret;
       if len buffer <=? _bufferSize this
       then server ← getServer; _sendChunk buffer server
       else _sendChunkedStream buffer)
      (modify (fun this => with_unsentMessages (_unsentMessages this - 1) this));
  call_destroyIfNeeded;;
  Ret sendedBytes.

(** [close()]; [p] names the promise that the call returns.  Its
    settlement is the request [Settle p]. *)
Definition close (p : PromiseId) : Prog unit :=
  this ← Get Ret;
  match _destroyIfNeeded this with
  | Some _ =>
      call NextTick;;
      call (Settle p (Err CloseCalledOnce))
  | None =>
      modify (with_destroyIfNeeded (Some p));;
      call NextTick;;
      call_destroyIfNeeded
  end.

(** ** Payloads *)

(** The values of payload and metadata fields
    ([GraylogGelfAdditionalField]: string, number, Date or undefined).
    Numbers are rationals here; [NaN] is left out. *)
Inductive JsValue : Type :=
| JsUndefined
| JsString (s : string)
| JsNumber (q : Q)
| JsDate (ms : Z).

Definition truthy (v : JsValue) : bool :=
  match v with
  | JsUndefined => false
  | JsString s => negb (String.eqb s "")
  | JsNumber q => negb (Qeq_bool q 0)
  | JsDate _ => true
  end.

(** [a || b] *)
Definition js_or (a b : JsValue) : JsValue := if truthy a then a else b.

(** A payload ([GraylogGelfPayload]) and the [meta] argument
    ([AdditionalFields]) are objects: finite maps from names to values. *)
Abbreviation Payload := (gmap string JsValue).
Abbreviation AdditionalFields := (gmap string JsValue).

(** [o.name]: a missing property reads as [undefined]. *)
Definition prop (o : gmap string JsValue) (name : string) : JsValue :=
  default JsUndefined (o !! name).

(** [definitions.ts], [GraylogLevelEnum] *)
Inductive GraylogLevelEnum : Type :=
| EMERG | ALERT | CRIT | ERR | WARNING | NOTICE | INFO | DEBUG.

Definition level_number (l : GraylogLevelEnum) : Z :=
  match l with
  | EMERG => 0 | ALERT => 1 | CRIT => 2 | ERR => 3
  | WARNING => 4 | NOTICE => 5 | INFO => 6 | DEBUG => 7
  end.

Definition js_level (l : GraylogLevelEnum) : JsValue :=
  JsNumber (inject_Z (level_number l)).

(** The optional [level] argument of [_log]. *)
Definition js_level_arg (level : option GraylogLevelEnum) : JsValue :=
  match level with
  | Some l => js_level l
  | None => JsUndefined
  end.

(** The [msg] argument of the logging methods ([any | Error]), by the
    branch of [_log] that it takes: a string; an [Error] with its
    message and stack; or another value, given by what
    [JSON.stringify] makes of it: a text, [undefined] (so for
    [undefined] itself and for functions), or, for a BigInt, a
    TypeError. *)
Inductive Msg : Type :=
| MsgString (s : string)
| MsgError (message : string) (stack : option string)
| MsgJson (text : option string)
| MsgBigInt (n : Z).

(** *** Strings *)

(** A string is the list of its bytes: [indexOf] and [substr] below
    count bytes where JavaScript counts UTF-16 units.  The two agree on
    ASCII text; for a stack line with other characters the positions,
    and so "_file" and "_line", may differ from those of the code. *)

(** [s.split(sep)] for a separator of one character. *)
Fixpoint split (sep : ascii) (s : string) : list string :=
  match s with
  | EmptyString => [EmptyString]
  | String c rest =>
      match split sep rest with
      | [] => []
      | piece :: pieces =>
          if Ascii.eqb c sep then EmptyString :: piece :: pieces
          else String c piece :: pieces
      end
  end.

(** [s.indexOf(c)] *)
Fixpoint indexOf (c : ascii) (s : string) : Z :=
  match s with
  | EmptyString => -1
  | String a rest =>
      if Ascii.eqb a c then 0
      else let i := indexOf c rest in if i <? 0 then -1 else i + 1
  end.

(** [s.substr(start, length)] *)
Definition substr (s : string) (start length : Z) : string :=
  let size := Z.of_nat (String.length s) in
  let start := if start <? 0 then Z.max (size + start) 0 else Z.min start size in
  let n := Z.min (Z.max length 0) (size - start) in
  substring (Z.to_nat start) (Z.to_nat n) s.

Definition js_string_opt (s : option string) : JsValue :=
  match s with
  | Some s => JsString s
  | None => JsUndefined
  end.

(** *** The record that [_log] builds *)

(** [_log], the object literal: version, timestamp, host, facility and
    level. *)
Definition payload_literal (this : Graylog) (timestamp : JsValue)
    (level : option GraylogLevelEnum) : Payload :=
  <["level" := js_or (js_level_arg level) (js_level INFO)]>
    (<["facility" := JsString (facility this)]>
       (<["host" := JsString (hostname this)]>
          (<["timestamp" := timestamp]>
             (<["version" := JsString "1.1"]> ∅)))).

(** [_log], the branches on [msg]. *)
Definition payload_message (msg : Msg) (payload : Payload) : Result Payload :=
  match msg with
  | MsgString s => Ok (<["short_message" := JsString s]> payload)
  | MsgError message stack =>
      let payload := <["short_message" := JsString message]> payload in
      if truthy (js_string_opt stack) then
        let stack := default "" stack in
        let payload := <["full_message" := JsString stack]> payload in
        let firstline := default "" (head (split "010"%char stack)) in
        let filepath :=
          substr firstline (indexOf "("%char firstline)
            (indexOf ")"%char firstline) in
        let fileinfo := split ":"%char filepath in
        let payload := <["_file" := js_string_opt (fileinfo !! 0%nat)]> payload in
        Ok (<["_line" := js_string_opt (fileinfo !! 1%nat)]> payload)
      else Ok payload
  | MsgJson text => Ok (<["short_message" := js_string_opt text]> payload)
  | MsgBigInt _ => Err (TypeError "Do not know how to serialize a BigInt")
  end.

(** [if (v) payload[name] = v] *)
Definition set_if_truthy (name : string) (v : JsValue) (payload : Payload)
    : Payload :=
  if truthy v then <[name := v]> payload else payload.

(** [if (timestamp) payload.timestamp = timestamp instanceof Date ? ...] *)
Definition payload_timestamp (timestamp : JsValue) (payload : Payload)
    : Payload :=
  if truthy timestamp then
    <["timestamp" :=
        match timestamp with
        | JsDate ms => JsNumber (inject_Z ms / inject_Z 1000)%Q
        | _ => timestamp
        end]> payload
  else payload.

(** [for (const field in additionalParams)
       payload['_' + field] = additionalParams[field]]
    on a payload that is a finite map.  One name is outside the model:
    for the field "_proto__" the code assigns to [payload.__proto__],
    which is the prototype of the object and no field of it, while the
    map below stores the name "__proto__" like any other. *)
Definition payload_additional (additionalParams : AdditionalFields)
    (payload : Payload) : Payload :=
  map_fold (fun field v payload => <["_" +:+ field := v]> payload)
    payload additionalParams.

(** [if (payload._id) { payload.__id = payload._id; delete payload._id }] *)
Definition payload_rename_id (payload : Payload) : Payload :=
  if truthy (prop payload "_id")
  then delete "_id" (<["__id" := prop payload "_id"]> payload)
  else payload.

(** [meta?.timestamp || Date.now() / 1000] *)
Definition timestamp_or_now (meta : option AdditionalFields) : Prog JsValue :=
  let given := match meta with
               | Some meta => prop meta "timestamp"
               | None => JsUndefined
               end in
  if truthy given then Ret given
  else now ← call DateNow; Ret (JsNumber (inject_Z now / inject_Z 1000)%Q).

(** What the named methods resolve to: a number of bytes, or [false]. *)
Inductive Sent : Type :=
| Bytes (n : Z)
| False_.

(** [this.emit('err', e)]: every listener of the event is called. *)
Fixpoint emit_to (cbs : list ListenerId) (e : Error) : Prog unit :=
  match cbs with
  | [] => Ret tt
  | cb :: cbs => call (Listener cb e);; emit_to cbs e
  end.

Definition emit_err (e : Error) : Prog unit :=
  this ← Get Ret; emit_to (listeners this) e.

(** [onError(cb)]: [this.addListener('err', cb)] *)
Definition onError (cb : ListenerId) : Prog unit :=
  modify (fun this => with_listeners (listeners this ++ [cb]) this).

(** [emitter.removeListener('err', cb)] looks for [cb] from the end of
    the array of listeners and takes out the first instance it finds:
    the one added last. *)
Fixpoint remove_first (cb : ListenerId) (cbs : list ListenerId)
    : list ListenerId :=
  match cbs with
  | [] => []
  | c :: cbs => if Nat.eqb c cb then cbs else c :: remove_first cb cbs
  end.

(** The function that [onError(cb)] returns:
    [() => this.removeListener('err', cb)] *)
Definition removeListener (cb : ListenerId) : Prog unit :=
  modify (fun this =>
            with_listeners (rev (remove_first cb (rev (listeners this)))) this).

Section Encoder.

(** [JSON.stringify] of a payload writes an object: an opening brace,
    the members, a closing brace.  The text of the members is the
    encoder's business. *)
Variable JSON_members : Payload -> string.

Definition JSON_stringify (payload : Payload) : string :=
  "{" +:+ JSON_members payload +:+ "}".

(** [send(payload)] *)
Definition send (payload : Payload) : Prog Z :=
  this ← Get Ret;
  let data := Buffer_from (JSON_stringify payload) in
  if String.eqb (deflate this) "never"
     || (String.eqb (deflate this) "optimal"
         && (len data <=? _bufferSize this))
  then _sendData data
  else
    compressedData ← await (Deflate data);
    _sendData compressedData.

End Encoder.

(** ** Revision 1: [src/src/index.ts] *)

Module Rev1.

(** [_log], the block [if (meta) { ... }] (lines 106-125). *)
Definition payload_meta (meta : option AdditionalFields) (payload : Payload)
    : Payload :=
  match meta with
  | None => payload
  | Some meta =>
      let facility := prop meta "facility" in
      let full_message := prop meta "full_message" in
      let level := prop meta "level" in
      let timestamp := prop meta "timestamp" in
      let additionalParams :=
        delete "timestamp"
          (delete "level" (delete "full_message" (delete "facility" meta))) in
      let payload := set_if_truthy "facility" facility payload in
      let payload := set_if_truthy "full_message" full_message payload in
      let payload := set_if_truthy "level" level payload in
      let payload := payload_timestamp timestamp payload in
      let payload := payload_additional additionalParams payload in
      payload_rename_id payload
  end.

(** The payload that [_log] hands to [send] (lines 79-125);
    [timestamp] is the value of [meta?.timestamp || Date.now() / 1000]. *)
Definition _log_payload (this : Graylog) (timestamp : JsValue) (msg : Msg)
    (meta : option AdditionalFields) (level : option GraylogLevelEnum)
    : Result Payload :=
  match payload_message msg (payload_literal this timestamp level) with
  | Ok payload => Ok (payload_meta meta payload)
  | Err e => Err e
  end.

Section Encoder.

Variable JSON_members : Payload -> string.

Definition _log (msg : Msg) (meta : option AdditionalFields)
    (level : option GraylogLevelEnum) : Prog unit :=
  this ← Get Ret;
  timestamp ← timestamp_or_now meta;
  match _log_payload this timestamp msg meta level with
  | Err e => Throw e
  | Ok payload => send JSON_members payload;; Ret tt
  end.

Definition emergency msg meta := _log msg meta (Some EMERG).
Definition alert msg meta := _log msg meta (Some ALERT).
Definition critical msg meta := _log msg meta (Some CRIT).
Definition error msg meta := _log msg meta (Some ERR).
Definition warning msg meta := _log msg meta (Some WARNING).
Definition warn msg meta := _log msg meta (Some WARNING).
Definition notice msg meta := _log msg meta (Some NOTICE).
Definition info msg meta := _log msg meta (Some INFO).
Definition log msg meta := _log msg meta (Some INFO).
Definition debug msg meta := _log msg meta (Some DEBUG).

End Encoder.

End Rev1.

(** ** Revision 2: the class quoted in [src/src/index.spec.ts] *)

Module Rev2.

(** [_log], the block [if (meta) { ... }] (lines 652-672): [hostname]
    is one more reserved name. *)
Definition payload_meta (meta : option AdditionalFields) (payload : Payload)
    : Payload :=
  match meta with
  | None => payload
  | Some meta =>
      let facility := prop meta "facility" in
      let full_message := prop meta "full_message" in
      let level := prop meta "level" in
      let hostname := prop meta "hostname" in
      let timestamp := prop meta "timestamp" in
      let additionalParams :=
        delete "timestamp"
          (delete "hostname"
             (delete "level"
                (delete "full_message" (delete "facility" meta)))) in
      let payload := set_if_truthy "facility" facility payload in
      let payload := set_if_truthy "full_message" full_message payload in
      let payload := set_if_truthy "level" level payload in
      let payload := set_if_truthy "hostname" hostname payload in
      let payload := payload_timestamp timestamp payload in
      let payload := payload_additional additionalParams payload in
      payload_rename_id payload
  end.

Definition _log_payload (this : Graylog) (timestamp : JsValue) (msg : Msg)
    (meta : option AdditionalFields) (level : option GraylogLevelEnum)
    : Result Payload :=
  match payload_message msg (payload_literal this timestamp level) with
  | Ok payload => Ok (payload_meta meta payload)
  | Err e => Err e
  end.

Section Encoder.

Variable JSON_members : Payload -> string.

Definition _log (msg : Msg) (meta : option AdditionalFields)
    (level : option GraylogLevelEnum) (disablePromiseRejection : bool)
    : Prog Sent :=
  this ← Get Ret;
  timestamp ← timestamp_or_now meta;
  match _log_payload this timestamp msg meta level with
  | Err e => Throw e
  | Ok payload =>
      if disablePromiseRejection then
        then_ (send JSON_members payload)
          (fun bytes => Ret (Bytes bytes))
          (fun e => emit_err e;; Ret False_)
      else bytes ← send JSON_members payload; Ret (Bytes bytes)
  end.

Definition emergency msg meta := _log msg meta (Some EMERG) true.
Definition alert msg meta := _log msg meta (Some ALERT) true.
Definition critical msg meta := _log msg meta (Some CRIT) true.
Definition error msg meta := _log msg meta (Some ERR) true.
Definition warning msg meta := _log msg meta (Some WARNING) true.
Definition warn msg meta := _log msg meta (Some WARNING) true.
Definition notice msg meta := _log msg meta (Some NOTICE) true.
Definition info msg meta := _log msg meta (Some INFO) true.
Definition log msg meta := _log msg meta (Some INFO) true.
Definition debug msg meta := _log msg meta (Some DEBUG) true.

End Encoder.

End Rev2.

(** ** What a trace shows *)

(** A datagram handed to a socket: the bytes [msg[offset .. offset+length)]
    and where they go. *)
Record Datagram : Type := mkDatagram {
  dg_socket : Socket;
  dg_bytes : Buffer;
  dg_port : Z;
  dg_address : string
}.

Definition datagram_of (e : Event) : option Datagram :=
  match e with
  | Ev req _ =>
      match req with
      | SocketSend sock msg offset length port address =>
          Some (mkDatagram sock
                  (take (Z.to_nat length) (drop (Z.to_nat offset) msg))
                  port address)
      | _ => None
      end
  end.

(** The datagrams of a trace, in the order of the calls of
    [client.send]. *)
Definition datagrams (tr : Trace) : list Datagram := omap datagram_of tr.

Definition is_CreateSocket (e : Event) : bool :=
  match e with
  | Ev req _ => match req with CreateSocket => true | _ => false end
  end.

Definition is_RandomBytes (e : Event) : bool :=
  match e with
  | Ev req _ => match req with RandomBytes _ => true | _ => false end
  end.

Definition sockets_created (tr : Trace) : nat :=
  length (List.filter is_CreateSocket tr).

Definition listener_call_of (e : Event) : option (ListenerId * Error) :=
  match e with
  | Ev req _ =>
      match req with
      | Listener cb err => Some (cb, err)
      | _ => None
      end
  end.

(** The calls of 'err' listeners. *)
Definition listener_calls (tr : Trace) : list (ListenerId * Error) :=
  omap listener_call_of tr.

Definition settlement_of (e : Event) : option (PromiseId * Result unit) :=
  match e with
  | Ev req _ =>
      match req with
      | Settle p r => Some (p, r)
      | _ => None
      end
  end.

(** The settlements of [close] promises; the first one for a promise
    decides it. *)
Definition settlements (tr : Trace) : list (PromiseId * Result unit) :=
  omap settlement_of tr.

Definition closed_socket_of (e : Event) : option Socket :=
  match e with
  | Ev req _ =>
      match req with
      | SocketClose sock => Some sock
      | _ => None
      end
  end.

Definition closed_sockets (tr : Trace) : list Socket :=
  omap closed_socket_of tr.

(** ** Runtimes to run examples with *)

Definition last_datagram_length (tr : Trace) : Z :=
  match last (datagrams tr) with
  | Some d => len (dg_bytes d)
  | None => 0
  end.

(** Every request succeeds: the clock stands at 2020-04-07T10:20:30Z,
    zlib gives its input back, the random bytes are the character '1',
    sockets are numbered as they are created and every datagram is
    written in full. *)
Definition runtime_ok : Oracle :=
  fun X req tr =>
    match req in Request X return X with
    | DateNow => 1586254830000
    | Deflate data => Ok data
    | RandomBytes n => Ok (replicate (Z.to_nat n) "1"%byte)
    | CreateSocket => sockets_created tr
    | SocketSend _ _ _ _ _ _ => None
    | SendCallback _ => Ok (last_datagram_length tr)
    | SocketClose _ => tt
    | NextTick => tt
    | Settle _ _ => tt
    | Listener _ _ => tt
    end.

(** The socket of the tests of safe mode:
    [send = () => { throw new Error('Connection error') }]. *)
Definition runtime_throwing : Oracle :=
  fun X req tr =>
    match req in Request X return X with
    | SocketSend _ _ _ _ _ _ => Some (External "Connection error")
    | SendCallback _ => Err (External "Connection error")
    | req => runtime_ok _ req tr
    end.

(** A client as the tests build it. *)
Definition test_servers : list HostPort := [mkHostPort "127.0.0.1" 12201].

Definition test_client : Graylog :=
  mkGraylog test_servers None "mock-host" "Node.js" "optimal" 1400 0 0 0%nat
    None [].

(** A client with datagrams of 16 bytes, 4 of them of payload, and no
    compression. *)
Definition small_client : Graylog :=
  mkGraylog test_servers None "mock-host" "Node.js" "never" 16 0 0 0%nat
    None [].

(** A runtime whose zlib fails. *)
Definition runtime_zlib_failing : Oracle :=
  fun X req tr =>
    match req in Request X return X with
    | Deflate _ => Err (External "zlib")
    | req => runtime_ok _ req tr
    end.

(** A runtime whose random generator fails. *)
Definition runtime_no_entropy : Oracle :=
  fun X req tr =>
    match req in Request X return X with
    | RandomBytes _ => Err (External "entropy")
    | req => runtime_ok _ req tr
    end.

(** The clients of [deflate: 'always'], of [bufferSize: 5] and of an
    empty list of servers. *)
Definition always_client : Graylog :=
  mkGraylog test_servers None "mock-host" "Node.js" "always" 1400 0 0 0%nat
    None [].

Definition tiny_client : Graylog :=
  mkGraylog test_servers None "mock-host" "Node.js" "never" 5 0 0 0%nat
    None [].

Definition no_server_client : Graylog :=
  mkGraylog [] None "mock-host" "Node.js" "never" 1400 0 0 0%nat None [].

(** An encoder for the examples: it writes the names of the fields. *)
Definition names_only (payload : Payload) : string :=
  foldr (fun kv acc => kv.1 +:+ "," +:+ acc) "" (map_to_list payload).

(** ** Notions that the statements use *)

(** The trace, the object and the socket after [getClient]. *)
Definition after_getClient (o : Oracle) (this : Graylog) (tr : Trace)
    : Trace * Graylog * Socket :=
  match client this with
  | Some sock => (tr, this, sock)
  | None =>
      (tr ++ [Ev CreateSocket (o _ CreateSocket tr)],
       with_client (Some (o _ CreateSocket tr)) this,
       o _ CreateSocket tr)
  end.

(** Both counters are zero. *)
Definition idle (this : Graylog) : bool :=
  (_unsentChunks this =? 0) && (_unsentMessages this =? 0).

(** A runtime whose socket takes every datagram. *)
Definition accepts_datagrams (o : Oracle) : Prop :=
  (forall sock msg offset length port address tr,
      o _ (SocketSend sock msg offset length port address) tr = None)
  /\ (forall sock tr, exists bytes, o _ (SendCallback sock) tr = Ok bytes).

(** A runtime whose [crypto.randomBytes(8)] gives eight bytes. *)
Definition gives_random_id (o : Oracle) : Prop :=
  forall tr, exists id, o _ (RandomBytes 8) tr = Ok id /\ length id = 8%nat.

(** The number that a byte stands for. *)
Definition byte_value (b : byte) : Z := Z.of_N (Byte.to_N b).

(** A datagram of a chunked message. *)
Definition frame (id : Buffer) (seq total : byte) (payload : Buffer) : Buffer :=
  [x1e; x0f] ++ id ++ [seq; total] ++ payload.

(** The bytes of [buffer] that chunk [i] carries. *)
Definition payload_slice (dataSize : Z) (buffer : Buffer) (i : Z) : Buffer :=
  take (Z.to_nat dataSize) (drop (Z.to_nat (i * dataSize)) buffer).

Fixpoint frames (turns : nat) (i : Z) (id : Buffer) (total : byte)
    (dataSize : Z) (buffer : Buffer) : list Buffer :=
  match turns with
  | O => []
  | S turns =>
      frame id (u8 i) total (payload_slice dataSize buffer i)
      :: frames turns (i + 1) id total dataSize buffer
  end.

(** The chunk buffer between two turns of the loop: the header is in
    place, whatever the sequence byte and the payload bytes are. *)
Definition chunk_ready (id : Buffer) (total : byte) (dataSize : Z)
    (chunk : Buffer) : Prop :=
  exists seq rest,
    chunk = frame id seq total rest /\ length id = 8%nat /\ len rest = dataSize.

(** Where a datagram goes. *)
Definition endpoint (d : Datagram) : HostPort :=
  mkHostPort (dg_address d) (dg_port d).

(** The error with which [_sendData] refuses a buffer before it asks for
    a server, if it does: the size check of [_sendChunkedStream], or the
    failure of the random generator that follows it. *)
Definition refused_before_selector (o : Oracle) (this : Graylog) (tr : Trace)
    (buffer : Buffer) : option Error :=
  if len buffer <=? _bufferSize this then None
  else if Count_gt (Math_ceil_div (len buffer) (_bufferSize this - 12)) 128
       then Some (TooBig ((_bufferSize this - 12) * 128))
       else match o _ (RandomBytes 8) tr with
            | Ok _ => None
            | Err e => Some e
            end.

(** Messages sent one after the other, each awaited, failed or not. *)
Fixpoint send_each (o : Oracle) (buffers : list Buffer) (this : Graylog)
    (tr : Trace) : Trace * Graylog :=
  match buffers with
  | [] => (tr, this)
  | buffer :: buffers =>
      let '(tr', this', _) := run o (_sendData buffer) this tr in
      send_each o buffers this' tr'
  end.

Definition three_servers : list HostPort :=
  [mkHostPort "10.0.0.1" 12201; mkHostPort "10.0.0.2" 12201;
   mkHostPort "10.0.0.3" 12201].

Definition three_server_client : Graylog :=
  mkGraylog three_servers None "mock-host" "Node.js" "never" 16 0 0 0%nat
    None [].

(** A runtime whose [client.send] does not throw (it may still report
    an error to the callback). *)
Definition send_does_not_throw (o : Oracle) : Prop :=
  forall sock msg offset length port address tr,
    o _ (SocketSend sock msg offset length port address) tr = None.

(** A call without a request that waits runs to its end at once. *)
Fixpoint immediate {A} (p : Prog A) : Prop :=
  match p with
  | Ret _ => True
  | Throw _ => True
  | Get k => forall this, immediate (k this)
  | Put _ k => immediate k
  | Call req k => suspends req = false /\ forall x, immediate (k x)
  end.

(** [interleaved o p Q resumed this tr]: [Q] holds when [p] ends,
    whatever the other calls on the object do while [p] waits.  At a
    request that gives control back, the answer, the object and the
    trace that [p] finds when it goes on are arbitrary; [Q] is told the
    object as [p] found it the last time it went on ([resumed]). *)
Fixpoint interleaved {A} (o : Oracle) (p : Prog A)
    (Q : Graylog -> Trace -> Graylog -> Result A -> Prop)
    (resumed this : Graylog) (tr : Trace) : Prop :=
  match p with
  | Ret a => Q resumed tr this (Ok a)
  | Throw e => Q resumed tr this (Err e)
  | Get k => interleaved o (k this) Q resumed this tr
  | Put this' k => interleaved o k Q resumed this' tr
  | Call req k =>
      if suspends req
      then forall x this' tr', interleaved o (k x) Q this' this' tr'
      else interleaved o (k (o _ req tr)) Q resumed this
             (tr ++ [Ev req (o _ req tr)])
  end.

(** The segment that ends a call has not touched [_destroyIfNeeded]. *)
Definition closure_kept {A} (resumed : Graylog) (tr : Trace) (this : Graylog)
    (r : Result A) : Prop :=
  _destroyIfNeeded this = _destroyIfNeeded resumed.

(** A send that has succeeded and leaves the client idle has served the
    close that was pending when its last segment began: the promise of
    that close is resolved and the client has no socket. *)
Definition drained (resumed : Graylog) (tr : Trace) (this : Graylog)
    (r : Result Z) : Prop :=
  forall bytes p,
    r = Ok bytes ->
    _destroyIfNeeded resumed = Some p ->
    idle this = true ->
    In (p, Ok tt) (settlements tr) /\ client this = None.

(** ** More of what a trace shows *)

(** The byte counts that the callbacks of [client.send] reported. *)
Definition callback_bytes_of (e : Event) : option Z :=
  match e with
  | Ev req answer =>
      match req in Request X return X -> option Z with
      | SendCallback _ =>
          fun answer =>
            match answer with
            | Ok bytes => Some bytes
            | Err _ => None
            end
      | _ => fun _ => None
      end answer
  end.

Definition callback_bytes (tr : Trace) : list Z := omap callback_bytes_of tr.

(** The buffers handed to [zlib.deflate]. *)
Definition deflated_of (e : Event) : option Buffer :=
  match e with
  | Ev req _ =>
      match req with
      | Deflate data => Some data
      | _ => None
      end
  end.

Definition deflated (tr : Trace) : list Buffer := omap deflated_of tr.

Definition is_DateNow (e : Event) : bool :=
  match e with
  | Ev req _ => match req with DateNow => true | _ => false end
  end.

(** The number of readings of the clock. *)
Definition clock_reads (tr : Trace) : nat :=
  length (List.filter is_DateNow tr).

(** [meta?.name]: [undefined] without [meta]. *)
Definition meta_prop (meta : option AdditionalFields) (name : string)
    : JsValue :=
  match meta with
  | Some fields => prop fields name
  | None => JsUndefined
  end.

(** The sum of a list of byte counts. *)
Definition total (l : list Z) : Z := foldr Z.add 0 l.

(** The number of calls of [_sendChunk] that [_sendData] makes for a
    buffer when none fails: one if the buffer fits a datagram, otherwise
    the number of turns of the loop of [_sendChunkedStream]. *)
Definition datagrams_needed (this : Graylog) (buffer : Buffer) : nat :=
  if len buffer <=? _bufferSize this then 1%nat
  else Count_turns (Math_ceil_div (len buffer) (_bufferSize this - 12)).

(** * Proofs *)

(** ** How [run] goes through the combinators *)

Lemma run_bind {A B} (o : Oracle) (p : Prog A) (f : A -> Prog B) this tr :
  run o (p ≫= f) this tr =
  match run o p this tr with
  | (tr', this', Ok a) => run o (f a) this' tr'
  | (tr', this', Err e) => (tr', this', Err e)
  end.
Proof.
  change (p ≫= f) with (bind p f).
  revert this tr; induction p as [a|e|k IH|s k IH|X req k IH]; intros; simpl.
  - reflexivity.
  - reflexivity.
  - apply IH.
  - apply IH.
  - apply IH.
Qed.

Lemma run_try_finally {A} (o : Oracle) (body : Prog A) (cleanup : Prog unit)
    this tr :
  run o (try_finally body cleanup) this tr =
  match run o body this tr with
  | (tr', this', r) =>
      match run o cleanup this' tr' with
      | (tr'', this'', Ok _) => (tr'', this'', r)
      | (tr'', this'', Err e) => (tr'', this'', Err e)
      end
  end.
Proof.
  revert this tr; induction body as [a|e|k IH|s k IH|X req k IH];
    intros; simpl; try apply IH.
  - change (bind cleanup (fun _ => Ret a)) with (cleanup ≫= (fun _ => Ret a)).
    rewrite run_bind. destruct (run o cleanup this tr) as [[? ?] [[]|?]]; reflexivity.
  - change (bind cleanup (fun _ => Throw e))
      with (cleanup ≫= (fun _ => @Throw A e)).
    rewrite run_bind. destruct (run o cleanup this tr) as [[? ?] [[]|?]]; reflexivity.
Qed.

Lemma run_then {A B} (o : Oracle) (p : Prog A) (f : A -> Prog B)
    (g : Error -> Prog B) this tr :
  run o (then_ p f g) this tr =
  match run o p this tr with
  | (tr', this', Ok a) => run o (f a) this' tr'
  | (tr', this', Err e) => run o (g e) this' tr'
  end.
Proof.
  revert this tr; induction p as [a|e|k IH|s k IH|X req k IH];
    intros; simpl; try apply IH; reflexivity.
Qed.

Lemma run_modify (o : Oracle) (f : Graylog -> Graylog) this tr :
  run o (modify f) this tr = (tr, f this, Ok tt).
Proof. reflexivity. Qed.

Lemma run_call {X} (o : Oracle) (req : Request X) this tr :
  run o (call req) this tr = (tr ++ [Ev req (o _ req tr)], this, Ok (o _ req tr)).
Proof. reflexivity. Qed.

(** A run only adds to the trace. *)
Lemma run_extends {A} (o : Oracle) (p : Prog A) this tr :
  exists more, (run o p this tr).1.1 = tr ++ more.
Proof.
  revert this tr; induction p as [a|e|k IH|s k IH|X req k IH]; intros; simpl.
  - exists []. by rewrite app_nil_r.
  - exists []. by rewrite app_nil_r.
  - apply IH.
  - apply IH.
  - destruct (IH (o X req tr) this (tr ++ [Ev req (o X req tr)])) as [more E].
    exists (Ev req (o X req tr) :: more). rewrite E. by rewrite <- app_assoc.
Qed.

(** ** Observations of a longer trace *)

Lemma datagrams_app (tr1 tr2 : Trace) :
  datagrams (tr1 ++ tr2) = datagrams tr1 ++ datagrams tr2.
Proof. apply omap_app. Qed.

Lemma listener_calls_app (tr1 tr2 : Trace) :
  listener_calls (tr1 ++ tr2) = listener_calls tr1 ++ listener_calls tr2.
Proof. apply omap_app. Qed.

Lemma settlements_app (tr1 tr2 : Trace) :
  settlements (tr1 ++ tr2) = settlements tr1 ++ settlements tr2.
Proof. apply omap_app. Qed.

Lemma closed_sockets_app (tr1 tr2 : Trace) :
  closed_sockets (tr1 ++ tr2) = closed_sockets tr1 ++ closed_sockets tr2.
Proof. apply omap_app. Qed.

Lemma sockets_created_app (tr1 tr2 : Trace) :
  sockets_created (tr1 ++ tr2)
  = (sockets_created tr1 + sockets_created tr2)%nat.
Proof. unfold sockets_created. by rewrite List.filter_app, length_app. Qed.

(** ** Records *)

(** Reading a field of an updated record. *)
Ltac fields :=
  cbn [servers client hostname facility deflate _bufferSize _unsentMessages
       _unsentChunks _callCount _destroyIfNeeded listeners
       with_client with_unsentMessages with_unsentChunks with_callCount
       with_destroyIfNeeded with_listeners] in *.

Lemma with_unsentMessages_same this :
  with_unsentMessages (_unsentMessages this) this = this.
Proof. by destruct this. Qed.

Lemma with_unsentChunks_same this :
  with_unsentChunks (_unsentChunks this) this = this.
Proof. by destruct this. Qed.

(** ** [getClient] and [_sendChunk], for every runtime *)

Lemma run_getClient (o : Oracle) this tr :
  run o getClient this tr =
  let '(tr0, this0, sock) := after_getClient o this tr in
  (tr0, this0, Ok (Some sock)).
Proof. unfold getClient, after_getClient. simpl. by destruct (client this). Qed.

(** [getClient] always gives a socket: the branch of [_sendChunk] that
    rejects with 'Socket was already destroyed' is never taken. *)
Lemma getClient_never_undefined (o : Oracle) this tr :
  (run o getClient this tr).2 <> Ok None.
Proof.
  rewrite run_getClient. destruct (after_getClient o this tr) as [[? ?] ?].
  simpl. congruence.
Qed.

Lemma run_sendChunk (o : Oracle) chunk server this tr :
  run o (_sendChunk chunk (Some server)) this tr =
  let '(tr0, this0, sock) := after_getClient o this tr in
  let req := SocketSend sock chunk 0 (len chunk) (port server) (host server) in
  match o _ req tr0 with
  | Some e =>
      (tr0 ++ [Ev req (Some e)],
       with_unsentChunks (_unsentChunks this0 + 1) this0, Err e)
  | None =>
      let tr1 := tr0 ++ [Ev req None] in
      let answer := o _ (SendCallback sock) tr1 in
      (tr1 ++ [Ev (SendCallback sock) answer],
       with_unsentChunks (_unsentChunks this0 + 1 - 1)
         (with_unsentChunks (_unsentChunks this0 + 1) this0),
       match answer with Ok bytes => Ok bytes | Err err => Err err end)
  end.
Proof.
  unfold _sendChunk. rewrite run_bind, run_getClient.
  destruct (after_getClient o this tr) as [[tr0 this0] sock]. simpl.
  destruct (o _ (SocketSend sock chunk 0 (len chunk) (port server) (host server)) tr0);
    simpl; [reflexivity|].
  destruct (o _ (SendCallback sock) _); reflexivity.
Qed.

(** ** Messages that need more than 128 chunks *)

(** C3.  A buffer whose chunk count [Math.ceil(length / (bufferSize - 12))]
    exceeds 128 is refused by [_sendChunkedStream], and so by [_sendData]
    for a buffer that does not fit one datagram, with the size-exceeded
    error, for every runtime.  The trace is returned as it was: no random
    id was asked for, no socket was created and no datagram was handed to
    one.  The object is returned as it was: the call counter of the
    server selector has not moved and both in-flight counters have their
    old values. *)
Theorem oversized_message_is_refused_without_effect
    (o : Oracle) (buffer : Buffer) (this : Graylog) (tr : Trace) :
  Count_gt (Math_ceil_div (len buffer) (_bufferSize this - 12)) 128 = true ->
  run o (_sendChunkedStream buffer) this tr
    = (tr, this, Err (TooBig ((_bufferSize this - 12) * 128)))
  /\ (_bufferSize this < len buffer ->
      run o (_sendData buffer) this tr
        = (tr, this, Err (TooBig ((_bufferSize this - 12) * 128)))).
Proof.
  intros Hbig.
  assert (Hstream : forall this' tr',
             _bufferSize this' = _bufferSize this ->
             run o (_sendChunkedStream buffer) this' tr'
             = (tr', this', Err (TooBig ((_bufferSize this - 12) * 128)))).
  { intros this' tr' E. unfold _sendChunkedStream. simpl.
    rewrite E, Hbig. reflexivity. }
  split; [by apply Hstream|].
  intros Hlong.
  unfold _sendData.
  rewrite run_bind, run_try_finally, run_bind, run_modify.
  simpl.
  destruct (Z.leb_spec (len buffer) (_bufferSize this)) as [?|_]; [lia|].
  rewrite Hstream by reflexivity.
  simpl. f_equal. f_equal.
  replace (_unsentMessages this + 1 - 1) with (_unsentMessages this) by lia.
  by destruct this.
Qed.

Lemma oversized_message_is_refused_without_effect_witness :
  let this := with_unsentMessages 3 small_client in
  let buffer := Buffer_alloc 513 in
  run runtime_ok (_sendData buffer) this []
  = ([], this, Err (TooBig 512)).
Proof.
  intros this buffer.
  refine (proj2 (oversized_message_is_refused_without_effect
                   runtime_ok buffer this [] _) _).
  - vm_compute. reflexivity.
  - vm_compute. reflexivity.
Defined.

(** ** [destroy], the drain check and [_sendData] *)

Lemma run_call_unit (o : Oracle) (req : Request unit) this tr :
  run o (call req) this tr = (tr ++ [Ev req tt], this, Ok tt).
Proof. rewrite run_call. by destruct (o _ req tr). Qed.

Lemma run_destroy (o : Oracle) this tr :
  run o destroy this tr =
  match client this with
  | Some sock =>
      (tr ++ [Ev (SocketClose sock) tt],
       with_destroyIfNeeded None (with_client None this), Ok tt)
  | None => (tr, this, Ok tt)
  end.
Proof.
  unfold destroy. rewrite run_bind. cbn [run].
  destruct (client this) as [sock|]; [|reflexivity].
  rewrite run_bind, run_call_unit. reflexivity.
Qed.

Lemma run_destroyIfNeeded (o : Oracle) p this tr :
  run o (destroyIfNeeded p) this tr =
  if idle this then
    match run o destroy this tr with
    | (tr', this', _) => (tr' ++ [Ev (Settle p (Ok tt)) tt], this', Ok tt)
    end
  else (tr, this, Ok tt).
Proof.
  unfold destroyIfNeeded, idle. rewrite run_bind. cbn [run].
  destruct ((_unsentChunks this =? 0) && (_unsentMessages this =? 0)); [|done].
  rewrite run_bind, run_destroy.
  destruct (client this); by rewrite run_call_unit.
Qed.

Lemma run_call_destroyIfNeeded (o : Oracle) this tr :
  run o call_destroyIfNeeded this tr =
  match _destroyIfNeeded this with
  | Some p => run o (destroyIfNeeded p) this tr
  | None => (tr, this, Ok tt)
  end.
Proof. unfold call_destroyIfNeeded. simpl. by destruct (_destroyIfNeeded this). Qed.

(** The drain check hands no datagram to a socket, leaves the selector
    alone and does not fail. *)
Lemma call_destroyIfNeeded_quiet (o : Oracle) this tr :
  exists tr' this',
    run o call_destroyIfNeeded this tr = (tr', this', Ok tt)
    /\ datagrams tr' = datagrams tr
    /\ listener_calls tr' = listener_calls tr
    /\ _callCount this' = _callCount this
    /\ servers this' = servers this
    /\ _unsentMessages this' = _unsentMessages this
    /\ _unsentChunks this' = _unsentChunks this
    /\ _bufferSize this' = _bufferSize this
    /\ sockets_created tr' = sockets_created tr
    /\ listeners this' = listeners this.
Proof.
  rewrite run_call_destroyIfNeeded.
  destruct (_destroyIfNeeded this) as [p|]; [|by eauto 12].
  rewrite run_destroyIfNeeded. destruct (idle this); [|by eauto 12].
  rewrite run_destroy. destruct (client this) as [sock|].
  - do 2 eexists. split; [reflexivity|].
    rewrite <- app_assoc, datagrams_app, listener_calls_app, sockets_created_app.
    simpl. rewrite !app_nil_r. repeat split; auto.
  - do 2 eexists. split; [reflexivity|].
    rewrite datagrams_app, listener_calls_app, sockets_created_app.
    simpl. rewrite !app_nil_r. repeat split; auto.
Qed.

Lemma run_getServer (o : Oracle) this tr :
  run o getServer this tr =
  (tr, with_callCount (S (_callCount this)) this,
   Ok (servers this !! (_callCount this `mod` length (servers this))%nat)).
Proof. reflexivity. Qed.

Lemma getServer_defined this :
  servers this <> [] ->
  is_Some (servers this !! (_callCount this `mod` length (servers this))%nat).
Proof.
  intros Hne. apply lookup_lt_is_Some. apply Nat.mod_upper_bound.
  destruct (servers this); [done|]. simpl. lia.
Qed.

(** [_sendData] in terms of the run of its [try] block. *)
Lemma run_sendData (o : Oracle) buffer this tr :
  run o (_sendData buffer) this tr =
  let this1 := with_unsentMessages (_unsentMessages this + 1) this in
  match run o (if len buffer <=? _bufferSize this
               then server ← getServer; _sendChunk buffer server
               else _sendChunkedStream buffer) this1 tr with
  | (tr', this', Ok sendedBytes) =>
      match run o call_destroyIfNeeded
              (with_unsentMessages (_unsentMessages this' - 1) this') tr' with
      | (tr'', this'', Ok _) => (tr'', this'', Ok sendedBytes)
      | (tr'', this'', Err e) => (tr'', this'', Err e)
      end
  | (tr', this', Err e) =>
      (tr', with_unsentMessages (_unsentMessages this' - 1) this', Err e)
  end.
Proof.
  unfold _sendData. rewrite run_bind, run_try_finally, run_bind, run_modify.
  rewrite run_bind. cbn [run].
  destruct (run o _ _ tr) as [[tr' this'] [n|e]]; rewrite run_modify;
    cbn [run]; [|reflexivity].
  rewrite run_bind. destruct (run o call_destroyIfNeeded _ tr') as [[? ?] [[]|?]];
    reflexivity.
Qed.

Lemma after_getClient_spec (o : Oracle) this tr :
  exists more sock,
    after_getClient o this tr = (tr ++ more, with_client (Some sock) this, sock)
    /\ datagrams more = []
    /\ listener_calls more = []
    /\ settlements more = []
    /\ closed_sockets more = [].
Proof.
  unfold after_getClient. destruct (client this) as [sock|] eqn:E.
  - exists [], sock. rewrite app_nil_r. split; [|done].
    f_equal. f_equal. destruct this. simpl in *. by subst.
  - by exists [Ev CreateSocket (o _ CreateSocket tr)], (o _ CreateSocket tr).
Qed.

Lemma datagrams_send tr sock (chunk : Buffer) p a answer :
  datagrams (tr ++ [Ev (SocketSend sock chunk 0 (len chunk) p a) answer])
  = datagrams tr ++ [mkDatagram sock chunk p a].
Proof.
  rewrite datagrams_app. f_equal. unfold datagrams, len. simpl.
  by rewrite Nat2Z.id, firstn_all.
Qed.

(** One call of [_sendChunk] hands exactly one datagram to the socket,
    whatever the runtime answers. *)
Lemma sendChunk_datagram (o : Oracle) chunk server this tr :
  exists tr' this' r sock,
    run o (_sendChunk chunk (Some server)) this tr = (tr', this', r)
    /\ datagrams tr'
       = datagrams tr ++ [mkDatagram sock chunk (port server) (host server)]
    /\ listener_calls tr' = listener_calls tr
    /\ _callCount this' = _callCount this
    /\ servers this' = servers this
    /\ _bufferSize this' = _bufferSize this
    /\ _unsentMessages this' = _unsentMessages this
    /\ _destroyIfNeeded this' = _destroyIfNeeded this
    /\ listeners this' = listeners this.
Proof.
  rewrite run_sendChunk.
  destruct (after_getClient_spec o this tr) as (more & sock & -> & Hd & Hl & _).
  cbn zeta.
  destruct (o _ (SocketSend sock chunk 0 (len chunk) (port server) (host server))
              (tr ++ more)) as [e|].
  - do 3 eexists. exists sock. split; [reflexivity|].
    rewrite datagrams_send, datagrams_app, !listener_calls_app, Hd, Hl.
    simpl. by rewrite !app_nil_r.
  - do 3 eexists. exists sock. split; [reflexivity|].
    rewrite (datagrams_app (_ ++ [_])), datagrams_send, datagrams_app.
    rewrite !listener_calls_app, Hd, Hl.
    simpl. by rewrite !app_nil_r.
Qed.

Section EncoderFacts.

Variable JSON_members : Payload -> string.

Lemma JSON_opens_with_brace (payload : Payload) :
  exists rest,
    Buffer_from (JSON_stringify JSON_members payload) = "{"%byte :: rest.
Proof. unfold Buffer_from, JSON_stringify. simpl. eauto. Qed.

(** C2.  A payload whose serialized text is at most [_bufferSize] bytes
    long, with [deflate] "optimal" or "never" and a server to send to:
    [send] hands exactly one datagram to the socket; its bytes are the
    bytes of [JSON.stringify(payload)], uncompressed and with nothing
    before them, so that the first two bytes are not the chunk marker
    0x1E 0x0F.  This holds for every runtime, also one whose socket
    fails. *)
Theorem small_payload_is_one_plain_datagram
    (o : Oracle) (payload : Payload) (this : Graylog) (tr : Trace) :
  deflate this = "optimal" \/ deflate this = "never" ->
  len (Buffer_from (JSON_stringify JSON_members payload)) <= _bufferSize this ->
  servers this <> [] ->
  exists d,
    datagrams (run o (send JSON_members payload) this tr).1.1
      = datagrams tr ++ [d]
    /\ dg_bytes d = Buffer_from (JSON_stringify JSON_members payload)
    /\ take 2 (dg_bytes d) <> [x1e; x0f].
Proof.
  intros Hmode Hfit Hservers.
  set (data := Buffer_from (JSON_stringify JSON_members payload)) in *.
  assert (Hplain : run o (send JSON_members payload) this tr
                   = run o (_sendData data) this tr).
  { unfold send. rewrite run_bind. cbn [run]. fold data.
    apply Z.leb_le in Hfit. rewrite Hfit.
    destruct Hmode as [-> | ->]; reflexivity. }
  rewrite Hplain, run_sendData. cbn zeta.
  apply Z.leb_le in Hfit. rewrite Hfit.
  rewrite run_bind, run_getServer.
  destruct (getServer_defined (with_unsentMessages (_unsentMessages this + 1) this))
    as [server Hserver]; [done|].
  simpl servers in Hserver. simpl _callCount in Hserver.
  simpl servers. simpl _callCount. rewrite Hserver.
  destruct (sendChunk_datagram o data server
              (with_callCount (S (_callCount this))
                 (with_unsentMessages (_unsentMessages this + 1) this)) tr)
    as (tr' & this' & r & sock & -> & Hd & _).
  exists (mkDatagram sock data (port server) (host server)).
  split; [|split; [reflexivity|]].
  - destruct r as [n|e]; [|exact Hd].
    destruct (call_destroyIfNeeded_quiet o
                (with_unsentMessages (_unsentMessages this' - 1) this') tr')
      as (tr'' & this'' & -> & Hq & _).
    simpl. by rewrite Hq.
  - destruct (JSON_opens_with_brace payload) as [rest E].
    cbn [dg_bytes]. subst data. rewrite E. simpl. congruence.
Qed.

End EncoderFacts.

Lemma small_payload_is_one_plain_datagram_witness :
  exists d,
    datagrams (run runtime_throwing
                 (send names_only (<["short_message" := JsString "hello"]> ∅))
                 test_client []).1.1 = datagrams [] ++ [d]
    /\ dg_bytes d
       = Buffer_from
           (JSON_stringify names_only (<["short_message" := JsString "hello"]> ∅))
    /\ take 2 (dg_bytes d) <> [x1e; x0f].
Proof.
  apply (small_payload_is_one_plain_datagram names_only runtime_throwing
           (<["short_message" := JsString "hello"]> ∅) test_client []).
  - left. reflexivity.
  - vm_compute. discriminate.
  - discriminate.
Defined.

(** ** The chunked stream *)

Lemma byte_value_u8 z : 0 <= z < 256 -> byte_value (u8 z) = z.
Proof.
  intros Hz. unfold byte_value, u8. rewrite Z.mod_small by lia.
  destruct (Byte.of_N (Z.to_N z)) as [b|] eqn:E.
  - apply Byte.to_of_N in E. rewrite E. lia.
  - apply Byte.of_N_None_iff in E. lia.
Qed.

Lemma len_app {A} (l1 l2 : list A) : len (l1 ++ l2) = len l1 + len l2.
Proof. unfold len. rewrite length_app. lia. Qed.

Lemma len_nonneg {A} (l : list A) : 0 <= len l.
Proof. unfold len. lia. Qed.

Lemma len_frame id seq total payload :
  len (frame id seq total payload) = 4 + len id + len payload.
Proof. unfold frame. rewrite !len_app. unfold len. simpl. lia. Qed.

Lemma Buffer_slice_prefix (buf : Buffer) n :
  0 <= n <= len buf -> Buffer_slice buf 0 n = take (Z.to_nat n) buf.
Proof.
  intros Hn. unfold Buffer_slice, slice_index. change (0 <? 0) with false.
  destruct (Z.ltb_spec n 0); [lia|].
  rewrite (Z.min_l 0), (Z.min_l n), Z.sub_0_r by lia. reflexivity.
Qed.

(** One turn: what is handed to the socket and what stays in the buffer. *)
Lemma loop_turn id total dataSize chunk buffer i :
  chunk_ready id total dataSize chunk ->
  0 <= i -> 0 < dataSize -> i * dataSize < len buffer ->
  let start := i * dataSize in
  let stop := Z.min ((i + 1) * dataSize) (len buffer) in
  let chunk' := Buffer_copy buffer (Buffer_set chunk 10 (u8 i)) 12 start stop in
  Buffer_slice chunk' 0 (stop - start + 12)
    = frame id (u8 i) total (payload_slice dataSize buffer i)
  /\ chunk_ready id total dataSize chunk'.
Proof.
  intros (seq & rest & -> & Hid & Hrest) Hi Hd Hstart start stop chunk'.
  set (m := stop - start).
  assert (Hm : 0 < m <= dataSize) by (subst m start stop; nia).
  assert (Hstop : stop <= len buffer) by (subst stop; lia).
  set (slice := take (Z.to_nat m) (drop (Z.to_nat start) buffer)).
  assert (Hslice : len slice = m).
  { subst slice. unfold len in *. rewrite length_take, length_drop. lia. }
  assert (Hset : Buffer_set (frame id seq total rest) 10 (u8 i)
                 = frame id (u8 i) total rest).
  { unfold Buffer_set, frame.
    do 8 (destruct id as [|? id]; [simpl in Hid; lia|]).
    destruct id; [reflexivity|simpl in Hid; lia]. }
  assert (Hcopy : chunk' = frame id (u8 i) total (slice ++ drop (Z.to_nat m) rest)).
  { subst chunk'. rewrite Hset. unfold Buffer_copy.
    rewrite (Z.min_l stop) by lia.
    assert (Hlen : len (frame id (u8 i) total rest) = 12 + dataSize).
    { rewrite len_frame, Hrest. unfold len. lia. }
    rewrite Hlen. fold m. rewrite (Z.min_l m) by lia.
    destruct (Z.leb_spec m 0); [lia|].
    fold start. fold slice.
    do 8 (destruct id as [|? id]; [simpl in Hid; lia|]).
    destruct id; [|simpl in Hid; lia].
    replace (Z.to_nat (12 + m)) with (12 + Z.to_nat m)%nat by lia.
    reflexivity. }
  split.
  - rewrite Hcopy.
    assert (Hlen : len (frame id (u8 i) total (slice ++ drop (Z.to_nat m) rest))
                   = 12 + dataSize).
    { rewrite len_frame, len_app, Hslice. unfold len in *.
      rewrite length_drop. lia. }
    rewrite Buffer_slice_prefix by lia.
    replace (Z.to_nat (m + 12)) with (12 + Z.to_nat m)%nat by lia.
    do 8 (destruct id as [|? id]; [simpl in Hid; lia|]).
    destruct id; [|simpl in Hid; lia].
    unfold frame. simpl. do 12 f_equal.
    rewrite take_app_length' by (unfold len in Hslice; lia).
    subst slice. unfold payload_slice. fold start.
    destruct (Z.le_gt_cases dataSize m).
    + by replace m with dataSize by lia.
    + rewrite !take_ge; [done| |]; rewrite length_drop; unfold len in *;
        subst m stop start; lia.
  - exists (u8 i), (slice ++ drop (Z.to_nat m) rest).
    split; [done|]. split; [done|].
    rewrite len_app, Hslice. unfold len in *. rewrite length_drop. lia.
Qed.

Lemma with_unsentChunks_back this :
  with_unsentChunks (_unsentChunks this + 1 - 1)
    (with_unsentChunks (_unsentChunks this + 1) this) = this.
Proof. destruct this. unfold with_unsentChunks. simpl. f_equal. lia. Qed.

Lemma run_sendChunk_accepted (o : Oracle) chunk server this tr :
  accepts_datagrams o ->
  exists tr' sock bytes,
    run o (_sendChunk chunk (Some server)) this tr
      = (tr', with_client (Some sock) this, Ok bytes)
    /\ datagrams tr'
       = datagrams tr ++ [mkDatagram sock chunk (port server) (host server)].
Proof.
  intros [Hsend Hcb]. rewrite run_sendChunk.
  destruct (after_getClient_spec o this tr) as (more & sock & -> & Hd & _).
  cbn zeta. rewrite Hsend.
  destruct (Hcb sock ((tr ++ more) ++
              [Ev (SocketSend sock chunk 0 (len chunk) (port server) (host server))
                  None])) as [bytes ->].
  exists ((tr ++ more) ++
            [Ev (SocketSend sock chunk 0 (len chunk) (port server) (host server)) None]
            ++ [Ev (SendCallback sock) (Ok bytes)]), sock, bytes.
  split.
  - rewrite <- !app_assoc.
    pose proof (with_unsentChunks_back (with_client (Some sock) this)) as E.
    simpl in E. simpl. by rewrite E.
  - rewrite app_assoc, (datagrams_app (_ ++ [_])), datagrams_send, datagrams_app, Hd.
    simpl. by rewrite !app_nil_r.
Qed.

(** The loop under a runtime that takes every datagram: the datagrams
    are the frames, in order. *)
Lemma run_loop_accepted (o : Oracle) id total dataSize buffer server :
  accepts_datagrams o -> 0 < dataSize ->
  forall turns i chunk sendedBytes this tr,
    chunk_ready id total dataSize chunk ->
    0 <= i ->
    (i + Z.of_nat turns) * dataSize < len buffer + dataSize ->
    exists tr' this' bytes,
      run o (_sendChunkedStream_loop turns i dataSize buffer chunk
               (Some server) sendedBytes) this tr = (tr', this', Ok bytes)
      /\ map dg_bytes (datagrams tr')
         = map dg_bytes (datagrams tr) ++ frames turns i id total dataSize buffer.
Proof.
  intros Hacc Hd. induction turns as [|turns IH];
    intros i chunk sendedBytes this tr Hready Hi Hlast.
  - exists tr, this, sendedBytes. split; [reflexivity|]. simpl. by rewrite app_nil_r.
  - cbn [_sendChunkedStream_loop]. cbv zeta.
    assert (Hstart : i * dataSize < len buffer) by nia.
    destruct (loop_turn id total dataSize chunk buffer i Hready Hi Hd Hstart)
      as [Hframe Hready'].
    cbv zeta in Hframe, Hready'. rewrite Hframe. rewrite run_bind.
    destruct (run_sendChunk_accepted o
                (frame id (u8 i) total (payload_slice dataSize buffer i))
                server this tr Hacc) as (tr1 & sock & bytes & -> & Hd1).
    destruct (IH (i + 1) _ (sendedBytes + bytes) (with_client (Some sock) this)
                tr1 Hready') as (tr' & this' & n & -> & Hd');
      [lia|nia|].
    exists tr', this', n. split; [reflexivity|].
    rewrite Hd', Hd1, map_app. simpl. by rewrite <- app_assoc.
Qed.

Lemma drop_header id seq total payload :
  length id = 8%nat -> drop 12 (frame id seq total payload) = payload.
Proof.
  intros Hid. do 8 (destruct id as [|? id]; [simpl in Hid; lia|]).
  destruct id; [reflexivity|simpl in Hid; lia].
Qed.

(** The payloads of consecutive frames, put together, are a stretch of
    the buffer. *)
Lemma frames_payloads id total dataSize buffer :
  length id = 8%nat -> 0 < dataSize ->
  forall turns i, 0 <= i ->
    concat (map (drop 12) (frames turns i id total dataSize buffer))
    = take (turns * Z.to_nat dataSize) (drop (Z.to_nat (i * dataSize)) buffer).
Proof.
  intros Hid Hd. induction turns as [|turns IH]; intros i Hi.
  - reflexivity.
  - cbn [frames map concat]. rewrite drop_header, IH by (done || lia).
    unfold payload_slice.
    replace (Z.to_nat ((i + 1) * dataSize))
      with (Z.to_nat (i * dataSize) + Z.to_nat dataSize)%nat by nia.
    rewrite <- drop_drop, take_take_drop. reflexivity.
Qed.

Lemma length_frames turns i id total dataSize buffer :
  length (frames turns i id total dataSize buffer) = turns.
Proof. revert i. induction turns; intros; simpl; [done|by rewrite IHturns]. Qed.

Lemma frames_lookup id total dataSize buffer turns i k chunk :
  frames turns i id total dataSize buffer !! k = Some chunk ->
  chunk = frame id (u8 (i + Z.of_nat k)) total
            (payload_slice dataSize buffer (i + Z.of_nat k))
  /\ (k < turns)%nat.
Proof.
  revert i k. induction turns as [|turns IH]; intros i k; [done|].
  destruct k as [|k]; simpl.
  - intros [= <-]. rewrite Z.add_0_r. split; [done|lia].
  - intros Hk. apply IH in Hk as [-> ?].
    replace (i + 1 + Z.of_nat k) with (i + Z.pos (Pos.of_succ_nat k)) by lia.
    split; [done|lia].
Qed.

(** [Math.ceil] of a quotient of positive integers. *)
Lemma ceil_div_bounds a b :
  0 < b -> (- ((- a) / b) - 1) * b < a <= - ((- a) / b) * b.
Proof.
  intros Hb. pose proof (Z.div_mod (- a) b ltac:(lia)).
  pose proof (Z.mod_pos_bound (- a) b Hb). nia.
Qed.

Lemma Buffer_copy_fits (source target : Buffer) ts ss se :
  ss < se <= len source -> ts + (se - ss) <= len target ->
  Buffer_copy source target ts ss se
  = take (Z.to_nat ts) target
    ++ take (Z.to_nat (se - ss)) (drop (Z.to_nat ss) source)
    ++ drop (Z.to_nat (ts + (se - ss))) target.
Proof.
  intros Hs Ht. unfold Buffer_copy.
  rewrite (Z.min_l se), (Z.min_l (se - ss)) by lia.
  by destruct (Z.leb_spec (se - ss) 0); [lia|].
Qed.

(** The chunk buffer as [_sendChunkedStream] prepares it. *)
Lemma header_prepared id total bufferSize :
  length id = 8%nat -> 12 < bufferSize ->
  chunk_ready id total (bufferSize - 12)
    (Buffer_copy id
       (Buffer_set (Buffer_set (Buffer_set (Buffer_alloc bufferSize) 0 x1e)
                      1 x0f) 11 total) 2 0 8).
Proof.
  intros Hid HB. exists x00, (replicate (Z.to_nat (bufferSize - 12)) x00).
  split; [|split; [done|]].
  - unfold Buffer_alloc.
    replace (Z.to_nat bufferSize) with (12 + Z.to_nat (bufferSize - 12))%nat by lia.
    generalize (Z.to_nat (bufferSize - 12)). intros n.
    cbn [Nat.add replicate]. unfold Buffer_set. cbn [insert list_insert].
    rewrite Buffer_copy_fits;
      [|unfold len; lia|unfold len; cbn [length]; lia].
    change (Z.to_nat 2) with 2%nat. change (Z.to_nat (8 - 0)) with 8%nat.
    change (Z.to_nat 0) with 0%nat. change (Z.to_nat (2 + (8 - 0))) with 10%nat.
    do 8 (destruct id as [|? id]; [simpl in Hid; lia|]).
    destruct id; [reflexivity|simpl in Hid; lia].
  - unfold len. rewrite length_replicate. lia.
Qed.

(** C1.  A buffer longer than [_bufferSize] = B and at most 128 * (B - 12)
    bytes long, sent by [_sendChunkedStream] on a client that has a
    server, under a runtime that gives an 8-byte random id and whose
    socket takes every datagram (a transport error ends the stream at
    the chunk that met it).  The datagrams handed to the socket are
    [Math.ceil(length / (B - 12))] in number; the one at position [i] is
    0x1E, 0x0F, the eight bytes of the one id, a sequence byte of value
    [i], a total byte whose value is the number of datagrams, and a
    payload; and the payloads (the bytes from the twelfth on), put
    together in this order, are the buffer. *)
Theorem chunked_message_frames_and_reassembles
    (o : Oracle) (buffer : Buffer) (this : Graylog) (tr : Trace) :
  accepts_datagrams o ->
  gives_random_id o ->
  servers this <> [] ->
  _bufferSize this < len buffer ->
  len buffer <= 128 * (_bufferSize this - 12) ->
  exists tr' this' bytes id chunks,
    run o (_sendChunkedStream buffer) this tr = (tr', this', Ok bytes)
    /\ map dg_bytes (datagrams tr') = map dg_bytes (datagrams tr) ++ chunks
    /\ Math_ceil_div (len buffer) (_bufferSize this - 12) = Finite (len chunks)
    /\ length id = 8%nat
    /\ (forall i chunk,
          chunks !! i = Some chunk ->
          exists seq total payload,
            chunk = [x1e; x0f] ++ id ++ [seq; total] ++ payload
            /\ byte_value seq = Z.of_nat i
            /\ byte_value total = len chunks)
    /\ concat (map (drop 12) chunks) = buffer.
Proof.
  intros Hacc Hrand Hservers Hlong Hmax.
  set (d := _bufferSize this - 12) in *.
  pose proof (len_nonneg buffer) as Hlen.
  assert (Hd : 0 < d) by (subst d; lia).
  set (c := - ((- len buffer) / d)).
  pose proof (ceil_div_bounds (len buffer) d Hd) as Hc. fold c in Hc.
  assert (Hc128 : 1 <= c <= 128) by nia.
  assert (Hcount : Math_ceil_div (len buffer) d = Finite c).
  { unfold Math_ceil_div. by destruct (Z.eqb_spec d 0); [lia|]. }
  unfold _sendChunkedStream. rewrite run_bind. cbn [run]. fold d.
  rewrite Hcount. cbn [Count_gt Count_u8 Count_turns].
  destruct (Z.ltb_spec 128 c) as [?|_]; [lia|].
  rewrite run_bind. unfold _generateRandomId, await. cbn [run].
  destruct (Hrand tr) as (id & -> & Hid). cbn [run].
  rewrite run_bind, run_getServer.
  destruct (getServer_defined this Hservers) as [server ->].
  destruct (Z.ltb_spec (_bufferSize this) 0) as [?|_]; [lia|].
  assert (Hready : chunk_ready id (u8 c) d
                     (Buffer_copy id
                        (Buffer_set (Buffer_set (Buffer_set
                           (Buffer_alloc (_bufferSize this)) 0 x1e) 1 x0f) 11 (u8 c))
                        2 0 8))
    by (apply header_prepared; [done|subst d; lia]).
  destruct (run_loop_accepted o id (u8 c) d buffer server Hacc Hd
              (Z.to_nat c) 0 _ 0 (with_callCount (S (_callCount this)) this)
              (tr ++ [Ev (RandomBytes 8) (Ok id)]) Hready)
    as (tr' & this' & bytes & Hrun & Hdg); [lia|nia|].
  exists tr', this', bytes, id, (frames (Z.to_nat c) 0 id (u8 c) d buffer).
  split; [exact Hrun|].
  assert (Hn : len (frames (Z.to_nat c) 0 id (u8 c) d buffer) = c)
    by (unfold len; rewrite length_frames; lia).
  split; [|split; [by rewrite Hn|split; [done|split]]].
  - rewrite Hdg, datagrams_app. simpl. by rewrite app_nil_r.
  - intros i chunk Hi. apply frames_lookup in Hi as [-> Hi].
    exists (u8 (0 + Z.of_nat i)), (u8 c), (payload_slice d buffer (0 + Z.of_nat i)).
    split; [reflexivity|]. rewrite Hn, !byte_value_u8 by lia. lia.
  - rewrite frames_payloads by (done || lia).
    change (Z.to_nat (0 * d)) with 0%nat. rewrite drop_0.
    apply take_ge. unfold len in *. nia.
Qed.

Lemma runtime_ok_accepts : accepts_datagrams runtime_ok.
Proof. split; [reflexivity|]. intros sock tr. eexists. reflexivity. Qed.

Lemma runtime_ok_random : gives_random_id runtime_ok.
Proof. intros tr. eexists. split; reflexivity. Qed.

Lemma chunked_message_frames_and_reassembles_witness :
  let buffer := Buffer_from "0123456789abcdefghijklmnopq" in
  exists tr' this' bytes id chunks,
    run runtime_ok (_sendChunkedStream buffer) small_client [] = (tr', this', Ok bytes)
    /\ map dg_bytes (datagrams tr') = map dg_bytes (datagrams []) ++ chunks
    /\ Math_ceil_div (len buffer) (_bufferSize small_client - 12)
       = Finite (len chunks)
    /\ length id = 8%nat
    /\ (forall i chunk,
          chunks !! i = Some chunk ->
          exists seq total payload,
            chunk = [x1e; x0f] ++ id ++ [seq; total] ++ payload
            /\ byte_value seq = Z.of_nat i
            /\ byte_value total = len chunks)
    /\ concat (map (drop 12) chunks) = buffer.
Proof.
  intros buffer.
  apply (chunked_message_frames_and_reassembles runtime_ok buffer small_client []).
  - split; [reflexivity|]. intros sock tr. eexists. reflexivity.
  - intros tr. eexists. split; reflexivity.
  - discriminate.
  - reflexivity.
  - vm_compute. discriminate.
Defined.

(** The run of the tests: 27 bytes in datagrams of 16 make seven chunks. *)
Example chunked_message_on_the_wire :
  map (fun d => string_of_list_byte (dg_bytes d))
    (datagrams (run runtime_ok
                  (_sendChunkedStream (Buffer_from "0123456789abcdefghijklmnopq"))
                  small_client []).1.1)
  = [String "030" (String "015" ("11111111" +:+ String "000" (String "007" "0123")));
     String "030" (String "015" ("11111111" +:+ String "001" (String "007" "4567")));
     String "030" (String "015" ("11111111" +:+ String "002" (String "007" "89ab")));
     String "030" (String "015" ("11111111" +:+ String "003" (String "007" "cdef")));
     String "030" (String "015" ("11111111" +:+ String "004" (String "007" "ghij")));
     String "030" (String "015" ("11111111" +:+ String "005" (String "007" "klmn")));
     String "030" (String "015" ("11111111" +:+ String "006" (String "007" "opq")))].
Proof. vm_compute. reflexivity. Qed.

(** ** The server selector *)

Lemma loop_endpoint (o : Oracle) server dataSize buffer :
  forall turns i chunk sendedBytes this tr,
  exists tr' this' r ds,
    run o (_sendChunkedStream_loop turns i dataSize buffer chunk (Some server)
             sendedBytes) this tr = (tr', this', r)
    /\ datagrams tr' = datagrams tr ++ ds
    /\ Forall (fun d => endpoint d = server) ds
    /\ _callCount this' = _callCount this
    /\ servers this' = servers this
    /\ _bufferSize this' = _bufferSize this
    /\ _unsentMessages this' = _unsentMessages this.
Proof.
  induction turns as [|turns IH]; intros i chunk sendedBytes this tr.
  - exists tr, this, (Ok sendedBytes), []. rewrite app_nil_r. by repeat split.
  - cbn [_sendChunkedStream_loop]. cbv zeta. rewrite run_bind.
    set (chunk' := Buffer_copy buffer _ 12 _ _).
    set (piece := Buffer_slice chunk' 0 _).
    destruct (sendChunk_datagram o piece server this tr)
      as (tr1 & this1 & r1 & sock & -> & Hd1 & _ & Hc1 & Hs1 & Hb1 & Hm1 & _).
    destruct r1 as [bytes|e].
    + destruct (IH (i + 1) chunk' (sendedBytes + bytes) this1 tr1)
        as (tr' & this' & r & ds & -> & Hd & Hf & Hc & Hs & Hb & Hm).
      exists tr', this', r,
        (mkDatagram sock piece (port server) (host server) :: ds).
      split; [reflexivity|].
      rewrite Hd, Hd1, <- app_assoc. split; [reflexivity|].
      split; [constructor; [by destruct server|exact Hf]|].
      repeat split; congruence.
    + exists tr1, this1, (Err e),
        [mkDatagram sock piece (port server) (host server)].
      split; [reflexivity|]. split; [exact Hd1|].
      split; [constructor; [by destruct server|constructor]|].
      by repeat split.
Qed.

(** One message, whatever the runtime does: all its datagrams go to the
    server that the selector gave for the value of the call counter at
    the start, and the counter has moved by one; unless the message was
    refused before the selector was asked, and then it is rejected with
    that error, no datagram was sent and the counter has not moved. *)
Lemma sendData_endpoint (o : Oracle) buffer this tr server :
  servers this !! (_callCount this `mod` length (servers this))%nat = Some server ->
  exists tr' this' r ds,
    run o (_sendData buffer) this tr = (tr', this', r)
    /\ datagrams tr' = datagrams tr ++ ds
    /\ Forall (fun d => endpoint d = server) ds
    /\ match refused_before_selector o this tr buffer with
       | None => _callCount this' = S (_callCount this)
       | Some e => r = Err e /\ _callCount this' = _callCount this /\ ds = []
       end
    /\ servers this' = servers this
    /\ _bufferSize this' = _bufferSize this.
Proof.
  intros Hserver. rewrite run_sendData. cbv zeta.
  set (this1 := with_unsentMessages (_unsentMessages this + 1) this).
  assert (Hinner : exists tr' this' r ds,
             run o (if len buffer <=? _bufferSize this
                    then server ← getServer; _sendChunk buffer server
                    else _sendChunkedStream buffer) this1 tr = (tr', this', r)
             /\ datagrams tr' = datagrams tr ++ ds
             /\ Forall (fun d => endpoint d = server) ds
             /\ match refused_before_selector o this tr buffer with
                | None => _callCount this' = S (_callCount this)
                | Some e =>
                    r = Err e /\ _callCount this' = _callCount this /\ ds = []
                end
             /\ servers this' = servers this
             /\ _bufferSize this' = _bufferSize this).
  { unfold refused_before_selector.
    destruct (len buffer <=? _bufferSize this).
    - rewrite run_bind, run_getServer. subst this1. cbn [servers _callCount with_unsentMessages].
      rewrite Hserver.
      match goal with
      | |- context [run o (_sendChunk buffer (Some server)) ?t tr] =>
          destruct (sendChunk_datagram o buffer server t tr)
            as (tr' & this' & r & sock & -> & Hd & _ & Hc & Hs & Hb & _)
      end.
      exists tr', this', r, [mkDatagram sock buffer (port server) (host server)].
      split; [reflexivity|]. split; [exact Hd|].
      split; [constructor; [by destruct server|constructor]|].
      split; [exact Hc|]. by split.
    - unfold _sendChunkedStream. rewrite run_bind. cbn [run].
      change (_bufferSize this1) with (_bufferSize this).
      destruct (Count_gt _ 128).
      { exists tr, this1, (Err (TooBig ((_bufferSize this - 12) * 128))), [].
        rewrite app_nil_r. split; [reflexivity|]. by repeat split. }
      rewrite run_bind. unfold _generateRandomId, await. cbn [run].
      destruct (o _ (RandomBytes 8) tr) as [id|e]; cbn [run].
      2:{ eexists _, this1, (Err e), []. split; [reflexivity|].
          rewrite datagrams_app. simpl. by repeat split. }
      rewrite run_bind, run_getServer. subst this1.
      cbn [servers _callCount with_unsentMessages]. rewrite Hserver.
      destruct (_ <? 0).
      { eexists _, _, (Err (RangeError "size")), []. split; [reflexivity|].
        rewrite datagrams_app. simpl. by repeat split. }
      match goal with
      | |- context [run o (_sendChunkedStream_loop ?n ?i ?d buffer ?c _ ?s) ?t ?tr0] =>
          destruct (loop_endpoint o server d buffer n i c s t tr0)
            as (tr' & this' & r & ds & -> & Hd & Hf & Hc & Hs & Hb & _)
      end.
      exists tr', this', r, ds. split; [reflexivity|].
      rewrite Hd, datagrams_app. simpl. rewrite app_nil_r.
      by repeat split. }
  destruct Hinner as (tr' & this' & r & ds & -> & Hd & Hf & Hc & Hs & Hb).
  destruct r as [n|e].
  - destruct (call_destroyIfNeeded_quiet o
                (with_unsentMessages (_unsentMessages this' - 1) this') tr')
      as (tr'' & this'' & -> & Hq & _ & Hc' & Hs' & _ & _ & Hb' & _).
    exists tr'', this'', (Ok n), ds. split; [reflexivity|].
    rewrite Hq. fields. split; [exact Hd|]. split; [exact Hf|].
    split; [|split; congruence].
    destruct (refused_before_selector o this tr buffer) as [e|].
    + by destruct Hc as [[=] _].
    + congruence.
  - exists tr', (with_unsentMessages (_unsentMessages this' - 1) this'), (Err e), ds.
    by repeat split.
Qed.

(** A message that fits one datagram: one datagram, and the selector has
    moved by one, whatever the runtime does. *)
Lemma sendData_single (o : Oracle) buffer this tr server :
  len buffer <= _bufferSize this ->
  servers this !! (_callCount this `mod` length (servers this))%nat = Some server ->
  exists tr' this' r sock,
    run o (_sendData buffer) this tr = (tr', this', r)
    /\ datagrams tr'
       = datagrams tr ++ [mkDatagram sock buffer (port server) (host server)]
    /\ _callCount this' = S (_callCount this)
    /\ servers this' = servers this
    /\ _bufferSize this' = _bufferSize this.
Proof.
  intros Hfit Hserver. rewrite run_sendData. cbv zeta.
  apply Z.leb_le in Hfit. rewrite Hfit.
  rewrite run_bind, run_getServer.
  cbn [servers _callCount with_unsentMessages]. rewrite Hserver.
  match goal with
  | |- context [run o (_sendChunk buffer (Some server)) ?t tr] =>
      destruct (sendChunk_datagram o buffer server t tr)
        as (tr' & this' & r & sock & -> & Hd & _ & Hc & Hs & Hb & _)
  end.
  destruct r as [n|e].
  - destruct (call_destroyIfNeeded_quiet o
                (with_unsentMessages (_unsentMessages this' - 1) this') tr')
      as (tr'' & this'' & -> & Hq & _ & Hc' & Hs' & _ & _ & Hb' & _).
    exists tr'', this'', (Ok n), sock. split; [reflexivity|].
    fields. rewrite Hq. repeat split; congruence.
  - eexists tr', _, (Err e), sock. split; [reflexivity|]. by repeat split.
Qed.

Lemma send_each_round_robin (o : Oracle) :
  forall buffers this tr,
    servers this <> [] ->
    Forall (fun buffer => len buffer <= _bufferSize this) buffers ->
    exists ds,
      datagrams (send_each o buffers this tr).1 = datagrams tr ++ ds
      /\ map (fun d => Some (endpoint d)) ds
         = map (fun k => servers this !! (k `mod` length (servers this))%nat)
             (seq (_callCount this) (length buffers)).
Proof.
  induction buffers as [|buffer buffers IH]; intros this tr Hservers Hfit.
  - exists []. by rewrite app_nil_r.
  - apply Forall_cons in Hfit as [Hfit1 Hfit].
    destruct (getServer_defined this Hservers) as [server Hserver].
    destruct (sendData_single o buffer this tr server Hfit1 Hserver)
      as (tr' & this' & r & sock & Hrun & Hd & Hc & Hs & Hb).
    cbn [send_each]. rewrite Hrun.
    destruct (IH this' tr') as (ds & Hds & Hmap).
    { by rewrite Hs. }
    { by rewrite Hb. }
    exists (mkDatagram sock buffer (port server) (host server) :: ds).
    rewrite Hds, Hd, <- app_assoc. split; [reflexivity|].
    cbn [map length seq]. rewrite Hmap, Hc, Hs, Hserver.
    by destruct server.
Qed.

(** A chunked message and two plain ones on three servers: the seven
    chunks go to the first server, the next message to the second. *)
Example chunks_share_the_endpoint :
  map dg_address
    (datagrams
       (send_each runtime_ok
          [Buffer_from "0123456789abcdefghijklmnopq"; Buffer_from "b";
           Buffer_from "c"]
          three_server_client []).1)
  = ["10.0.0.1"; "10.0.0.1"; "10.0.0.1"; "10.0.0.1"; "10.0.0.1"; "10.0.0.1";
     "10.0.0.1"; "10.0.0.2"; "10.0.0.3"].
Proof. vm_compute. reflexivity. Qed.

(** ** The level of the named methods *)

(** [level || INFO] keeps every level but 0. *)
Lemma level_or_info (l : GraylogLevelEnum) :
  js_or (js_level l) (js_level INFO)
  = match l with EMERG => js_level INFO | _ => js_level l end.
Proof. by destruct l. Qed.

(** What holds of C8: without [meta], [_log] sends the level that it is
    given, for every level but [EMERG], and [INFO] when it is given none. *)
Lemma log_level_without_meta this timestamp msg level payload :
  Rev1._log_payload this timestamp msg None level = Ok payload ->
  payload !! "level"
  = Some match level with
         | Some EMERG | None => js_level INFO
         | Some l => js_level l
         end.
Proof.
  unfold Rev1._log_payload, payload_message, payload_literal.
  destruct msg as [s|message stack|text|n]; [| | |done].
  - intros [= <-]. rewrite lookup_insert_ne, lookup_insert_eq by done.
    by destruct level as [[]|].
  - destruct (truthy (js_string_opt stack)); intros [= <-];
      rewrite ?lookup_insert_ne, lookup_insert_eq by done;
      by destruct level as [[]|].
  - intros [= <-]. rewrite lookup_insert_ne, lookup_insert_eq by done.
    by destruct level as [[]|].
Qed.

(** C8, at [emergency("msg")] and at [error("msg", {level: 0})].  The
    level 0 is falsy: [level || INFO] replaces it by 6 and
    [if (level) payload.level = level] skips it.  So [emergency] is the
    same program as [info], its payload carries level 6, and a
    [meta.level] of 0 does not override the level 3 of [error]. *)
Theorem emergency_is_sent_at_level_info :
  (forall JSON_members msg meta,
      Rev1.emergency JSON_members msg meta = Rev1.info JSON_members msg meta)
  /\ (forall this timestamp msg,
        exists payload,
          Rev1._log_payload this timestamp (MsgString msg) None (Some EMERG)
            = Ok payload
          /\ payload !! "level" = Some (JsNumber 6))
  /\ (forall this timestamp msg,
        exists payload,
          Rev1._log_payload this timestamp (MsgString msg)
            (Some {[ "level" := JsNumber 0 ]}) (Some ERR) = Ok payload
          /\ payload !! "level" = Some (JsNumber 3)).
Proof.
  split; [reflexivity|]. split; intros this timestamp msg.
  - eexists. split; [reflexivity|]. vm_compute. reflexivity.
  - eexists. split; [reflexivity|]. vm_compute. reflexivity.
Qed.

(** ** Additional fields *)

Lemma payload_additional_lookup (additionalParams : AdditionalFields)
    (payload : Payload) (field : string) :
  payload_additional additionalParams payload !! ("_" +:+ field)
  = match additionalParams !! field with
    | Some v => Some v
    | None => payload !! ("_" +:+ field)
    end.
Proof.
  unfold payload_additional.
  apply (map_fold_weak_ind
           (fun (r : Payload) (m : AdditionalFields) =>
              r !! ("_" +:+ field)
              = match m !! field with
                | Some v => Some v
                | None => payload !! ("_" +:+ field)
                end)).
  - by rewrite lookup_empty.
  - intros i x m r Hi IH.
    destruct (decide (i = field)) as [->|Hne].
    + by rewrite !lookup_insert_eq.
    + rewrite !lookup_insert_ne; [done|done|]. intros [= E]. apply Hne. exact E.
Qed.

(** What holds of C10: a field of [meta] that is not one of the four
    reserved names, nor "id", nor "_id", is in the payload under its
    name with one underscore before it. *)
Lemma additional_field_is_prefixed this timestamp msg meta level payload
    field v :
  Rev1._log_payload this timestamp msg (Some meta) level = Ok payload ->
  meta !! field = Some v ->
  field <> "facility" -> field <> "full_message" -> field <> "level" ->
  field <> "timestamp" -> field <> "id" -> field <> "_id" ->
  payload !! ("_" +:+ field) = Some v.
Proof.
  unfold Rev1._log_payload.
  destruct (payload_message msg _) as [p|]; [|done].
  intros [= <-] Hv H1 H2 H3 H4 H5 H6.
  unfold Rev1.payload_meta, payload_rename_id.
  set (p' := payload_timestamp _ _).
  assert (E : payload_additional
                (delete "timestamp" (delete "level"
                   (delete "full_message" (delete "facility" meta)))) p'
              !! ("_" +:+ field) = Some v).
  { rewrite payload_additional_lookup, !lookup_delete_ne by done. by rewrite Hv. }
  destruct (truthy _); [|exact E].
  rewrite lookup_delete_ne, lookup_insert_ne; [exact E| |].
  - intros [= E']. apply H6. symmetry. exact E'.
  - intros [= E']. apply H5. symmetry. exact E'.
Qed.

(** What holds of C10: an "id" of [meta] that is truthy is sent as
    "__id", and no "_id" is sent. *)
Lemma truthy_id_is_renamed this timestamp msg meta level payload v :
  Rev1._log_payload this timestamp msg (Some meta) level = Ok payload ->
  meta !! "id" = Some v -> truthy v = true ->
  payload !! "__id" = Some v /\ payload !! "_id" = None.
Proof.
  unfold Rev1._log_payload.
  destruct (payload_message msg _) as [p|]; [|done].
  intros [= <-] Hv Ht.
  unfold Rev1.payload_meta, payload_rename_id.
  set (p' := payload_timestamp _ _).
  assert (E : payload_additional
                (delete "timestamp" (delete "level"
                   (delete "full_message" (delete "facility" meta)))) p'
              !! "_id" = Some v).
  { change "_id" with ("_" +:+ "id").
    rewrite payload_additional_lookup, !lookup_delete_ne by done. by rewrite Hv. }
  set (p'' := payload_additional _ p') in *.
  assert (Hp : prop p'' "_id" = v) by (unfold prop; by rewrite E).
  rewrite Hp, Ht.
  split; [|apply lookup_delete_eq].
  rewrite lookup_delete_ne by done. apply lookup_insert_eq.
Qed.

(** C10, at [log("msg", {id: 0})].  The test [if (payload._id)] is a
    test of the value: an id of 0 (or the empty string) is copied to
    "_id" like any other field and stays there; no "__id" is made. *)
Theorem falsy_id_is_sent_as_underscore_id :
  forall this timestamp msg level,
  exists payload,
    Rev1._log_payload this timestamp (MsgString msg)
      (Some {[ "id" := JsNumber 0 ]}) level = Ok payload
    /\ payload !! "_id" = Some (JsNumber 0)
    /\ payload !! "__id" = None.
Proof.
  intros this timestamp msg level.
  eexists. split; [reflexivity|]. vm_compute. split; reflexivity.
Qed.

(** ** Safe mode *)

(** C4, at [info(10n)] (revision 2).  [_log] builds the payload before
    it wraps [send]: [JSON.stringify(msg)] throws for a BigInt, the
    promise of [_log] rejects and with it the promise of [info]; no
    listener of 'err' is called. *)
Theorem named_method_rejects_unserializable_message :
  forall JSON_members (o : Oracle) this tr n,
    run o (Rev2.info JSON_members (MsgBigInt n) None) this tr
    = (tr ++ [Ev DateNow (o _ DateNow tr)], this,
       Err (TypeError "Do not know how to serialize a BigInt")).
Proof. reflexivity. Qed.

(** ** The in-flight counters *)

Lemma run_sendChunk_no_server (o : Oracle) chunk this tr :
  run o (_sendChunk chunk None) this tr =
  let '(tr0, this0, sock) := after_getClient o this tr in
  (tr0, with_unsentChunks (_unsentChunks this0 + 1) this0,
   Err (TypeError "Cannot read property 'port' of undefined")).
Proof.
  unfold _sendChunk. rewrite run_bind, run_getClient.
  by destruct (after_getClient o this tr) as [[tr0 this0] sock].
Qed.

(** [_sendChunk] and the counters: the message counter is not touched;
    the chunk counter is back at its value when the callback has run,
    and one above it when the executor threw. *)
Lemma sendChunk_counters (o : Oracle) chunk server this tr :
  exists tr' this' r,
    run o (_sendChunk chunk server) this tr = (tr', this', r)
    /\ _unsentMessages this' = _unsentMessages this
    /\ _destroyIfNeeded this' = _destroyIfNeeded this
    /\ _bufferSize this' = _bufferSize this
    /\ (_unsentChunks this' = _unsentChunks this
        \/ _unsentChunks this' = _unsentChunks this + 1
           /\ exists e, r = Err e)
    /\ (send_does_not_throw o -> is_Some server ->
        _unsentChunks this' = _unsentChunks this).
Proof.
  destruct (after_getClient_spec o this tr) as (more & sock & Hafter & _).
  destruct server as [server|].
  - rewrite run_sendChunk, Hafter. cbv zeta.
    destruct (o _ (SocketSend sock chunk 0 (len chunk) (port server) (host server))
                (tr ++ more)) as [e|] eqn:E.
    + do 3 eexists. split; [reflexivity|]. fields.
      repeat split; eauto. intros Hno _. rewrite Hno in E. discriminate.
    + do 3 eexists. split; [reflexivity|]. fields.
      repeat split; (left; lia) || (intros; lia) || eauto.
  - rewrite run_sendChunk_no_server, Hafter.
    do 3 eexists. split; [reflexivity|]. fields.
    repeat split; eauto. intros _ [? [=]].
Qed.

Lemma loop_counters (o : Oracle) server dataSize buffer :
  forall turns i chunk sendedBytes this tr,
  exists tr' this' r,
    run o (_sendChunkedStream_loop turns i dataSize buffer chunk server
             sendedBytes) this tr = (tr', this', r)
    /\ _unsentMessages this' = _unsentMessages this
    /\ _destroyIfNeeded this' = _destroyIfNeeded this
    /\ _bufferSize this' = _bufferSize this
    /\ (_unsentChunks this' = _unsentChunks this
        \/ _unsentChunks this' = _unsentChunks this + 1
           /\ exists e, r = Err e)
    /\ (send_does_not_throw o -> is_Some server ->
        _unsentChunks this' = _unsentChunks this).
Proof.
  induction turns as [|turns IH]; intros i chunk sendedBytes this tr.
  - exists tr, this, (Ok sendedBytes). repeat split; auto.
  - cbn [_sendChunkedStream_loop]. cbv zeta. rewrite run_bind.
    set (chunk' := Buffer_copy buffer _ 12 _ _).
    set (piece := Buffer_slice chunk' 0 _).
    destruct (sendChunk_counters o piece server this tr)
      as (tr1 & this1 & r1 & -> & Hm1 & Hd1 & Hb1 & Hc1 & Hn1).
    destruct r1 as [bytes|e].
    + destruct (IH (i + 1) chunk' (sendedBytes + bytes) this1 tr1)
        as (tr' & this' & r & -> & Hm & Hd & Hb & Hc & Hn).
      exists tr', this', r. split; [reflexivity|].
      destruct Hc1 as [Hc1|[_ [e [=]]]].
      split; [congruence|]. split; [congruence|]. split; [congruence|]. split.
      * destruct Hc as [Hc|[Hc He]]; [left|right; split; [|exact He]]; lia.
      * intros Hno Hs. rewrite (Hn Hno Hs). exact Hc1.
    + exists tr1, this1, (Err e). by repeat split.
Qed.

(** [_sendData] and the counters, for every runtime: when the promise
    has settled the message counter has its old value; the chunk counter
    has its old value too if [client.send] did not throw and there is a
    server, and is never lower. *)
Lemma sendData_counters (o : Oracle) buffer this tr :
  exists tr' this' r,
    run o (_sendData buffer) this tr = (tr', this', r)
    /\ _unsentMessages this' = _unsentMessages this
    /\ _unsentChunks this <= _unsentChunks this'
    /\ (send_does_not_throw o -> servers this <> [] ->
        _unsentChunks this' = _unsentChunks this).
Proof.
  rewrite run_sendData. cbv zeta.
  set (this1 := with_unsentMessages (_unsentMessages this + 1) this).
  assert (Hinner : exists tr' this' r,
             run o (if len buffer <=? _bufferSize this
                    then server ← getServer; _sendChunk buffer server
                    else _sendChunkedStream buffer) this1 tr = (tr', this', r)
             /\ _unsentMessages this' = _unsentMessages this + 1
             /\ _unsentChunks this <= _unsentChunks this'
             /\ (send_does_not_throw o -> servers this <> [] ->
                 _unsentChunks this' = _unsentChunks this)).
  { destruct (len buffer <=? _bufferSize this).
    - rewrite run_bind, run_getServer.
      match goal with
      | |- context [run o (_sendChunk buffer ?s) ?t tr] =>
          destruct (sendChunk_counters o buffer s t tr)
            as (tr' & this' & r & -> & Hm & _ & _ & Hc & Hn)
      end.
      subst this1. fields. exists tr', this', r. split; [reflexivity|].
      split; [exact Hm|]. split; [lia|].
      intros Hno Hs. apply Hn; [exact Hno|]. by apply getServer_defined.
    - unfold _sendChunkedStream. rewrite run_bind. cbn [run].
      destruct (Count_gt _ 128).
      { exists tr, this1, (Err (TooBig ((_bufferSize this1 - 12) * 128))).
        subst this1. fields. split; [reflexivity|]. repeat split; auto. lia. }
      rewrite run_bind. unfold _generateRandomId, await. cbn [run].
      destruct (o _ (RandomBytes 8) tr) as [id|e]; cbn [run].
      2:{ eexists _, this1, (Err e). subst this1. fields.
          split; [reflexivity|]. repeat split; auto. lia. }
      rewrite run_bind, run_getServer.
      destruct (_ <? 0).
      { eexists _, _, (Err (RangeError "size")). subst this1.
        split; [reflexivity|]. fields. repeat split; auto; lia. }
      match goal with
      | |- context [run o (_sendChunkedStream_loop ?n ?i ?d buffer ?c ?sv ?s) ?t ?tr0] =>
          destruct (loop_counters o sv d buffer n i c s t tr0)
            as (tr' & this' & r & -> & Hm & _ & _ & Hc & Hn)
      end.
      subst this1. fields. exists tr', this', r. split; [reflexivity|].
      split; [exact Hm|]. split; [lia|].
      intros Hno Hs. apply Hn; [exact Hno|]. by apply getServer_defined. }
  destruct Hinner as (tr' & this' & r & -> & Hm & Hc & Hn).
  destruct r as [n|e].
  - destruct (call_destroyIfNeeded_quiet o
                (with_unsentMessages (_unsentMessages this' - 1) this') tr')
      as (tr'' & this'' & -> & _ & _ & _ & _ & Hm' & Hc' & _).
    exists tr'', this'', (Ok n). split; [reflexivity|]. fields.
    split; [lia|]. split; [lia|]. intros Hno Hs. rewrite Hc'. by apply Hn.
  - eexists tr', _, (Err e). split; [reflexivity|]. fields.
    split; [lia|]. split; [lia|]. exact Hn.
Qed.

(** C6, at a send on the socket of the repository's tests of safe mode,
    whose [send] throws 'Connection error'.  [_sendChunk] has added one
    to [_unsentChunks] before the call and subtracts it in the callback
    only: the exception skips the callback.  The message counter is
    back at 0 (the [finally] of [_sendData]); the chunk counter stays at
    1, and a [close] that follows never settles. *)
Theorem throwing_send_leaks_the_chunk_counter :
  let '(tr, this, r) :=
    run runtime_throwing (_sendData (Buffer_from "msg")) test_client [] in
  r = Err (External "Connection error")
  /\ _unsentMessages this = 0
  /\ _unsentChunks this = 1
  /\ settlements (run runtime_throwing (close 1%nat) this tr).1.1 = [].
Proof. vm_compute. repeat split; reflexivity. Qed.

(** ** After [close] *)

(** C7, at a send that follows a completed [close].  The first message
    opens socket 0; [close] finds the client idle, closes socket 0,
    clears [client] and resolves; the second message is not rejected:
    [getClient] opens socket 1 and the datagram is handed to it. *)
Theorem send_after_close_opens_a_new_socket :
  let '(tr, this, r) :=
    run runtime_ok
      (_ ← _sendData (Buffer_from "a"); _ ← close 1%nat;
       _sendData (Buffer_from "b"))
      test_client [] in
  settlements tr = [(1%nat, Ok tt)]
  /\ closed_sockets tr = [0%nat]
  /\ sockets_created tr = 2%nat
  /\ datagrams tr = [mkDatagram 0%nat (Buffer_from "a") 12201 "127.0.0.1";
                     mkDatagram 1%nat (Buffer_from "b") 12201 "127.0.0.1"]
  /\ r = Ok 1.
Proof. vm_compute. repeat split; reflexivity. Qed.

(** The same for every client without a socket, as [destroy] leaves it:
    under a runtime whose socket takes every datagram, a message that
    fits one datagram is sent on a socket made for it. *)
Lemma closed_client_still_sends (o : Oracle) buffer this tr :
  accepts_datagrams o ->
  client this = None ->
  servers this <> [] ->
  len buffer <= _bufferSize this ->
  exists tr' this' bytes server,
    run o (_sendData buffer) this tr = (tr', this', Ok bytes)
    /\ sockets_created tr' = S (sockets_created tr)
    /\ datagrams tr'
       = datagrams tr
         ++ [mkDatagram (o _ CreateSocket tr) buffer (port server) (host server)].
Proof.
  intros [Hsend Hcb] Hclosed Hservers Hfit.
  destruct (getServer_defined this Hservers) as [server Hserver].
  rewrite run_sendData. cbv zeta. apply Z.leb_le in Hfit. rewrite Hfit.
  rewrite run_bind, run_getServer. fields. rewrite Hserver.
  rewrite run_sendChunk. unfold after_getClient. fields. rewrite Hclosed.
  cbv zeta. rewrite Hsend.
  set (sock := o _ CreateSocket tr).
  set (tr1 := (tr ++ [Ev CreateSocket sock]) ++ _).
  destruct (Hcb sock tr1) as [bytes ->].
  match goal with
  | |- context [run o call_destroyIfNeeded ?t ?tr0] =>
      destruct (call_destroyIfNeeded_quiet o t tr0)
        as (tr'' & this'' & -> & Hq & _ & _ & _ & _ & _ & _ & Hsc & _)
  end.
  exists tr'', this'', bytes, server. split; [reflexivity|]. split.
  - rewrite Hsc. subst tr1. rewrite !sockets_created_app.
    generalize (sockets_created tr). intros n. unfold sockets_created. simpl. lia.
  - rewrite Hq. subst tr1.
    rewrite (datagrams_app (_ ++ _)), datagrams_send, datagrams_app.
    simpl. by rewrite !app_nil_r.
Qed.

(** ** [advance]: a call up to the point where it waits *)

Lemma advance_bind {A B} (o : Oracle) (p : Prog A) (f : A -> Prog B) this tr :
  advance o (p ≫= f) this tr =
  match advance o p this tr with
  | (tr', this', Finished (Ok a)) => advance o (f a) this' tr'
  | (tr', this', Finished (Err e)) => (tr', this', Finished (Err e))
  | (tr', this', Waiting req k) => (tr', this', Waiting req (fun x => k x ≫= f))
  end.
Proof.
  change (p ≫= f) with (bind p f).
  revert this tr; induction p as [a|e|k IH|s k IH|X req k IH]; intros; simpl;
    try reflexivity; try apply IH.
  destruct (suspends req); [reflexivity|apply IH].
Qed.

Lemma advance_try_finally {A} (o : Oracle) (body : Prog A) (cleanup : Prog unit)
    this tr :
  advance o (try_finally body cleanup) this tr =
  match advance o body this tr with
  | (tr', this', Finished (Ok a)) =>
      advance o (cleanup ≫= fun _ => Ret a) this' tr'
  | (tr', this', Finished (Err e)) =>
      advance o (cleanup ≫= fun _ => Throw e) this' tr'
  | (tr', this', Waiting req k) =>
      (tr', this', Waiting req (fun x => try_finally (k x) cleanup))
  end.
Proof.
  revert this tr; induction body as [a|e|k IH|s k IH|X req k IH]; intros; simpl;
    try reflexivity; try apply IH.
  destruct (suspends req); [reflexivity|apply IH].
Qed.

Lemma advance_modify (o : Oracle) (f : Graylog -> Graylog) this tr :
  advance o (modify f) this tr = (tr, f this, Finished (Ok tt)).
Proof. reflexivity. Qed.

(** A call that has come to its end without waiting has run. *)
Lemma advance_finished {A} (o : Oracle) (p : Prog A) this tr tr' this' r :
  advance o p this tr = (tr', this', Finished r) ->
  run o p this tr = (tr', this', r).
Proof.
  revert this tr; induction p as [a|e|k IH|s k IH|X req k IH]; intros this tr;
    simpl.
  - by intros [= <- <- <-].
  - by intros [= <- <- <-].
  - apply IH.
  - apply IH.
  - destruct (suspends req); [discriminate|apply IH].
Qed.

Lemma advance_immediate {A} (o : Oracle) (p : Prog A) this tr :
  immediate p ->
  advance o p this tr
  = (let '(tr', this', r) := run o p this tr in (tr', this', Finished r)).
Proof.
  revert this tr; induction p as [a|e|k IH|s k IH|X req k IH]; intros this tr;
    simpl; try reflexivity.
  - intros H. by apply IH.
  - apply IH.
  - intros [-> H]. by apply IH.
Qed.

Lemma immediate_call_destroyIfNeeded : immediate call_destroyIfNeeded.
Proof.
  intros this. simpl. destruct (_destroyIfNeeded this) as [p|]; [|done].
  intros this'. simpl.
  destruct ((_unsentChunks this' =? 0) && (_unsentMessages this' =? 0)); [|done].
  intros this''. simpl. by destruct (client this'').
Qed.

Lemma advance_getClient (o : Oracle) this tr :
  advance o getClient this tr =
  let '(tr0, this0, sock) := after_getClient o this tr in
  (tr0, this0, Finished (Ok (Some sock))).
Proof. unfold getClient, after_getClient. simpl. by destruct (client this). Qed.

Lemma advance_getServer (o : Oracle) this tr :
  advance o getServer this tr =
  (tr, with_callCount (S (_callCount this)) this,
   Finished (Ok (servers this !! (_callCount this `mod` length (servers this))%nat))).
Proof. reflexivity. Qed.

(** [_sendChunk] up to its callback, and what the callback does with the
    object as it finds it. *)
Lemma advance_sendChunk (o : Oracle) chunk server this tr :
  send_does_not_throw o ->
  exists k,
    advance o (_sendChunk chunk (Some server)) this tr =
    (let '(tr0, this0, sock) := after_getClient o this tr in
     (tr0 ++ [Ev (SocketSend sock chunk 0 (len chunk) (port server) (host server))
                 None],
      with_unsentChunks (_unsentChunks this0 + 1) this0,
      Waiting (SendCallback sock) k))
    /\ forall answer this' tr',
        advance o (k answer) this' tr'
        = (tr', with_unsentChunks (_unsentChunks this' - 1) this',
           Finished match answer with Ok bytes => Ok bytes | Err e => Err e end).
Proof.
  intros Hno. eexists. split.
  - unfold _sendChunk. rewrite advance_bind, advance_getClient.
    destruct (after_getClient o this tr) as [[tr0 this0] sock].
    rewrite advance_bind, advance_modify, advance_bind.
    cbn [advance call suspends]. rewrite Hno. cbn [advance].
    rewrite advance_bind. cbn [advance call suspends]. reflexivity.
  - intros answer this' tr'. cbn beta.
    change (Ret answer ≫= ?f) with (f answer). cbn beta.
    rewrite advance_bind, advance_modify. by destruct answer.
Qed.

(** [_sendData] of a message that fits one datagram, up to the callback
    of its datagram; and what follows the callback. *)
Lemma advance_sendData_single (o : Oracle) buffer server this tr :
  send_does_not_throw o ->
  len buffer <= _bufferSize this ->
  servers this !! (_callCount this `mod` length (servers this))%nat = Some server ->
  exists k,
    advance o (_sendData buffer) this tr =
    (let '(tr0, this0, sock) :=
       after_getClient o
         (with_callCount (S (_callCount this))
            (with_unsentMessages (_unsentMessages this + 1) this)) tr in
     (tr0 ++ [Ev (SocketSend sock buffer 0 (len buffer) (port server) (host server))
                 None],
      with_unsentChunks (_unsentChunks this0 + 1) this0,
      Waiting (SendCallback sock) k))
    /\ forall bytes this' tr',
        advance o (k (Ok bytes)) this' tr'
        = (let '(tr'', this'', _) :=
             run o call_destroyIfNeeded
               (with_unsentMessages (_unsentMessages this' - 1)
                  (with_unsentChunks (_unsentChunks this' - 1) this')) tr' in
           (tr'', this'', Finished (Ok bytes))).
Proof.
  intros Hno Hfit Hserver. apply Z.leb_le in Hfit.
  destruct (advance_sendChunk o buffer server
              (with_callCount (S (_callCount this))
                 (with_unsentMessages (_unsentMessages this + 1) this)) tr Hno)
    as (k & Hk & Hafter).
  eexists. split.
  - unfold _sendData. rewrite advance_bind, advance_try_finally.
    rewrite advance_bind, advance_modify, advance_bind. cbn [advance].
    fields. rewrite Hfit.
    rewrite advance_bind, advance_getServer. fields.
    rewrite Hserver, Hk.
    destruct (after_getClient o _ tr) as [[tr0 this0] sock]. reflexivity.
  - intros bytes this' tr'. cbn beta.
    rewrite advance_bind, advance_try_finally, Hafter.
    rewrite advance_bind, advance_modify. cbn [advance].
    rewrite advance_bind.
    rewrite (advance_immediate o call_destroyIfNeeded)
      by apply immediate_call_destroyIfNeeded.
    fields.
    destruct (call_destroyIfNeeded_quiet o
                (with_unsentMessages (_unsentMessages this' - 1)
                   (with_unsentChunks (_unsentChunks this' - 1) this')) tr')
      as (tr'' & this'' & -> & _).
    reflexivity.
Qed.

(** ** [close] *)

Lemma idle_counters this :
  idle this = true <-> _unsentChunks this = 0 /\ _unsentMessages this = 0.
Proof. unfold idle. rewrite andb_true_iff, !Z.eqb_eq. tauto. Qed.

(** [close] while a close is pending: the promise is rejected on the
    next tick and nothing else happens. *)
Lemma run_close_pending (o : Oracle) p q this tr :
  _destroyIfNeeded this = Some q ->
  run o (close p) this tr
  = (tr ++ [Ev NextTick tt; Ev (Settle p (Err CloseCalledOnce)) tt], this, Ok tt).
Proof.
  intros Hq. unfold close. rewrite run_bind. cbn [run]. rewrite Hq.
  rewrite run_bind, !run_call_unit. by rewrite <- app_assoc.
Qed.

(** [close] when no close is pending: the closure is stored and is
    called on the next tick. *)
Lemma run_close_first (o : Oracle) p this tr :
  _destroyIfNeeded this = None ->
  run o (close p) this tr
  = run o (destroyIfNeeded p) (with_destroyIfNeeded (Some p) this)
      (tr ++ [Ev NextTick tt]).
Proof.
  intros Hnone. unfold close. rewrite run_bind. cbn [run]. rewrite Hnone.
  rewrite run_bind, run_modify, run_bind, run_call_unit.
  by rewrite run_call_destroyIfNeeded.
Qed.

(** C5, at a [close] that follows a completed [close].  A message is
    sent, [close] is called and completes (it closes socket 0), [close]
    is called again.  The second call is not rejected with 'Close was
    already called once': [destroy] has cleared [_destroyIfNeeded]
    together with the socket, the guard of [close] does not see the
    first call, and the promise of the second call resolves. *)
Lemma second_close_after_completion_is_accepted :
  settlements
    (run runtime_ok
       (_ ← _sendData (Buffer_from "a"); _ ← close 1%nat; close 2%nat)
       test_client []).1.1
  = [(1%nat, Ok tt); (2%nat, Ok tt)].
Proof. vm_compute. reflexivity. Qed.

(** The other path of [destroy]: on a client that has no socket the
    first [close] completes too, but [_destroyIfNeeded] is cleared only
    inside [if (this.client)], so it stays set and the second [close]
    is rejected, as the error text says. *)
Example second_close_without_a_socket_is_rejected :
  settlements
    (run runtime_ok (_ ← close 1%nat; close 2%nat) test_client []).1.1
  = [(1%nat, Ok tt); (2%nat, Err CloseCalledOnce)].
Proof. vm_compute. reflexivity. Qed.

(** ** Safe mode, continued: what the wrapper of [_log] does absorb *)

Lemma sendChunk_quiet (o : Oracle) chunk server this tr :
  exists tr' this' r,
    run o (_sendChunk chunk server) this tr = (tr', this', r)
    /\ listener_calls tr' = listener_calls tr
    /\ listeners this' = listeners this.
Proof.
  destruct server as [server|].
  - destruct (sendChunk_datagram o chunk server this tr)
      as (tr' & this' & r & sock & -> & _ & Hl & _ & _ & _ & _ & _ & Hls).
    by exists tr', this', r.
  - rewrite run_sendChunk_no_server.
    destruct (after_getClient_spec o this tr) as (more & sock & -> & _ & Hl & _).
    do 3 eexists. split; [reflexivity|]. fields.
    rewrite listener_calls_app, Hl. by rewrite app_nil_r.
Qed.

Lemma loop_quiet (o : Oracle) server dataSize buffer :
  forall turns i chunk sendedBytes this tr,
  exists tr' this' r,
    run o (_sendChunkedStream_loop turns i dataSize buffer chunk server
             sendedBytes) this tr = (tr', this', r)
    /\ listener_calls tr' = listener_calls tr
    /\ listeners this' = listeners this.
Proof.
  induction turns as [|turns IH]; intros i chunk sendedBytes this tr.
  - by exists tr, this, (Ok sendedBytes).
  - cbn [_sendChunkedStream_loop]. cbv zeta. rewrite run_bind.
    set (chunk' := Buffer_copy buffer _ 12 _ _).
    set (piece := Buffer_slice chunk' 0 _).
    destruct (sendChunk_quiet o piece server this tr)
      as (tr1 & this1 & r1 & -> & Hl1 & Hls1).
    destruct r1 as [bytes|e]; [|by exists tr1, this1, (Err e)].
    destruct (IH (i + 1) chunk' (sendedBytes + bytes) this1 tr1)
      as (tr' & this' & r & -> & Hl & Hls).
    exists tr', this', r. split; [reflexivity|]. split; congruence.
Qed.

Lemma sendData_quiet (o : Oracle) buffer this tr :
  exists tr' this' r,
    run o (_sendData buffer) this tr = (tr', this', r)
    /\ listener_calls tr' = listener_calls tr
    /\ listeners this' = listeners this.
Proof.
  rewrite run_sendData. cbv zeta.
  set (this1 := with_unsentMessages (_unsentMessages this + 1) this).
  assert (Hinner : exists tr' this' r,
             run o (if len buffer <=? _bufferSize this
                    then server ← getServer; _sendChunk buffer server
                    else _sendChunkedStream buffer) this1 tr = (tr', this', r)
             /\ listener_calls tr' = listener_calls tr
             /\ listeners this' = listeners this).
  { destruct (len buffer <=? _bufferSize this).
    - rewrite run_bind, run_getServer.
      match goal with
      | |- context [run o (_sendChunk buffer ?s) ?t tr] =>
          destruct (sendChunk_quiet o buffer s t tr)
            as (tr' & this' & r & -> & Hl & Hls)
      end.
      by exists tr', this', r.
    - unfold _sendChunkedStream. rewrite run_bind. cbn [run].
      destruct (Count_gt _ 128).
      { by exists tr, this1, (Err (TooBig ((_bufferSize this1 - 12) * 128))). }
      rewrite run_bind. unfold _generateRandomId, await. cbn [run].
      destruct (o _ (RandomBytes 8) tr) as [id|e]; cbn [run].
      2:{ eexists _, this1, (Err e). split; [reflexivity|].
          rewrite listener_calls_app. simpl. by rewrite app_nil_r. }
      rewrite run_bind, run_getServer.
      destruct (_ <? 0).
      { eexists _, _, (Err (RangeError "size")). split; [reflexivity|].
        fields. rewrite listener_calls_app. simpl. by rewrite app_nil_r. }
      match goal with
      | |- context [run o (_sendChunkedStream_loop ?n ?i ?d buffer ?c ?sv ?s) ?t ?tr0] =>
          destruct (loop_quiet o sv d buffer n i c s t tr0)
            as (tr' & this' & r & -> & Hl & Hls)
      end.
      exists tr', this', r. split; [reflexivity|].
      rewrite Hl, listener_calls_app. simpl. by rewrite app_nil_r. }
  destruct Hinner as (tr' & this' & r & -> & Hl & Hls).
  destruct r as [n|e].
  - destruct (call_destroyIfNeeded_quiet o
                (with_unsentMessages (_unsentMessages this' - 1) this') tr')
      as (tr'' & this'' & -> & _ & Hl' & _ & _ & _ & _ & _ & _ & Hls').
    exists tr'', this'', (Ok n). split; [reflexivity|]. fields.
    split; congruence.
  - by eexists tr', _, (Err e).
Qed.

Lemma emit_to_calls (o : Oracle) e : forall cbs this tr,
  run o (emit_to cbs e) this tr
  = (tr ++ map (fun cb => Ev (Listener cb e) tt) cbs, this, Ok tt).
Proof.
  induction cbs as [|cb cbs IH]; intros this tr; cbn [emit_to map].
  - by rewrite app_nil_r.
  - rewrite run_bind, run_call_unit, IH. by rewrite <- app_assoc.
Qed.

Lemma listener_calls_emitted e (cbs : list ListenerId) :
  listener_calls (map (fun cb => Ev (Listener cb e) tt) cbs)
  = map (fun cb => (cb, e)) cbs.
Proof.
  induction cbs as [|cb cbs IH]; [done|]. cbn [map].
  change (listener_calls (Ev (Listener cb e) tt :: ?l))
    with ((cb, e) :: listener_calls l).
  by rewrite IH.
Qed.

Section SafeMode.

Variable JSON_members : Payload -> string.

Lemma send_quiet (o : Oracle) payload this tr :
  exists tr' this' r,
    run o (send JSON_members payload) this tr = (tr', this', r)
    /\ listener_calls tr' = listener_calls tr
    /\ listeners this' = listeners this.
Proof.
  unfold send. rewrite run_bind. cbn [run].
  destruct (_ || _).
  - apply sendData_quiet.
  - rewrite run_bind. unfold await. cbn [run].
    destruct (o _ (Deflate _) tr) as [compressedData|e]; cbn [run].
    + destruct (sendData_quiet o compressedData this
                  (tr ++ [Ev (Deflate (Buffer_from (JSON_stringify JSON_members payload)))
                             (Ok compressedData)]))
        as (tr' & this' & r & -> & Hl & Hls).
      exists tr', this', r. split; [reflexivity|].
      rewrite Hl, listener_calls_app. simpl. by rewrite app_nil_r.
    + do 3 eexists. split; [reflexivity|].
      rewrite listener_calls_app. simpl. by rewrite app_nil_r.
Qed.

(** What holds of C4: when the payload can be built (every message but
    a BigInt), a named method of revision 2 never rejects, whatever the
    runtime does.  It resolves to the number of bytes that [send]
    resolved to, and then no listener of 'err' was called; or it
    resolves to [false], and then each registered listener was called
    exactly once, with the error of [send]. *)
Lemma safe_mode_absorbs_send_failures (o : Oracle) msg meta level this tr :
  (forall n, msg <> MsgBigInt n) ->
  exists tr' this' sent,
    run o (Rev2._log JSON_members msg meta level true) this tr
    = (tr', this', Ok sent)
    /\ match sent with
       | Bytes _ => listener_calls tr' = listener_calls tr
       | False_ =>
           exists e,
             listener_calls tr'
             = listener_calls tr ++ map (fun cb => (cb, e)) (listeners this)
       end.
Proof.
  intros Hmsg. unfold Rev2._log. rewrite run_bind. cbn [run].
  rewrite run_bind.
  assert (Hts : exists tr0 timestamp,
             run o (timestamp_or_now meta) this tr = (tr0, this, Ok timestamp)
             /\ listener_calls tr0 = listener_calls tr).
  { unfold timestamp_or_now. destruct (truthy _).
    - by exists tr, (match meta with Some m => prop m "timestamp" | None => JsUndefined end).
    - rewrite run_bind, run_call. cbn [run]. do 2 eexists. split; [reflexivity|].
      rewrite listener_calls_app. simpl. by rewrite app_nil_r. }
  destruct Hts as (tr0 & timestamp & -> & Hl0).
  assert (Hpayload : exists payload,
             Rev2._log_payload this timestamp msg meta level = Ok payload).
  { unfold Rev2._log_payload, payload_message.
    destruct msg as [s|message stack|text|n]; [eauto|..|by destruct (Hmsg n)];
      [|eauto].
    destruct (truthy _); eauto. }
  destruct Hpayload as [payload ->].
  rewrite run_then.
  destruct (send_quiet o payload this tr0) as (tr1 & this1 & r & -> & Hl1 & Hls1).
  destruct r as [bytes|e]; cbn [run].
  - exists tr1, this1, (Bytes bytes). split; [reflexivity|]. congruence.
  - rewrite run_bind. unfold emit_err. rewrite run_bind. cbn [run].
    rewrite emit_to_calls. cbn [run].
    do 3 eexists. split; [reflexivity|]. exists e.
    by rewrite listener_calls_app, listener_calls_emitted, Hl1, Hl0, Hls1.
Qed.

End SafeMode.

(** The run of the tests of safe mode: the socket throws, [log]
    resolves to [false] and the one listener is called once. *)
Example safe_mode_on_a_throwing_socket :
  let '(tr, _, r) :=
    run runtime_throwing
      (_ ← onError 7%nat; Rev2.log names_only (MsgString "msg") None)
      test_client [] in
  r = Ok False_
  /\ listener_calls tr = [(7%nat, External "Connection error")].
Proof. vm_compute. split; reflexivity. Qed.

(** ** Calls that interleave *)

Lemma interleaved_mono {A} (o : Oracle) (p : Prog A)
    (Q1 Q2 : Graylog -> Trace -> Graylog -> Result A -> Prop) :
  (forall resumed tr this r, Q1 resumed tr this r -> Q2 resumed tr this r) ->
  forall resumed this tr,
    interleaved o p Q1 resumed this tr -> interleaved o p Q2 resumed this tr.
Proof.
  intros HQ. induction p as [a|e|k IH|s k IH|X req k IH];
    intros resumed this tr; simpl; auto.
  destruct (suspends req); [|by apply IH].
  intros H x this' tr'. apply IH, H.
Qed.

Lemma interleaved_bind {A B} (o : Oracle) (p : Prog A) (f : A -> Prog B)
    (Q : Graylog -> Trace -> Graylog -> Result B -> Prop) :
  forall resumed this tr,
    interleaved o p
      (fun resumed' tr' this' r =>
         match r with
         | Ok a => interleaved o (f a) Q resumed' this' tr'
         | Err e => Q resumed' tr' this' (Err e)
         end) resumed this tr ->
    interleaved o (p ≫= f) Q resumed this tr.
Proof.
  change (p ≫= f) with (bind p f).
  induction p as [a|e|k IH|s k IH|X req k IH]; intros resumed this tr; simpl;
    auto.
  destruct (suspends req); [|by apply IH].
  intros H x this' tr'. apply IH, H.
Qed.

Lemma interleaved_try_finally {A} (o : Oracle) (body : Prog A)
    (cleanup : Prog unit)
    (Q : Graylog -> Trace -> Graylog -> Result A -> Prop) :
  forall resumed this tr,
    interleaved o body
      (fun resumed' tr' this' r =>
         match r with
         | Ok a => interleaved o (cleanup ≫= fun _ => Ret a) Q resumed' this' tr'
         | Err e =>
             interleaved o (cleanup ≫= fun _ => Throw e) Q resumed' this' tr'
         end) resumed this tr ->
    interleaved o (try_finally body cleanup) Q resumed this tr.
Proof.
  induction body as [a|e|k IH|s k IH|X req k IH]; intros resumed this tr; simpl;
    auto.
  destruct (suspends req); [|by apply IH].
  intros H x this' tr'. apply IH, H.
Qed.

(** A call that does not wait: it ends as its run ends. *)
Lemma interleaved_immediate {A} (o : Oracle) (p : Prog A)
    (Q : Graylog -> Trace -> Graylog -> Result A -> Prop) :
  immediate p ->
  forall resumed this tr,
    (let '(tr', this', r) := run o p this tr in Q resumed tr' this' r) ->
    interleaved o p Q resumed this tr.
Proof.
  induction p as [a|e|k IH|s k IH|X req k IH]; intros Hp resumed this tr; simpl.
  - auto.
  - auto.
  - apply IH, Hp.
  - apply IH, Hp.
  - destruct Hp as [E Hp]. rewrite E. apply IH, Hp.
Qed.

Lemma immediate_getClient : immediate getClient.
Proof. intros this. simpl. by destruct (client this). Qed.

Lemma interleaved_sendChunk (o : Oracle) chunk server resumed this tr :
  _destroyIfNeeded this = _destroyIfNeeded resumed ->
  interleaved o (_sendChunk chunk server) closure_kept resumed this tr.
Proof.
  intros Hkept. unfold _sendChunk. apply interleaved_bind.
  apply interleaved_immediate; [apply immediate_getClient|].
  rewrite run_getClient.
  destruct (after_getClient_spec o this tr) as (more & sock & -> & _).
  destruct server as [server|]; simpl; [|exact Hkept].
  match goal with
  | |- context [o ?X ?req ?t] => destruct (o X req t)
  end; simpl; [exact Hkept|].
  intros answer this' tr'. by destruct answer.
Qed.

Lemma interleaved_loop (o : Oracle) server dataSize buffer :
  forall turns i chunk sendedBytes resumed this tr,
    _destroyIfNeeded this = _destroyIfNeeded resumed ->
    interleaved o
      (_sendChunkedStream_loop turns i dataSize buffer chunk server sendedBytes)
      closure_kept resumed this tr.
Proof.
  induction turns as [|turns IH]; intros i chunk sendedBytes resumed this tr Hkept.
  - exact Hkept.
  - cbn [_sendChunkedStream_loop]. cbv zeta. apply interleaved_bind.
    eapply interleaved_mono; [|by apply interleaved_sendChunk].
    intros resumed' tr' this' [bytes|e] H; [|exact H]. by apply IH.
Qed.

Lemma interleaved_sendChunkedStream (o : Oracle) buffer resumed this tr :
  _destroyIfNeeded this = _destroyIfNeeded resumed ->
  interleaved o (_sendChunkedStream buffer) closure_kept resumed this tr.
Proof.
  intros Hkept. unfold _sendChunkedStream.
  cbn [interleaved mbind Prog_bind bind].
  destruct (Count_gt _ 128); [exact Hkept|].
  unfold _generateRandomId, await. cbn [interleaved bind suspends].
  intros [id|e] this' tr'; cbn [interleaved bind]; [|reflexivity].
  destruct (_ <? 0); [reflexivity|].
  by apply interleaved_loop.
Qed.

(** [_sendData], however it interleaves with other calls: when it has
    succeeded, [drained] holds. *)
Lemma sendData_drains (o : Oracle) buffer this tr :
  interleaved o (_sendData buffer) drained this this tr.
Proof.
  unfold _sendData. apply interleaved_bind, interleaved_try_finally.
  eapply interleaved_mono with (Q1 := closure_kept).
  - intros resumed tr' this' r Hkept. unfold closure_kept in Hkept.
    destruct r as [bytes|e].
    + unfold modify. cbn [interleaved mbind Prog_bind bind].
      apply interleaved_bind.
      apply interleaved_immediate; [apply immediate_call_destroyIfNeeded|].
      rewrite run_call_destroyIfNeeded. fields. rewrite Hkept.
      destruct (_destroyIfNeeded resumed) as [p|] eqn:Hp.
      2:{ simpl. intros ? ? _ Hq. congruence. }
      rewrite run_destroyIfNeeded.
      destruct (idle _) eqn:Hidle.
      * rewrite run_destroy. fields.
        destruct (client this') as [sock|] eqn:Hclient; simpl;
          intros ? q _ Hq _; assert (q = p) as -> by congruence;
          rewrite ?settlements_app, !in_app_iff; simpl; split; auto.
      * simpl. intros ? ? _ _ Hidle'. rewrite Hidle' in Hidle. discriminate.
    + unfold modify. cbn [interleaved mbind Prog_bind bind]. intros ? ? [=].
  - unfold modify. cbn [interleaved mbind Prog_bind bind]. fields.
    destruct (len buffer <=? _bufferSize this).
    + change (interleaved o (getServer ≫= fun server => _sendChunk buffer server)
                closure_kept this
                (with_unsentMessages (_unsentMessages this + 1) this) tr).
      apply interleaved_bind. unfold getServer.
      cbn [interleaved mbind Prog_bind bind].
      by apply interleaved_sendChunk.
    + by apply interleaved_sendChunkedStream.
Qed.

(** A [close] that is called while a message of one datagram waits for
    its callback, step by step: [_sendData] up to the callback, [close]
    up to its tick, the tick, the callback.  The tick finds the chunk
    counter at 1 and does nothing; the callback reports success and the
    rest of [_sendData] closes the socket and resolves the promise of
    [close]. *)
Lemma close_during_a_send (o : Oracle) (this : Graylog) (tr : Trace)
    (p : PromiseId) buffer bytes :
  _destroyIfNeeded this = None ->
  idle this = true ->
  send_does_not_throw o ->
  servers this <> [] ->
  len buffer <= _bufferSize this ->
  exists sock k tr1 this1 k2,
    advance o (_sendData buffer) this tr
      = (tr1, this1, Waiting (SendCallback sock) k)
    /\ advance o (close p) this1 tr1
       = (tr1, with_destroyIfNeeded (Some p) this1, Waiting NextTick k2)
    /\ resume o NextTick k2 tt (with_destroyIfNeeded (Some p) this1) tr1
       = (tr1 ++ [Ev NextTick tt], with_destroyIfNeeded (Some p) this1,
          Finished (Ok tt))
    /\ exists tr' this',
        resume o (SendCallback sock) k (Ok bytes)
          (with_destroyIfNeeded (Some p) this1) (tr1 ++ [Ev NextTick tt])
        = (tr', this', Finished (Ok bytes))
        /\ settlements tr' = settlements tr ++ [(p, Ok tt)]
        /\ closed_sockets tr' = closed_sockets tr ++ [sock]
        /\ client this' = None
        /\ idle this' = true
        /\ _destroyIfNeeded this' = None.
Proof.
  intros Hnone Hidle Hno Hservers Hfit.
    apply idle_counters in Hidle as [Hchunks Hmessages].
  destruct (getServer_defined this Hservers) as [server Hserver].
  destruct (advance_sendData_single o buffer server this tr Hno Hfit Hserver)
    as (k & Hk & Hafter).
  destruct (after_getClient_spec o
              (with_callCount (S (_callCount this))
                 (with_unsentMessages (_unsentMessages this + 1) this)) tr)
    as (more & sock & Hclient & _ & _ & Hms & Hmc).
  rewrite Hclient in Hk.
  eexists sock, k, _, _, _. split; [exact Hk|].
  fields. split; [|split].
  + unfold close. rewrite advance_bind. cbn [advance]. fields. rewrite Hnone.
    rewrite advance_bind, advance_modify, advance_bind.
    cbn [advance call suspends]. reflexivity.
  + unfold resume. cbn beta. change (Ret tt ≫= ?f) with (f tt). cbn beta.
    rewrite (advance_immediate o call_destroyIfNeeded)
      by apply immediate_call_destroyIfNeeded.
    rewrite run_call_destroyIfNeeded. fields.
    rewrite run_destroyIfNeeded. unfold idle. fields.
    destruct (Z.eqb_spec (_unsentChunks this + 1) 0) as [?|_]; [lia|].
    reflexivity.
  + unfold resume. rewrite Hafter. fields.
    rewrite run_call_destroyIfNeeded. fields.
    rewrite run_destroyIfNeeded. unfold idle. fields.
    rewrite Hchunks, Hmessages. cbn [Z.add Z.sub Z.opp Z.eqb andb Z.pos_sub].
    rewrite run_destroy. fields.
    do 2 eexists. split; [reflexivity|]. fields.
    rewrite <- !app_assoc, !settlements_app, !closed_sockets_app, Hms, Hmc.
    repeat split; reflexivity.
Qed.

(** The run of it on the client of the tests. *)
Example close_during_a_send_on_the_test_client :
  exists sock k tr1 this1 k2 tr' this',
    advance runtime_ok (_sendData (Buffer_from "a")) test_client []
    = (tr1, this1, Waiting (SendCallback sock) k)
    /\ advance runtime_ok (close 1%nat) this1 tr1
       = (tr1, with_destroyIfNeeded (Some 1%nat) this1, Waiting NextTick k2)
    /\ resume runtime_ok (SendCallback sock) k (Ok 1)
         (with_destroyIfNeeded (Some 1%nat) this1) (tr1 ++ [Ev NextTick tt])
       = (tr', this', Finished (Ok 1))
    /\ settlements tr' = [(1%nat, Ok tt)]
    /\ closed_sockets tr' = [sock].
Proof.
  destruct (close_during_a_send runtime_ok test_client [] 1%nat
              (Buffer_from "a") 1 eq_refl eq_refl (proj1 runtime_ok_accepts)
              ltac:(discriminate) ltac:(vm_compute; discriminate))
    as (sock & k & tr1 & this1 & k2 & H1 & H2 & _ & tr' & this' & H3 & H4 & H5 & _).
  by exists sock, k, tr1, this1, k2, tr', this'.
Qed.

(** What holds of C5, under every runtime:
    - [close] on a client on which a close is pending rejects its
      promise with 'Close was already called once' on the next tick and
      leaves the object as it was, the pending closure and both
      counters included;
    - [close] on an idle client on which no close is pending resolves
      its promise on the next tick, after closing the socket if there
      is one, and leaves the client without a socket;
    - [close] on a client with a message or a chunk in flight and no
      close pending stays unresolved: after the next tick nothing has
      been settled and no socket closed, the closure is stored and
      nothing else of the object has changed;
    - every [_sendData] that succeeds (of one datagram or chunked,
      whatever other calls do to the object while it waits for zlib,
      for the random id or for a callback) ends with the check of the
      pending close: if a close was pending when its last callback came
      and it leaves both counters at zero, then it has resolved the
      promise of that close and the client has no socket. *)
Theorem close_waits_for_sends_and_is_refused_while_pending
    (o : Oracle) (this : Graylog) (tr : Trace) (p : PromiseId) :
  (forall q,
      _destroyIfNeeded this = Some q ->
      run o (close p) this tr
      = (tr ++ [Ev NextTick tt; Ev (Settle p (Err CloseCalledOnce)) tt],
         this, Ok tt))
  /\ (_destroyIfNeeded this = None ->
      idle this = true ->
      exists tr' this',
        run o (close p) this tr = (tr', this', Ok tt)
        /\ settlements tr' = settlements tr ++ [(p, Ok tt)]
        /\ closed_sockets tr'
           = closed_sockets tr
             ++ match client this with Some sock => [sock] | None => [] end
        /\ client this' = None)
  /\ (_destroyIfNeeded this = None ->
      idle this = false ->
      run o (close p) this tr
      = (tr ++ [Ev NextTick tt], with_destroyIfNeeded (Some p) this, Ok tt))
  /\ (forall buffer, interleaved o (_sendData buffer) drained this this tr).
Proof.
  split; [|split; [|split]].
  - intros q Hq. by apply (run_close_pending o p q).
  - intros Hnone Hidle.
    rewrite run_close_first, run_destroyIfNeeded, run_destroy by done.
    change (idle (with_destroyIfNeeded (Some p) this)) with (idle this).
    rewrite Hidle. fields. destruct (client this) as [sock|] eqn:Hclient.
    + do 2 eexists. split; [reflexivity|].
      rewrite <- !app_assoc, settlements_app, closed_sockets_app. simpl.
      done.
    + do 2 eexists. split; [reflexivity|].
      rewrite <- !app_assoc, settlements_app, closed_sockets_app. simpl.
      fields. done.
  - intros Hnone Hbusy.
    rewrite run_close_first, run_destroyIfNeeded by done.
    change (idle (with_destroyIfNeeded (Some p) this)) with (idle this).
    by rewrite Hbusy.
  - intros buffer. apply sendData_drains.
Qed.

Lemma close_waits_for_sends_and_is_refused_while_pending_witness :
  run runtime_ok (close 2%nat) (with_destroyIfNeeded (Some 1%nat) test_client) []
  = ([] ++ [Ev NextTick tt; Ev (Settle 2%nat (Err CloseCalledOnce)) tt],
     with_destroyIfNeeded (Some 1%nat) test_client, Ok tt)
  /\ (exists tr' this',
        run runtime_ok (close 1%nat) (with_client (Some 0%nat) test_client) []
        = (tr', this', Ok tt)
        /\ settlements tr' = settlements [] ++ [(1%nat, Ok tt)]
        /\ closed_sockets tr'
           = closed_sockets []
             ++ match client (with_client (Some 0%nat) test_client) with
                | Some sock => [sock]
                | None => []
                end
        /\ client this' = None).
Proof.
  split.
  - refine (proj1 (close_waits_for_sends_and_is_refused_while_pending
                     runtime_ok (with_destroyIfNeeded (Some 1%nat) test_client)
                     [] 2%nat) 1%nat _).
    reflexivity.
  - refine (proj1 (proj2 (close_waits_for_sends_and_is_refused_while_pending
                            runtime_ok (with_client (Some 0%nat) test_client)
                            [] 1%nat)) _ _); reflexivity.
Defined.

(** * More of the transport *)

(** ** Observations of a longer trace, continued *)

Lemma callback_bytes_app (tr1 tr2 : Trace) :
  callback_bytes (tr1 ++ tr2) = callback_bytes tr1 ++ callback_bytes tr2.
Proof. apply omap_app. Qed.

Lemma deflated_app (tr1 tr2 : Trace) :
  deflated (tr1 ++ tr2) = deflated tr1 ++ deflated tr2.
Proof. apply omap_app. Qed.

Lemma clock_reads_app (tr1 tr2 : Trace) :
  clock_reads (tr1 ++ tr2) = (clock_reads tr1 + clock_reads tr2)%nat.
Proof. unfold clock_reads. by rewrite List.filter_app, length_app. Qed.

Lemma total_app (l1 l2 : list Z) : total (l1 ++ l2) = total l1 + total l2.
Proof. unfold total. induction l1 as [|x l1 IH]; simpl; lia. Qed.

(** ** One datagram *)

Lemma datagrams_cons_send sock (chunk : Buffer) p a answer (tr : Trace) :
  datagrams (Ev (SocketSend sock chunk 0 (len chunk) p a) answer :: tr)
  = mkDatagram sock chunk p a :: datagrams tr.
Proof.
  change (Ev (SocketSend sock chunk 0 (len chunk) p a) answer :: tr)
    with (([] ++ [Ev (SocketSend sock chunk 0 (len chunk) p a) answer]) ++ tr).
  by rewrite datagrams_app, datagrams_send.
Qed.

Lemma datagrams_cons_other (e : Event) (tr : Trace) :
  datagram_of e = None -> datagrams (e :: tr) = datagrams tr.
Proof. intros E. unfold datagrams. simpl. by rewrite E. Qed.

(** One [_sendChunk], whatever the runtime does: one datagram with the
    bytes of [chunk] if there is a server, on the socket that the client
    has afterwards; a socket is created only if the client had none; the
    callback's byte count is the result. *)
Lemma sendChunk_wire (o : Oracle) chunk server this tr :
  exists more this' r sock,
    run o (_sendChunk chunk server) this tr = (tr ++ more, this', r)
    /\ datagrams more
       = match server with
         | Some server => [mkDatagram sock chunk (port server) (host server)]
         | None => []
         end
    /\ client this' = Some sock
    /\ (forall s, client this = Some s ->
        s = sock /\ sockets_created more = 0%nat)
    /\ (sockets_created more <= 1)%nat
    /\ callback_bytes more = match r with Ok bytes => [bytes] | Err _ => [] end
    /\ (server = None -> exists e, r = Err e)
    /\ deflated more = []
    /\ closed_sockets more = []
    /\ settlements more = [].
Proof.
  destruct server as [server|].
  2:{ rewrite run_sendChunk_no_server. unfold after_getClient.
      destruct (client this) as [sock|] eqn:Hclient.
      - exists [], (with_unsentChunks (_unsentChunks this + 1) this),
          (Err (TypeError "Cannot read property 'port' of undefined")), sock.
        rewrite app_nil_r. fields. repeat split; eauto; congruence.
      - do 3 eexists. exists (o _ CreateSocket tr). split; [reflexivity|].
        fields. repeat split; eauto; done. }
  rewrite run_sendChunk. unfold after_getClient.
  destruct (client this) as [sock|] eqn:Hclient; cbv zeta.
  - destruct (o _ (SocketSend sock chunk 0 (len chunk) (port server) (host server))
                tr) as [e|].
    + do 3 eexists. exists sock. split; [reflexivity|]. fields.
      rewrite datagrams_cons_send. repeat split; auto; congruence.
    + destruct (o _ (SendCallback sock) _) as [bytes|e];
        do 3 eexists; exists sock; (split; [by rewrite <- app_assoc|]); fields;
        simpl app; rewrite datagrams_cons_send;
        repeat split; auto; congruence.
  - set (sock := o _ CreateSocket tr).
    destruct (o _ (SocketSend sock chunk 0 (len chunk) (port server) (host server))
                _) as [e|].
    + do 3 eexists. exists sock. split; [by rewrite <- app_assoc|]. fields.
      simpl app.
      rewrite (datagrams_cons_other (Ev CreateSocket sock) _ eq_refl),
        datagrams_cons_send.
      repeat split; auto; done.
    + destruct (o _ (SendCallback sock) _) as [bytes|e];
        do 3 eexists; exists sock; (split; [by rewrite <- !app_assoc|]); fields;
        simpl app;
        rewrite (datagrams_cons_other (Ev CreateSocket sock) _ eq_refl),
          datagrams_cons_send;
        repeat split; auto; done.
Qed.

(** ** Buffers keep their length *)

Lemma len_Buffer_set (chunk : Buffer) i b : len (Buffer_set chunk i b) = len chunk.
Proof. unfold len, Buffer_set. f_equal. apply length_insert. Qed.

Lemma len_Buffer_copy (source target : Buffer) ts ss se :
  0 <= ts -> 0 <= ss ->
  len (Buffer_copy source target ts ss se) = len target.
Proof.
  intros Hts Hss. unfold Buffer_copy. cbv zeta.
  destruct (Z.leb_spec
              (Z.min (Z.min se (len source) - ss) (len target - ts)) 0)
    as [|Hnb]; [done|].
  set (nb := Z.min _ _) in *.
  unfold len in *. rewrite !length_app, !length_take, !length_drop. lia.
Qed.

Lemma len_Buffer_slice (buf : Buffer) s e : len (Buffer_slice buf s e) <= len buf.
Proof.
  unfold Buffer_slice, len. rewrite length_take, length_drop. lia.
Qed.

(** ** The chunks of one message, whatever the runtime does *)

Lemma loop_wire (o : Oracle) server dataSize buffer :
  forall turns i chunk sendedBytes this tr,
  exists more this' r,
    run o (_sendChunkedStream_loop turns i dataSize buffer chunk server
             sendedBytes) this tr = (tr ++ more, this', r)
    /\ (length (datagrams more) <= turns)%nat
    /\ (forall bytes, r = Ok bytes ->
        length (datagrams more) = turns
        /\ bytes = sendedBytes + total (callback_bytes more))
    /\ (0 <= dataSize -> 0 <= i ->
        Forall (fun d => len (dg_bytes d) <= len chunk) (datagrams more))
    /\ Forall (fun d => client this' = Some (dg_socket d)) (datagrams more)
    /\ (forall s, client this = Some s ->
        client this' = Some s /\ sockets_created more = 0%nat)
    /\ (sockets_created more <= 1)%nat
    /\ deflated more = []
    /\ closed_sockets more = []
    /\ settlements more = [].
Proof.
  induction turns as [|turns IH]; intros i chunk sendedBytes this tr.
  - exists [], this, (Ok sendedBytes). rewrite app_nil_r.
    split; [reflexivity|]. simpl. split; [lia|]. split.
    { intros bytes [= <-]. unfold total. simpl. split; [done|lia]. }
    repeat split; auto.
  - cbn [_sendChunkedStream_loop]. cbv zeta. rewrite run_bind.
    set (chunk' := Buffer_copy buffer _ 12 _ _).
    set (piece := Buffer_slice chunk' 0 _).
    destruct (sendChunk_wire o piece server this tr)
      as (more1 & this1 & r1 & sock & -> & Hd1 & Hc1 & Hs1 & Hn1 & Hb1 & Hnone
          & Hz1 & Hcl1 & Hse1).
    assert (Hpiece : 0 <= dataSize -> 0 <= i -> len piece <= len chunk).
    { intros Hd Hi. subst piece.
      etransitivity; [apply len_Buffer_slice|]. subst chunk'.
      rewrite len_Buffer_copy, len_Buffer_set by nia. lia. }
    assert (Hchunk' : 0 <= dataSize -> 0 <= i -> len chunk' = len chunk).
    { intros Hd Hi. subst chunk'.
      by rewrite len_Buffer_copy, len_Buffer_set by nia. }
    assert (Hsize1 : 0 <= dataSize -> 0 <= i ->
                     Forall (fun d => len (dg_bytes d) <= len chunk)
                       (datagrams more1)).
    { intros Hd Hi. rewrite Hd1. destruct server; constructor; simpl; auto. }
    assert (Hlen1 : (length (datagrams more1) <= 1)%nat).
    { rewrite Hd1. destruct server; simpl; lia. }
    assert (Hsock1 : Forall (fun d => dg_socket d = sock) (datagrams more1)).
    { rewrite Hd1. destruct server; constructor; simpl; auto. }
    destruct r1 as [bytes|e].
    + destruct server as [server|]; [|by destruct (Hnone eq_refl) as [? [=]]].
      destruct (IH (i + 1) chunk' (sendedBytes + bytes) this1 (tr ++ more1))
        as (more2 & this' & r & -> & Hle & Hok & Hsz & Hso & Hcl & Hn & Hz
            & Hclo & Hse).
      destruct (Hcl sock Hc1) as [Hc' Hnone2].
      exists (more1 ++ more2), this', r. rewrite app_assoc.
      split; [reflexivity|].
      rewrite datagrams_app, callback_bytes_app, sockets_created_app,
        deflated_app, closed_sockets_app, settlements_app.
      rewrite Hb1, Hz1, Hcl1, Hse1, Hz, Hclo, Hse, Hnone2.
      rewrite length_app. rewrite Hd1 in *. simpl length.
      split; [lia|]. split.
      { intros b Hb. destruct (Hok b Hb) as [-> ->].
        split; [reflexivity|]. rewrite total_app. unfold total. simpl.
        lia. }
      split.
      { intros Hd Hi. apply Forall_app. split; [by apply Hsize1|].
        rewrite <- (Hchunk' Hd Hi). apply Hsz; lia. }
      split.
      { apply Forall_app. split; [|exact Hso].
        eapply Forall_impl; [exact Hsock1|]. intros d ->. exact Hc'. }
      split.
      { intros s Hs. destruct (Hs1 s Hs) as [-> ->]. by split. }
      split; [lia|]. done.
    + exists more1, this1, (Err e). split; [reflexivity|].
      split; [lia|]. split; [done|]. split; [exact Hsize1|].
      split.
      { eapply Forall_impl; [exact Hsock1|]. intros d ->. exact Hc1. }
      split.
      { intros s Hs. destruct (Hs1 s Hs) as [-> ->]. by split. }
      done.
Qed.

Lemma call_destroyIfNeeded_wire (o : Oracle) this tr :
  exists more this',
    run o call_destroyIfNeeded this tr = (tr ++ more, this', Ok tt)
    /\ datagrams more = []
    /\ sockets_created more = 0%nat
    /\ callback_bytes more = []
    /\ deflated more = []
    /\ _callCount this' = _callCount this.
Proof.
  rewrite run_call_destroyIfNeeded.
  destruct (_destroyIfNeeded this) as [p|].
  2:{ exists [], this. by rewrite app_nil_r. }
  rewrite run_destroyIfNeeded. destruct (idle this).
  2:{ exists [], this. by rewrite app_nil_r. }
  rewrite run_destroy. destruct (client this) as [sock|].
  - do 2 eexists. split; [by rewrite <- app_assoc|]. done.
  - do 2 eexists. split; [reflexivity|]. done.
Qed.

Lemma ceil_div_negative a b :
  0 <= a -> b < 0 -> Count_turns (Math_ceil_div a b) = 0%nat.
Proof.
  intros Ha Hb. unfold Math_ceil_div.
  destruct (Z.eqb_spec b 0) as [|_]; [lia|]. simpl.
  assert (0 <= (- a) / b).
  { rewrite <- (Z.opp_involutive b), Z.div_opp_opp by lia.
    apply Z.div_pos; lia. }
  lia.
Qed.

Lemma len_Buffer_alloc n : 0 <= n -> len (Buffer_alloc n) = n.
Proof. intros Hn. unfold len, Buffer_alloc. rewrite length_replicate. lia. Qed.

(** The case of a rejection before any datagram. *)
Ltac no_datagram :=
  simpl; split; [constructor|]; split; [lia|]; split; [done|];
  split; [constructor|]; split; [by intros s _; split|];
  split; [unfold sockets_created; simpl; lia|done].

(** One message, whatever the runtime does. *)
Lemma sendData_wire (o : Oracle) buffer this tr :
  exists more this' r sock,
    run o (_sendData buffer) this tr = (tr ++ more, this', r)
    /\ Forall (fun d => len (dg_bytes d) <= _bufferSize this) (datagrams more)
    /\ (length (datagrams more) <= datagrams_needed this buffer)%nat
    /\ (forall bytes, r = Ok bytes ->
        length (datagrams more) = datagrams_needed this buffer
        /\ bytes = total (callback_bytes more))
    /\ Forall (fun d => dg_socket d = sock) (datagrams more)
    /\ (forall s, client this = Some s ->
        (datagrams more <> [] -> sock = s) /\ sockets_created more = 0%nat)
    /\ (sockets_created more <= 1)%nat
    /\ deflated more = [].
Proof.
  rewrite run_sendData. cbv zeta.
  set (this1 := with_unsentMessages (_unsentMessages this + 1) this).
  assert (Hinner : exists more this' r sock,
    run o (if len buffer <=? _bufferSize this
           then server ← getServer; _sendChunk buffer server
           else _sendChunkedStream buffer) this1 tr = (tr ++ more, this', r)
    /\ Forall (fun d => len (dg_bytes d) <= _bufferSize this) (datagrams more)
    /\ (length (datagrams more) <= datagrams_needed this buffer)%nat
    /\ (forall bytes, r = Ok bytes ->
        length (datagrams more) = datagrams_needed this buffer
        /\ bytes = total (callback_bytes more))
    /\ Forall (fun d => dg_socket d = sock) (datagrams more)
    /\ (forall s, client this = Some s ->
        (datagrams more <> [] -> sock = s) /\ sockets_created more = 0%nat)
    /\ (sockets_created more <= 1)%nat
    /\ deflated more = []).
  { unfold datagrams_needed.
    destruct (Z.leb_spec (len buffer) (_bufferSize this)) as [Hfit|Hlong].
    - rewrite run_bind, run_getServer.
      match goal with
      | |- context [run o (_sendChunk buffer ?sv) ?t tr] =>
          destruct (sendChunk_wire o buffer sv t tr)
            as (more & this' & r & sock & -> & Hd & Hc & Hs & Hn & Hb & Hnone
                & Hz & _);
          destruct sv as [server|]
      end.
      + exists more, this', r, sock. split; [reflexivity|]. rewrite Hd, Hb.
        split; [by repeat constructor|]. split; [simpl; lia|]. split.
        { intros bytes ->. unfold total. simpl. split; [done|lia]. }
        split; [by repeat constructor|]. split; [|done].
        intros s Hcs. destruct (Hs s Hcs) as [-> ->]. done.
      + destruct (Hnone eq_refl) as [e ->].
        exists more, this', (Err e), sock. split; [reflexivity|]. rewrite Hd.
        split; [constructor|]. split; [simpl; lia|]. split; [done|].
        split; [constructor|]. split; [|done].
        intros s Hcs. destruct (Hs s Hcs) as [-> ->]. done.
    - unfold _sendChunkedStream. rewrite run_bind. cbn [run].
      change (_bufferSize this1) with (_bufferSize this).
      destruct (Count_gt _ 128).
      { exists [], this1, (Err (TooBig ((_bufferSize this - 12) * 128))), 0%nat.
        rewrite app_nil_r. split; [reflexivity|]. no_datagram. }
      rewrite run_bind. unfold _generateRandomId, await. cbn [run].
      destruct (o _ (RandomBytes 8) tr) as [id|e]; cbn [run].
      2:{ eexists _, this1, (Err e), 0%nat. split; [reflexivity|].
          no_datagram. }
      rewrite run_bind, run_getServer.
      destruct (Z.ltb_spec (_bufferSize this) 0) as [Hneg|Hpos].
      { eexists _, _, (Err (RangeError "size")), 0%nat.
        split; [reflexivity|]. no_datagram. }
      set (turns := Count_turns _).
      match goal with
      | |- context [run o (_sendChunkedStream_loop turns ?i ?d buffer ?c ?sv ?s)
                      ?t ?tr0] =>
          destruct (loop_wire o sv d buffer turns i c s t tr0)
            as (more & this' & r & -> & Hle & Hok & Hsz & Hso & Hcl & Hn & Hz
                & _);
          assert (Hlen : len c = _bufferSize this)
            by (rewrite len_Buffer_copy, !len_Buffer_set, len_Buffer_alloc;
                  lia)
      end.
      rewrite Hlen in Hsz. subst this1. fields.
      assert (Hnil : _bufferSize this - 12 < 0 -> datagrams more = []).
      { intros Hd. subst turns.
        rewrite ceil_div_negative in Hle by (pose proof (len_nonneg buffer); lia).
        destruct (datagrams more); [done|simpl in Hle; lia]. }
      exists (Ev (RandomBytes 8) (Ok id) :: more), this', r,
        (match client this' with Some sock => sock | None => 0%nat end).
      split; [by rewrite <- app_assoc|].
      rewrite (datagrams_cons_other (Ev (RandomBytes 8) (Ok id)) _ eq_refl).
      change (callback_bytes (Ev (RandomBytes 8) (Ok id) :: more))
        with (callback_bytes more).
      change (sockets_created (Ev (RandomBytes 8) (Ok id) :: more))
        with (sockets_created more).
      change (deflated (Ev (RandomBytes 8) (Ok id) :: more))
        with (deflated more).
      split.
      { destruct (Z.lt_ge_cases (_bufferSize this - 12) 0) as [Hd|Hd].
        - rewrite (Hnil Hd). constructor.
        - apply Hsz; lia. }
      split; [exact Hle|]. split.
      { intros bytes Hb. destruct (Hok bytes Hb) as [-> ->]. split; [done|lia]. }
      split.
      { eapply Forall_impl; [exact Hso|]. by intros d ->. }
      split; [|done].
      intros s Hs. destruct (Hcl s Hs) as [-> ->]. done. }
  destruct Hinner as (more & this' & r & sock & -> & Hsz & Hle & Hok & Hso & Hcl
                      & Hn & Hz).
  destruct r as [n|e].
  - destruct (call_destroyIfNeeded_wire o
                (with_unsentMessages (_unsentMessages this' - 1) this')
                (tr ++ more))
      as (more2 & this'' & -> & Hd2 & Hs2 & Hb2 & Hz2 & _).
    exists (more ++ more2), this'', (Ok n), sock. rewrite app_assoc.
    split; [reflexivity|].
    rewrite datagrams_app, callback_bytes_app, sockets_created_app,
      deflated_app, Hd2, Hs2, Hb2, Hz2, !app_nil_r, Nat.add_0_r.
    done.
  - by exists more, (with_unsentMessages (_unsentMessages this' - 1) this'),
      (Err e), sock.
Qed.

(** ** What every message keeps to *)

(** X2.  Whatever the runtime does, [_sendData] hands to the socket at
    most as many datagrams as the buffer needs (one if it fits the
    buffer size, the chunk count otherwise); and when its promise
    resolves it has handed over exactly that many: a message that was
    sent in part only is never reported as sent. *)
Theorem resolved_message_was_handed_over_in_full
    (o : Oracle) (buffer : Buffer) (this : Graylog) (tr : Trace) :
  exists more this' r,
    run o (_sendData buffer) this tr = (tr ++ more, this', r)
    /\ match r with
       | Ok _ => length (datagrams more) = datagrams_needed this buffer
       | Err _ => (length (datagrams more) <= datagrams_needed this buffer)%nat
       end.
Proof.
  destruct (sendData_wire o buffer this tr)
    as (more & this' & r & sock & Hrun & _ & Hle & Hok & _).
  exists more, this', r. split; [exact Hrun|].
  destruct r as [bytes|e]; [|exact Hle]. by destruct (Hok bytes eq_refl).
Qed.

(** X3.  The number that [_sendData] resolves to (revision 2) is the sum
    of the byte counts that the callbacks of [client.send] reported for
    the datagrams of this message, whatever the runtime does. *)
Theorem resolved_message_reports_the_bytes_of_its_callbacks
    (o : Oracle) (buffer : Buffer) (this : Graylog) (tr : Trace) :
  exists more this' r,
    run o (_sendData buffer) this tr = (tr ++ more, this', r)
    /\ match r with
       | Ok bytes => bytes = total (callback_bytes more)
       | Err _ => True
       end.
Proof.
  destruct (sendData_wire o buffer this tr)
    as (more & this' & r & sock & Hrun & _ & _ & Hok & _).
  exists more, this', r. split; [exact Hrun|].
  destruct r as [bytes|e]; [|done]. by destruct (Hok bytes eq_refl).
Qed.

(** X4.  The socket is created lazily and shared: whatever the runtime
    does, all the datagrams of one [_sendData] go through one socket;
    if the client has a socket it is that one and none is created;
    otherwise at most one is created. *)
Theorem message_goes_through_one_socket
    (o : Oracle) (buffer : Buffer) (this : Graylog) (tr : Trace) :
  exists more this' r sock,
    run o (_sendData buffer) this tr = (tr ++ more, this', r)
    /\ Forall (fun d => dg_socket d = sock) (datagrams more)
    /\ (forall s, client this = Some s ->
        Forall (fun d => dg_socket d = s) (datagrams more)
        /\ sockets_created more = 0%nat)
    /\ (sockets_created more <= 1)%nat.
Proof.
  destruct (sendData_wire o buffer this tr)
    as (more & this' & r & sock & Hrun & _ & _ & _ & Hso & Hcl & Hn & _).
  exists more, this', r, sock. split; [exact Hrun|]. split; [exact Hso|].
  split; [|exact Hn].
  intros s Hs. destruct (Hcl s Hs) as [Hsock Hnone]. split; [|exact Hnone].
  destruct (datagrams more) as [|d ds] eqn:E; [constructor|].
  by rewrite <- Hsock.
Qed.

(** ** [send]: compression *)

Section SendFacts.

Variable JSON_members : Payload -> string.

Lemma run_send_plain (o : Oracle) payload this tr :
  String.eqb (deflate this) "never"
  || (String.eqb (deflate this) "optimal"
      && (len (Buffer_from (JSON_stringify JSON_members payload))
          <=? _bufferSize this)) = true ->
  run o (send JSON_members payload) this tr
  = run o (_sendData (Buffer_from (JSON_stringify JSON_members payload))) this tr.
Proof. intros H. unfold send. rewrite run_bind. cbn [run]. by rewrite H. Qed.

Lemma run_send_deflate (o : Oracle) payload this tr :
  String.eqb (deflate this) "never"
  || (String.eqb (deflate this) "optimal"
      && (len (Buffer_from (JSON_stringify JSON_members payload))
          <=? _bufferSize this)) = false ->
  run o (send JSON_members payload) this tr
  = let data := Buffer_from (JSON_stringify JSON_members payload) in
    match o _ (Deflate data) tr with
    | Ok compressedData =>
        run o (_sendData compressedData) this
          (tr ++ [Ev (Deflate data) (Ok compressedData)])
    | Err e => (tr ++ [Ev (Deflate data) (Err e)], this, Err e)
    end.
Proof.
  intros H. unfold send. rewrite run_bind. cbn [run]. rewrite H.
  rewrite run_bind. unfold await. cbn [run].
  by destruct (o _ (Deflate _) tr).
Qed.

(** X1.  No datagram is longer than the buffer size: whatever the
    payload, the compression mode and the runtime, every datagram that
    [send] hands to the socket has at most [_bufferSize] bytes. *)
Theorem datagrams_fit_the_buffer_size
    (o : Oracle) (payload : Payload) (this : Graylog) (tr : Trace) :
  exists more this' r,
    run o (send JSON_members payload) this tr = (tr ++ more, this', r)
    /\ Forall (fun d => len (dg_bytes d) <= _bufferSize this) (datagrams more).
Proof.
  destruct (String.eqb (deflate this) "never"
            || (String.eqb (deflate this) "optimal"
                && (len (Buffer_from (JSON_stringify JSON_members payload))
                    <=? _bufferSize this))) eqn:Hmode.
  - rewrite (run_send_plain o payload this tr Hmode).
    destruct (sendData_wire o (Buffer_from (JSON_stringify JSON_members payload))
                this tr) as (more & this' & r & sock & Hrun & Hsz & _).
    by exists more, this', r.
  - rewrite (run_send_deflate o payload this tr Hmode). cbv zeta.
    destruct (o _ (Deflate _) tr) as [compressedData|e].
    + destruct (sendData_wire o compressedData this
                  (tr ++ [Ev (Deflate (Buffer_from
                                         (JSON_stringify JSON_members payload)))
                             (Ok compressedData)]))
        as (more & this' & r & sock & -> & Hsz & _).
      eexists (_ :: more), this', r. split; [by rewrite <- app_assoc|].
      by rewrite (datagrams_cons_other (Ev (Deflate _) _) _ eq_refl).
    + eexists [_], this, (Err e). split; [reflexivity|]. constructor.
Qed.

(** X5.  [send] calls zlib according to the [deflate] option and at most
    once: never for 'never'; for 'optimal' exactly when the JSON text is
    longer than the buffer size; otherwise ('always') every time.  What
    it deflates is the JSON text, and [_sendData] never calls zlib. *)
Theorem compression_follows_the_deflate_option
    (o : Oracle) (payload : Payload) (this : Graylog) (tr : Trace) :
  exists more this' r,
    run o (send JSON_members payload) this tr = (tr ++ more, this', r)
    /\ deflated more
       = if String.eqb (deflate this) "never" then []
         else if String.eqb (deflate this) "optimal"
                 && (len (Buffer_from (JSON_stringify JSON_members payload))
                     <=? _bufferSize this)
              then []
              else [Buffer_from (JSON_stringify JSON_members payload)].
Proof.
  set (data := Buffer_from (JSON_stringify JSON_members payload)).
  destruct (String.eqb (deflate this) "never"
            || (String.eqb (deflate this) "optimal"
                && (len data <=? _bufferSize this))) eqn:Hmode.
  - rewrite (run_send_plain o payload this tr Hmode).
    destruct (sendData_wire o data this tr)
      as (more & this' & r & sock & Hrun & _ & _ & _ & _ & _ & _ & Hz).
    exists more, this', r. split; [exact Hrun|]. rewrite Hz.
    destruct (String.eqb (deflate this) "never"); [done|].
    simpl in Hmode. by rewrite Hmode.
  - rewrite (run_send_deflate o payload this tr Hmode). cbv zeta. fold data.
    apply orb_false_iff in Hmode as [-> ->].
    destruct (o _ (Deflate data) tr) as [compressedData|e].
    + destruct (sendData_wire o compressedData this
                  (tr ++ [Ev (Deflate data) (Ok compressedData)]))
        as (more & this' & r & sock & -> & _ & _ & _ & _ & _ & _ & Hz).
      eexists (_ :: more), this', r. split; [by rewrite <- app_assoc|].
      change (deflated (Ev (Deflate data) (Ok compressedData) :: more))
        with (data :: deflated more).
      by rewrite Hz.
    + by eexists [_], this, (Err e).
Qed.

(** X6.  When zlib fails, [send] rejects with the error of zlib and
    nothing else has happened: the object is as it was (no counter has
    moved, the server selector has not advanced), no socket was created
    and no datagram was handed to one. *)
Theorem failed_compression_sends_nothing
    (o : Oracle) (payload : Payload) (this : Graylog) (tr : Trace)
    (e : Error) :
  deflate this = "always"
  \/ deflate this = "optimal"
     /\ _bufferSize this < len (Buffer_from (JSON_stringify JSON_members payload)) ->
  o _ (Deflate (Buffer_from (JSON_stringify JSON_members payload))) tr = Err e ->
  run o (send JSON_members payload) this tr
  = (tr ++ [Ev (Deflate (Buffer_from (JSON_stringify JSON_members payload)))
              (Err e)],
     this, Err e).
Proof.
  set (data := Buffer_from (JSON_stringify JSON_members payload)).
  intros Hmode Hzlib.
  rewrite run_send_deflate; [cbv zeta; fold data; by rewrite Hzlib|].
  fold data. destruct Hmode as [->|[-> Hlong]]; [reflexivity|].
  apply Z.leb_gt in Hlong. by rewrite Hlong.
Qed.

(** X7.  What is compressed goes out compressed: when zlib gives
    [compressedData] and that fits the buffer size, [send] hands exactly
    one datagram to the socket, its bytes are those of [compressedData]
    (not of the JSON text) and it goes to the server that the selector
    gives, whatever else the runtime does. *)
Theorem compressed_payload_that_fits_is_one_datagram
    (o : Oracle) (payload : Payload) (this : Graylog) (tr : Trace)
    (compressedData : Buffer) (server : HostPort) :
  deflate this = "always"
  \/ deflate this = "optimal"
     /\ _bufferSize this < len (Buffer_from (JSON_stringify JSON_members payload)) ->
  o _ (Deflate (Buffer_from (JSON_stringify JSON_members payload))) tr
  = Ok compressedData ->
  len compressedData <= _bufferSize this ->
  servers this !! (_callCount this `mod` length (servers this))%nat
  = Some server ->
  exists sock,
    datagrams (run o (send JSON_members payload) this tr).1.1
    = datagrams tr
      ++ [mkDatagram sock compressedData (port server) (host server)].
Proof.
  set (data := Buffer_from (JSON_stringify JSON_members payload)).
  intros Hmode Hzlib Hfit Hserver.
  rewrite run_send_deflate.
  2:{ fold data. destruct Hmode as [->|[-> Hlong]]; [reflexivity|].
      apply Z.leb_gt in Hlong. by rewrite Hlong. }
  cbv zeta. fold data. rewrite Hzlib.
  destruct (sendData_single o compressedData this
              (tr ++ [Ev (Deflate data) (Ok compressedData)]) server Hfit Hserver)
    as (tr' & this' & r & sock & -> & Hd & _).
  exists sock. cbn [fst]. rewrite Hd, datagrams_app. simpl.
  by rewrite app_nil_r.
Qed.

End SendFacts.

Lemma failed_compression_sends_nothing_witness :
  run runtime_zlib_failing
    (send names_only (<["short_message" := JsString "hello"]> ∅))
    always_client []
  = ([] ++ [Ev (Deflate
                  (Buffer_from
                     (JSON_stringify names_only
                        (<["short_message" := JsString "hello"]> ∅))))
              (Err (External "zlib"))],
     always_client, Err (External "zlib")).
Proof.
  apply (failed_compression_sends_nothing names_only runtime_zlib_failing
           (<["short_message" := JsString "hello"]> ∅) always_client []
           (External "zlib")).
  - left. reflexivity.
  - reflexivity.
Defined.

Lemma compressed_payload_that_fits_is_one_datagram_witness :
  exists sock,
    datagrams (run runtime_ok
                 (send names_only (<["short_message" := JsString "hello"]> ∅))
                 always_client []).1.1
    = datagrams []
      ++ [mkDatagram sock
            (Buffer_from
               (JSON_stringify names_only
                  (<["short_message" := JsString "hello"]> ∅)))
            (port (mkHostPort "127.0.0.1" 12201))
            (host (mkHostPort "127.0.0.1" 12201))].
Proof.
  apply (compressed_payload_that_fits_is_one_datagram names_only runtime_ok
           (<["short_message" := JsString "hello"]> ∅) always_client []).
  - left. reflexivity.
  - reflexivity.
  - vm_compute. discriminate.
  - reflexivity.
Defined.

(** ** Edges of the configuration *)

Lemma ceil_div_not_positive a b :
  0 <= a -> b < 0 -> exists c, Math_ceil_div a b = Finite c /\ c <= 0.
Proof.
  intros Ha Hb. unfold Math_ceil_div.
  destruct (Z.eqb_spec b 0) as [|_]; [lia|].
  eexists. split; [reflexivity|].
  assert (0 <= (- a) / b).
  { rewrite <- (Z.opp_involutive b), Z.div_opp_opp by lia.
    apply Z.div_pos; lia. }
  lia.
Qed.

(** X8.  A buffer size below 12 leaves no room for the chunk header,
    and the configuration accepts it.  On such a client a message longer
    than the buffer size is dropped without a word: if the random id is
    delivered, the chunk count is not positive, the loop makes no turn,
    and [_sendData] resolves (to 0 bytes) although no datagram was
    handed to a socket and none was created; the server selector has
    moved by one. *)
Theorem buffer_size_below_twelve_drops_long_messages
    (o : Oracle) (buffer : Buffer) (this : Graylog) (tr : Trace)
    (id : Buffer) :
  0 <= _bufferSize this < 12 ->
  _bufferSize this < len buffer ->
  o _ (RandomBytes 8) tr = Ok id ->
  exists more this',
    run o (_sendData buffer) this tr = (tr ++ more, this', Ok 0)
    /\ datagrams more = []
    /\ sockets_created more = 0%nat
    /\ _callCount this' = S (_callCount this).
Proof.
  intros HB Hlong Hid. rewrite run_sendData. cbv zeta.
  destruct (Z.leb_spec (len buffer) (_bufferSize this)) as [?|_]; [lia|].
  unfold _sendChunkedStream. rewrite run_bind. cbn [run]. fields.
  destruct (ceil_div_not_positive (len buffer) (_bufferSize this - 12))
    as (c & -> & Hc); [apply len_nonneg|lia|].
  cbn [Count_gt Count_turns Count_u8].
  destruct (Z.ltb_spec 128 c) as [?|_]; [lia|].
  rewrite run_bind. unfold _generateRandomId, await. cbn [run].
  rewrite Hid. cbn [run]. rewrite run_bind, run_getServer.
  destruct (Z.ltb_spec (_bufferSize this) 0) as [?|_]; [lia|].
  replace (Z.to_nat c) with 0%nat by lia.
  cbn [_sendChunkedStream_loop run].
  match goal with
  | |- context [run o call_destroyIfNeeded ?t ?tr0] =>
      destruct (call_destroyIfNeeded_wire o t tr0)
        as (more & this' & -> & Hd & Hs & _ & _ & Hc')
  end.
  exists (Ev (RandomBytes 8) (Ok id) :: more), this'.
  split; [by rewrite <- app_assoc|].
  rewrite (datagrams_cons_other (Ev (RandomBytes 8) (Ok id)) _ eq_refl).
  change (sockets_created (Ev (RandomBytes 8) (Ok id) :: more))
    with (sockets_created more).
  by rewrite Hc'.
Qed.

Lemma buffer_size_below_twelve_drops_long_messages_witness :
  exists more this',
    run runtime_ok (_sendData (Buffer_from "0123456789")) tiny_client []
    = ([] ++ more, this', Ok 0)
    /\ datagrams more = []
    /\ sockets_created more = 0%nat
    /\ _callCount this' = S (_callCount tiny_client).
Proof.
  apply (buffer_size_below_twelve_drops_long_messages runtime_ok
           (Buffer_from "0123456789") tiny_client []
           (replicate 8 "1"%byte)).
  - simpl. lia.
  - vm_compute. reflexivity.
  - reflexivity.
Defined.

(** X9.  With an empty list of servers [getServer] gives [undefined],
    and a message that fits one datagram is rejected with the TypeError
    of reading [server.port], whatever the runtime does: no datagram is
    handed to a socket, the message counter is back at its value, and
    the chunk counter is left one too high, because the exception comes
    after the increment. *)
Theorem empty_server_list_rejects_and_leaks
    (o : Oracle) (buffer : Buffer) (this : Graylog) (tr : Trace) :
  servers this = [] ->
  len buffer <= _bufferSize this ->
  exists more this' what,
    run o (_sendData buffer) this tr = (tr ++ more, this', Err (TypeError what))
    /\ datagrams more = []
    /\ _callCount this' = S (_callCount this)
    /\ _unsentMessages this' = _unsentMessages this
    /\ _unsentChunks this' = _unsentChunks this + 1.
Proof.
  intros Hservers Hfit. rewrite run_sendData. cbv zeta.
  apply Z.leb_le in Hfit. rewrite Hfit.
  rewrite run_bind, run_getServer. fields. rewrite Hservers.
  change ([] !! _) with (@None HostPort).
  rewrite run_sendChunk_no_server. unfold after_getClient. fields.
  destruct (client this) as [sock|].
  - eexists [], _, _. rewrite app_nil_r. split; [reflexivity|]. fields.
    repeat split; lia.
  - eexists [_], _, _. split; [reflexivity|]. fields.
    repeat split; lia.
Qed.

Lemma empty_server_list_rejects_and_leaks_witness :
  exists more this' what,
    run runtime_ok (_sendData (Buffer_from "msg")) no_server_client []
    = ([] ++ more, this', Err (TypeError what))
    /\ datagrams more = []
    /\ _callCount this' = S (_callCount no_server_client)
    /\ _unsentMessages this' = _unsentMessages no_server_client
    /\ _unsentChunks this' = _unsentChunks no_server_client + 1.
Proof.
  apply (empty_server_list_rejects_and_leaks runtime_ok (Buffer_from "msg")
           no_server_client []).
  - reflexivity.
  - vm_compute. discriminate.
Defined.

(** ** The constructor *)

Lemma string_or_nonempty (x : option string) (y : string) :
  y <> "" -> string_or x y <> "".
Proof.
  intros Hy. unfold string_or. destruct x as [s|]; [|done].
  by destruct (String.eqb_spec s "").
Qed.

(** X10.  What the constructor gives when it does not fail, field by
    field: the buffer size is the configured one if that is positive
    and 1400 otherwise (for a missing size, for 0 and for a negative
    one), so it is positive; [deflate] is the configured mode, or
    'optimal' if none (or the empty string) was given, and is one of the
    three modes; the hostname is the configured one or the one of the
    operating system, the facility the configured one or 'Node.js'; the
    servers are those of the configuration, an empty list included;
    there is no socket, both counters and the call counter are zero, no
    close is pending and there is no listener. *)
Theorem constructor_sets_the_defaults
    (os_hostname : string) (config : GraylogConfig) (this : Graylog) :
  constructor os_hostname config = Ok this ->
  _bufferSize this
  = match cfg_bufferSize config with
    | Some bufferSize => if 0 <? bufferSize then bufferSize else 1400
    | None => 1400
    end
  /\ 0 < _bufferSize this
  /\ deflate this = string_or (cfg_deflate config) "optimal"
  /\ (deflate this = "optimal" \/ deflate this = "always"
      \/ deflate this = "never")
  /\ hostname this = string_or (cfg_hostname config) os_hostname
  /\ facility this = string_or (cfg_facility config) "Node.js"
  /\ facility this <> ""
  /\ servers this = cfg_servers config
  /\ client this = None
  /\ _unsentMessages this = 0
  /\ _unsentChunks this = 0
  /\ _callCount this = 0%nat
  /\ _destroyIfNeeded this = None
  /\ listeners this = [].
Proof.
  unfold constructor.
  destruct (String.eqb_spec (string_or (cfg_deflate config) "optimal") "optimal")
    as [Ho|Ho];
    [|destruct (String.eqb_spec (string_or (cfg_deflate config) "optimal")
                 "always") as [Ha|Ha];
      [|destruct (String.eqb_spec (string_or (cfg_deflate config) "optimal")
                   "never") as [Hn|Hn]; [|done]]];
    simpl; intros [= <-]; fields.
  all: split; [reflexivity|].
  all: split; [destruct (cfg_bufferSize config) as [b|];
               [destruct (Z.ltb_spec 0 b)|]; lia|].
  all: split; [reflexivity|].
  all: split; [auto|].
  all: split; [reflexivity|].
  all: split; [reflexivity|].
  all: split; [by apply string_or_nonempty|].
  all: by repeat split.
Qed.

Lemma constructor_sets_the_defaults_witness :
  _bufferSize test_client
  = match cfg_bufferSize (mkConfig test_servers None None (Some (-5)) (Some ""))
    with
    | Some bufferSize => if 0 <? bufferSize then bufferSize else 1400
    | None => 1400
    end
  /\ 0 < _bufferSize test_client
  /\ deflate test_client
     = string_or
         (cfg_deflate (mkConfig test_servers None None (Some (-5)) (Some "")))
         "optimal"
  /\ (deflate test_client = "optimal" \/ deflate test_client = "always"
      \/ deflate test_client = "never")
  /\ hostname test_client
     = string_or
         (cfg_hostname (mkConfig test_servers None None (Some (-5)) (Some "")))
         "mock-host"
  /\ facility test_client
     = string_or
         (cfg_facility (mkConfig test_servers None None (Some (-5)) (Some "")))
         "Node.js"
  /\ facility test_client <> ""
  /\ servers test_client
     = cfg_servers (mkConfig test_servers None None (Some (-5)) (Some ""))
  /\ client test_client = None
  /\ _unsentMessages test_client = 0
  /\ _unsentChunks test_client = 0
  /\ _callCount test_client = 0%nat
  /\ _destroyIfNeeded test_client = None
  /\ listeners test_client = [].
Proof.
  apply (constructor_sets_the_defaults "mock-host"
           (mkConfig test_servers None None (Some (-5)) (Some "")) test_client).
  reflexivity.
Defined.

(** The size that the configuration left out, or gave as -5, is 1400 on
    the client. *)
Example constructor_defaults_the_buffer_size :
  constructor "mock-host" (mkConfig test_servers None None None None)
  = Ok test_client
  /\ constructor "mock-host" (mkConfig test_servers None None (Some (-5)) None)
     = Ok test_client
  /\ _bufferSize test_client = 1400.
Proof. by repeat split. Qed.

(** X11.  The constructor fails exactly for a [deflate] option that is
    given, is not the empty string and is none of 'optimal', 'always'
    and 'never'; the error names the value.  (An empty string counts as
    missing and gives 'optimal'.) *)
Theorem constructor_rejects_exactly_an_unknown_deflate
    (os_hostname : string) (config : GraylogConfig) (e : Error) :
  constructor os_hostname config = Err e
  <-> exists mode,
        cfg_deflate config = Some mode
        /\ mode <> "" /\ mode <> "optimal" /\ mode <> "always"
        /\ mode <> "never"
        /\ e = DeflateOption mode.
Proof.
  unfold constructor, string_or.
  destruct (cfg_deflate config) as [mode|].
  2:{ simpl. split; [done|]. by intros (mode & [=] & _). }
  destruct (String.eqb_spec mode "") as [->|Hempty].
  { simpl. split; [done|]. intros (mode & [= <-] & H & _). done. }
  destruct (String.eqb_spec mode "optimal") as [->|Ho].
  { simpl. split; [done|]. intros (mode & [= <-] & _ & H & _). done. }
  destruct (String.eqb_spec mode "always") as [->|Ha].
  { simpl. split; [done|]. intros (mode & [= <-] & _ & _ & H & _). done. }
  destruct (String.eqb_spec mode "never") as [->|Hn].
  { simpl. split; [done|]. intros (mode & [= <-] & _ & _ & _ & H & _). done. }
  simpl. split.
  - intros [= <-]. by exists mode.
  - intros (mode' & [= <-] & _ & _ & _ & _ & ->). reflexivity.
Qed.

(** * More of the payload *)

(** ** Reading the payload that [_log] builds *)

Lemma set_if_truthy_lookup name v (payload : Payload) k :
  set_if_truthy name v payload !! k
  = if decide (name = k) then (if truthy v then Some v else payload !! k)
    else payload !! k.
Proof.
  unfold set_if_truthy. destruct (truthy v); [|by destruct (decide _)].
  destruct (decide (name = k)) as [->|Hne].
  - apply lookup_insert_eq.
  - by apply lookup_insert_ne.
Qed.

Lemma payload_timestamp_other timestamp (payload : Payload) k :
  k <> "timestamp" -> payload_timestamp timestamp payload !! k = payload !! k.
Proof.
  intros Hk. unfold payload_timestamp. destruct (truthy timestamp); [|done].
  by apply lookup_insert_ne.
Qed.

(** A name that is no "_" + field is out of reach of the additional
    fields. *)
Lemma payload_additional_plain (additionalParams : AdditionalFields)
    (payload : Payload) k :
  (forall field, k <> "_" +:+ field) ->
  payload_additional additionalParams payload !! k = payload !! k.
Proof.
  intros Hk. unfold payload_additional.
  apply (map_fold_weak_ind
           (fun (r : Payload) (m : AdditionalFields) => r !! k = payload !! k)).
  - reflexivity.
  - intros field v m r _ IH. rewrite lookup_insert_ne; [exact IH|].
    intros E. by apply (Hk field).
Qed.

Lemma payload_rename_id_other (payload : Payload) k :
  k <> "_id" -> k <> "__id" -> payload_rename_id payload !! k = payload !! k.
Proof.
  intros H1 H2. unfold payload_rename_id. destruct (truthy _); [|done].
  by rewrite lookup_delete_ne, lookup_insert_ne.
Qed.

Lemma plain_name (c : ascii) (rest field : string) :
  c <> "_"%char -> String c rest <> "_" +:+ field.
Proof. intros Hc [= E _]. by apply Hc. Qed.

Lemma payload_message_other msg (payload payload' : Payload) k :
  payload_message msg payload = Ok payload' ->
  k <> "short_message" -> k <> "full_message" -> k <> "_file" ->
  k <> "_line" ->
  payload' !! k = payload !! k.
Proof.
  intros Hm H1 H2 H3 H4. unfold payload_message in Hm.
  destruct msg as [s|message stack|text|n]; [| |
    |done]; try (injection Hm as <-; by rewrite lookup_insert_ne).
  destruct (truthy _); injection Hm as <-.
  - by rewrite !lookup_insert_ne.
  - by rewrite lookup_insert_ne.
Qed.

Lemma payload_message_short msg (payload payload' : Payload) :
  payload_message msg payload = Ok payload' ->
  payload' !! "short_message"
  = match msg with
    | MsgString s => Some (JsString s)
    | MsgError message _ => Some (JsString message)
    | MsgJson text => Some (js_string_opt text)
    | MsgBigInt _ => None
    end.
Proof.
  intros Hm. unfold payload_message in Hm.
  destruct msg as [s|message stack|text|n]; [| |
    |done]; try (injection Hm as <-; by rewrite lookup_insert_eq).
  destruct (truthy _); injection Hm as <-.
  - do 3 (rewrite lookup_insert_ne by done). by rewrite lookup_insert_eq.
  - by rewrite lookup_insert_eq.
Qed.

Lemma payload_message_fails msg (payload : Payload) e :
  payload_message msg payload = Err e -> exists n, msg = MsgBigInt n.
Proof.
  unfold payload_message. destruct msg as [s|message stack|text|n];
    [done| |done|by exists n].
  by destruct (truthy _).
Qed.

(** The names that [meta] cannot reach in either revision: those that
    are no "_" + field and none of the reserved names. *)
Lemma payload_meta_plain (meta : option AdditionalFields) (payload : Payload) k :
  (forall field, k <> "_" +:+ field) ->
  k <> "facility" -> k <> "full_message" -> k <> "level" ->
  k <> "hostname" -> k <> "timestamp" ->
  Rev1.payload_meta meta payload !! k = payload !! k
  /\ Rev2.payload_meta meta payload !! k = payload !! k.
Proof.
  intros Hk H1 H2 H3 H4 H5.
  assert (Hid : k <> "_id") by apply (Hk "id").
  assert (Hid2 : k <> "__id") by apply (Hk "_id").
  destruct meta as [meta|]; [|done].
  unfold Rev1.payload_meta, Rev2.payload_meta. cbv zeta.
  rewrite !payload_rename_id_other, !payload_additional_plain,
    !payload_timestamp_other, !set_if_truthy_lookup by done.
  by repeat (destruct (decide _) as [?|_]; [congruence|]).
Qed.

Lemma payload_literal_lookups this timestamp level :
  payload_literal this timestamp level !! "version" = Some (JsString "1.1")
  /\ payload_literal this timestamp level !! "host"
     = Some (JsString (hostname this))
  /\ payload_literal this timestamp level !! "facility"
     = Some (JsString (facility this))
  /\ payload_literal this timestamp level !! "timestamp" = Some timestamp
  /\ payload_literal this timestamp level !! "full_message" = None
  /\ forall field, payload_literal this timestamp level !! ("_" +:+ field) = None.
Proof.
  unfold payload_literal. repeat split; by simplify_map_eq.
Qed.

(** X12.  The fields that GELF requires of the client are out of reach
    of [meta], in both revisions: whatever [meta] holds (also fields
    named "version", "host" or "short_message", which go out with an
    underscore), the payload has version "1.1", the client's hostname
    as "host", and the short message that [msg] gives. *)
Theorem mandatory_fields_are_out_of_reach_of_meta
    (this : Graylog) (timestamp : JsValue) (msg : Msg)
    (meta : option AdditionalFields) (level : option GraylogLevelEnum)
    (payload : Payload) :
  Rev1._log_payload this timestamp msg meta level = Ok payload
  \/ Rev2._log_payload this timestamp msg meta level = Ok payload ->
  payload !! "version" = Some (JsString "1.1")
  /\ payload !! "host" = Some (JsString (hostname this))
  /\ payload !! "short_message"
     = match msg with
       | MsgString s => Some (JsString s)
       | MsgError message _ => Some (JsString message)
       | MsgJson text => Some (js_string_opt text)
       | MsgBigInt _ => None
       end.
Proof.
  destruct (payload_literal_lookups this timestamp level)
    as (Hv & Hh & _).
  unfold Rev1._log_payload, Rev2._log_payload.
  destruct (payload_message msg _) as [p|e] eqn:Hm; [|by intros [|]].
  pose proof (payload_message_short _ _ _ Hm) as Hs.
  pose proof (payload_message_other _ _ _ "version" Hm) as Hv'.
  pose proof (payload_message_other _ _ _ "host" Hm) as Hh'.
  rewrite Hv in Hv' by done. rewrite Hh in Hh' by done.
  intros H.
  assert (Hplain : forall k,
             (forall field, k <> "_" +:+ field) ->
             k <> "facility" -> k <> "full_message" -> k <> "level" ->
             k <> "hostname" -> k <> "timestamp" ->
             payload !! k = p !! k).
  { intros k Hk H1 H2 H3 H4 H5.
    destruct H as [[= <-]|[= <-]]; by apply payload_meta_plain. }
  rewrite !Hplain; try done; try (intros field; by apply plain_name).
  by rewrite Hv', Hh', Hs.
Qed.

Lemma mandatory_fields_are_out_of_reach_of_meta_witness :
  exists payload,
    Rev2._log_payload test_client (JsNumber 1) (MsgString "hello")
      (Some (<["version" := JsString "9"]> (<["host" := JsString "x"]> ∅)))
      (Some INFO) = Ok payload
    /\ payload !! "version" = Some (JsString "1.1")
    /\ payload !! "host" = Some (JsString (hostname test_client))
    /\ payload !! "short_message"
       = match MsgString "hello" with
         | MsgString s => Some (JsString s)
         | MsgError message _ => Some (JsString message)
         | MsgJson text => Some (js_string_opt text)
         | MsgBigInt _ => None
         end.
Proof.
  eexists. split; [reflexivity|].
  apply (mandatory_fields_are_out_of_reach_of_meta test_client (JsNumber 1)
           (MsgString "hello")
           (Some (<["version" := JsString "9"]> (<["host" := JsString "x"]> ∅)))
           (Some INFO)).
  right. reflexivity.
Defined.

Lemma payload_before_meta_has_no_additional_field this timestamp msg level
    (payload : Payload) field :
  payload_message msg (payload_literal this timestamp level) = Ok payload ->
  field <> "file" -> field <> "line" ->
  payload !! ("_" +:+ field) = None.
Proof.
  intros Hm Hf Hl.
  rewrite (payload_message_other _ _ _ ("_" +:+ field) Hm).
  - apply payload_literal_lookups.
  - by intros [=].
  - by intros [=].
  - intros [= E]. by apply Hf.
  - intros [= E]. by apply Hl.
Qed.

(** X13.  Whatever [msg] and [meta] are, the payload that [_log] hands
    to [send] has no "_id" with a truthy value, in both revisions: a
    truthy one has been moved to "__id" (also over a "__id" that an
    "_id" of [meta] had set), and what may stay is a falsy one. *)
Theorem payload_never_carries_a_truthy_underscore_id
    (this : Graylog) (timestamp : JsValue) (msg : Msg)
    (meta : option AdditionalFields) (level : option GraylogLevelEnum)
    (payload : Payload) :
  Rev1._log_payload this timestamp msg meta level = Ok payload
  \/ Rev2._log_payload this timestamp msg meta level = Ok payload ->
  truthy (prop payload "_id") = false.
Proof.
  unfold Rev1._log_payload, Rev2._log_payload.
  destruct (payload_message msg _) as [p|e] eqn:Hm; [|by intros [|]].
  assert (Hrename : forall q : Payload,
             truthy (prop (payload_rename_id q) "_id") = false).
  { intros q. unfold payload_rename_id.
    destruct (truthy (prop q "_id")) eqn:E; [|exact E].
    unfold prop. by rewrite lookup_delete_eq. }
  destruct meta as [meta|].
  - intros [[= <-]|[= <-]]; apply Hrename.
  - assert (Hnone : p !! "_id" = None).
    { change "_id" with ("_" +:+ "id").
      by apply (payload_before_meta_has_no_additional_field this timestamp msg
                  level). }
    intros [[= <-]|[= <-]]; unfold prop; simpl; by rewrite Hnone.
Qed.

Lemma payload_never_carries_a_truthy_underscore_id_witness :
  exists payload,
    Rev1._log_payload test_client (JsNumber 1) (MsgString "hello")
      (Some (<["id" := JsString "a"]> (<["_id" := JsString "b"]> ∅)))
      (Some INFO) = Ok payload
    /\ truthy (prop payload "_id") = false.
Proof.
  eexists. split; [reflexivity|].
  apply (payload_never_carries_a_truthy_underscore_id test_client (JsNumber 1)
           (MsgString "hello")
           (Some (<["id" := JsString "a"]> (<["_id" := JsString "b"]> ∅)))
           (Some INFO)).
  left. reflexivity.
Defined.

Lemma reserved_setters_keep_additional (payload : Payload) field
    facility full_message level hostname timestamp :
  payload_timestamp timestamp
    (set_if_truthy "hostname" hostname
       (set_if_truthy "level" level
          (set_if_truthy "full_message" full_message
             (set_if_truthy "facility" facility payload))))
    !! ("_" +:+ field)
  = payload !! ("_" +:+ field)
  /\ payload_timestamp timestamp
       (set_if_truthy "level" level
          (set_if_truthy "full_message" full_message
             (set_if_truthy "facility" facility payload)))
       !! ("_" +:+ field)
     = payload !! ("_" +:+ field).
Proof.
  rewrite !payload_timestamp_other, !set_if_truthy_lookup by (by intros [=]).
  by repeat (destruct (decide _) as [[=]|_]).
Qed.

(** X14.  A reserved name of [meta] is never sent as an additional
    field: the payload has no "_facility", "_full_message", "_level" or
    "_timestamp", and in revision 2 no "_hostname" either (in revision 1
    "hostname" is no reserved name). *)
Theorem reserved_names_are_never_sent_with_an_underscore
    (this : Graylog) (timestamp : JsValue) (msg : Msg)
    (meta : option AdditionalFields) (level : option GraylogLevelEnum)
    (payload : Payload) (name : string) :
  Rev1._log_payload this timestamp msg meta level = Ok payload
  /\ In name ["facility"; "full_message"; "level"; "timestamp"]
  \/ Rev2._log_payload this timestamp msg meta level = Ok payload
     /\ In name ["facility"; "full_message"; "level"; "hostname"; "timestamp"] ->
  payload !! ("_" +:+ name) = None.
Proof.
  unfold Rev1._log_payload, Rev2._log_payload.
  destruct (payload_message msg _) as [p|e] eqn:Hm; [|by intros [[? _]|[? _]]].
  assert (Hp : forall field, field <> "file" -> field <> "line" ->
                 p !! ("_" +:+ field) = None).
  { intros field. by apply (payload_before_meta_has_no_additional_field this
                              timestamp msg level). }
  destruct meta as [meta|].
  2:{ intros [[[= <-] Hin]|[[= <-] Hin]]; simpl in Hin; apply Hp;
        intros ->; intuition discriminate. }
  intros [[[= <-] Hin]|[[= <-] Hin]].
  - unfold Rev1.payload_meta. cbv zeta.
    rewrite payload_rename_id_other.
    2,3: intros [= E]; cbv [String.app] in E; subst name; simpl in Hin;
      intuition discriminate.
    rewrite payload_additional_lookup.
    replace (_ !! name) with (@None JsValue).
    2:{ symmetry. simpl in Hin.
        destruct Hin as [<-|[<-|[<-|[<-|[]]]]]; by simplify_map_eq. }
    rewrite (proj2 (reserved_setters_keep_additional p name _ _ _ JsUndefined _)).
    apply Hp; intros ->; simpl in Hin; intuition discriminate.
  - unfold Rev2.payload_meta. cbv zeta.
    rewrite payload_rename_id_other.
    2,3: intros [= E]; cbv [String.app] in E; subst name; simpl in Hin;
      intuition discriminate.
    rewrite payload_additional_lookup.
    replace (_ !! name) with (@None JsValue).
    2:{ symmetry. simpl in Hin.
        destruct Hin as [<-|[<-|[<-|[<-|[<-|[]]]]]]; by simplify_map_eq. }
    rewrite (proj1 (reserved_setters_keep_additional p name _ _ _ _ _)).
    apply Hp; intros ->; simpl in Hin; intuition discriminate.
Qed.

Lemma reserved_names_are_never_sent_with_an_underscore_witness :
  exists payload,
    Rev2._log_payload test_client (JsNumber 1) (MsgString "hello")
      (Some (<["hostname" := JsString "h"]> (<["level" := JsNumber 3]> ∅)))
      (Some INFO) = Ok payload
    /\ payload !! ("_" +:+ "hostname") = None.
Proof.
  eexists. split; [reflexivity|].
  apply (reserved_names_are_never_sent_with_an_underscore test_client
           (JsNumber 1) (MsgString "hello")
           (Some (<["hostname" := JsString "h"]> (<["level" := JsNumber 3]> ∅)))
           (Some INFO)).
  right. split; [reflexivity|]. simpl. auto.
Defined.

(** ** The two revisions *)

(** X15.  The two revisions build the same payload for every call whose
    [meta] has no "hostname": the only difference between their [_log]
    payloads is that revision 2 treats "hostname" as a reserved name. *)
Theorem revisions_agree_without_a_hostname_in_meta
    (this : Graylog) (timestamp : JsValue) (msg : Msg)
    (meta : option AdditionalFields) (level : option GraylogLevelEnum) :
  (forall fields, meta = Some fields -> fields !! "hostname" = None) ->
  Rev2._log_payload this timestamp msg meta level
  = Rev1._log_payload this timestamp msg meta level.
Proof.
  intros Hno. unfold Rev1._log_payload, Rev2._log_payload.
  destruct (payload_message msg _) as [p|e]; [|done].
  destruct meta as [fields|]; [|done].
  specialize (Hno fields eq_refl).
  unfold Rev1.payload_meta, Rev2.payload_meta. cbv zeta.
  assert (Hprop : prop fields "hostname" = JsUndefined)
    by (unfold prop; by rewrite Hno).
  rewrite Hprop.
  change (set_if_truthy "hostname" JsUndefined ?x) with x.
  rewrite (delete_id (delete "level" _) "hostname"); [done|].
  by rewrite !lookup_delete_ne.
Qed.

Lemma revisions_agree_without_a_hostname_in_meta_witness :
  Rev2._log_payload test_client (JsNumber 1) (MsgString "hello")
    (Some (<["cool" := JsString "beans"]> ∅)) (Some INFO)
  = Rev1._log_payload test_client (JsNumber 1) (MsgString "hello")
      (Some (<["cool" := JsString "beans"]> ∅)) (Some INFO).
Proof.
  apply (revisions_agree_without_a_hostname_in_meta test_client (JsNumber 1)
           (MsgString "hello") (Some (<["cool" := JsString "beans"]> ∅))
           (Some INFO)).
  intros fields [= <-]. reflexivity.
Defined.

(** X16.  A truthy "hostname" of [meta] goes out as the additional
    field "_hostname" in revision 1 and as the field "hostname" in
    revision 2; neither revision writes it to "host". *)
Theorem meta_hostname_in_the_two_revisions
    (this : Graylog) (timestamp : JsValue) (msg : Msg)
    (fields : AdditionalFields) (level : option GraylogLevelEnum)
    (v : JsValue) (payload1 payload2 : Payload) :
  fields !! "hostname" = Some v ->
  truthy v = true ->
  Rev1._log_payload this timestamp msg (Some fields) level = Ok payload1 ->
  Rev2._log_payload this timestamp msg (Some fields) level = Ok payload2 ->
  payload1 !! "_hostname" = Some v
  /\ payload1 !! "hostname" = None
  /\ payload2 !! "hostname" = Some v
  /\ payload1 !! "host" = Some (JsString (hostname this))
  /\ payload2 !! "host" = Some (JsString (hostname this)).
Proof.
  intros Hv Ht H1 H2.
  split.
  { change "_hostname" with ("_" +:+ "hostname").
    by apply (additional_field_is_prefixed this timestamp msg fields level). }
  unfold Rev1._log_payload in H1. unfold Rev2._log_payload in H2.
  destruct (payload_message msg _) as [p|e] eqn:Hm; [|done].
  injection H1 as <-. injection H2 as <-.
  assert (Hp : p !! "hostname" = None).
  { rewrite (payload_message_other _ _ _ "hostname" Hm) by done.
    unfold payload_literal. by simplify_map_eq. }
  assert (Hh : p !! "host" = Some (JsString (hostname this))).
  { rewrite (payload_message_other _ _ _ "host" Hm) by done.
    apply payload_literal_lookups. }
  assert (Hprop : prop fields "hostname" = v) by (unfold prop; by rewrite Hv).
  unfold Rev1.payload_meta, Rev2.payload_meta. cbv zeta.
  rewrite !payload_rename_id_other by done.
  rewrite !payload_additional_plain by (intros field; by apply plain_name).
  rewrite !payload_timestamp_other by done.
  rewrite !set_if_truthy_lookup, Hprop, Ht.
  repeat case_decide; try discriminate; done.
Qed.

Lemma meta_hostname_in_the_two_revisions_witness :
  exists payload1 payload2,
    Rev1._log_payload test_client (JsNumber 1) (MsgString "hello")
      (Some (<["hostname" := JsString "h"]> ∅)) (Some INFO) = Ok payload1
    /\ Rev2._log_payload test_client (JsNumber 1) (MsgString "hello")
         (Some (<["hostname" := JsString "h"]> ∅)) (Some INFO) = Ok payload2
    /\ payload1 !! "_hostname" = Some (JsString "h")
    /\ payload1 !! "hostname" = None
    /\ payload2 !! "hostname" = Some (JsString "h")
    /\ payload1 !! "host" = Some (JsString (hostname test_client))
    /\ payload2 !! "host" = Some (JsString (hostname test_client)).
Proof.
  do 2 eexists. split; [reflexivity|]. split; [reflexivity|].
  apply (meta_hostname_in_the_two_revisions test_client (JsNumber 1)
           (MsgString "hello") (<["hostname" := JsString "h"]> ∅) (Some INFO)
           (JsString "h")); reflexivity.
Defined.

(** ** The fields that [meta] may set *)

Lemma payload_timestamp_self timestamp (payload : Payload) :
  payload_timestamp timestamp payload !! "timestamp"
  = if truthy timestamp
    then Some match timestamp with
              | JsDate ms => JsNumber (inject_Z ms / inject_Z 1000)%Q
              | _ => timestamp
              end
    else payload !! "timestamp".
Proof.
  unfold payload_timestamp. destruct (truthy timestamp); [|done].
  apply lookup_insert_eq.
Qed.

Lemma payload_message_full msg (payload payload' : Payload) :
  payload_message msg payload = Ok payload' ->
  payload' !! "full_message"
  = match msg with
    | MsgError _ (Some stack) =>
        if String.eqb stack "" then payload !! "full_message"
        else Some (JsString stack)
    | _ => payload !! "full_message"
    end.
Proof.
  intros Hm. unfold payload_message in Hm.
  destruct msg as [s|message [stack|]|text|n]; [| | | |done];
    try (injection Hm as <-; by rewrite lookup_insert_ne).
  simpl in Hm. destruct (String.eqb stack ""); simpl in Hm;
    injection Hm as <-.
  - by rewrite lookup_insert_ne.
  - do 2 (rewrite lookup_insert_ne by done). by rewrite lookup_insert_eq.
Qed.

(** X17.  The timestamp of the payload, in both revisions: a truthy
    [meta.timestamp] is sent, a [Date] as its milliseconds divided by
    1000 and anything else as it is, and the clock is not read;
    otherwise (no [meta], no timestamp, or a falsy one such as 0) the
    clock is read once and its milliseconds divided by 1000 are sent. *)
Theorem timestamp_is_the_given_one_or_the_clock
    (o : Oracle) (this : Graylog) (tr tr' : Trace) (msg : Msg)
    (meta : option AdditionalFields) (level : option GraylogLevelEnum)
    (timestamp : JsValue) (payload : Payload) :
  run o (timestamp_or_now meta) this tr = (tr', this, Ok timestamp) ->
  Rev1._log_payload this timestamp msg meta level = Ok payload
  \/ Rev2._log_payload this timestamp msg meta level = Ok payload ->
  if truthy (meta_prop meta "timestamp")
  then tr' = tr
       /\ payload !! "timestamp"
          = Some match meta_prop meta "timestamp" with
                 | JsDate ms => JsNumber (inject_Z ms / inject_Z 1000)%Q
                 | given => given
                 end
  else tr' = tr ++ [Ev DateNow (o _ DateNow tr)]
       /\ payload !! "timestamp"
          = Some (JsNumber (inject_Z (o _ DateNow tr) / inject_Z 1000)%Q).
Proof.
  intros Hrun Hpayload.
  assert (Hts : payload !! "timestamp"
                = if truthy (meta_prop meta "timestamp")
                  then Some match meta_prop meta "timestamp" with
                            | JsDate ms =>
                                JsNumber (inject_Z ms / inject_Z 1000)%Q
                            | given => given
                            end
                  else Some timestamp).
  { unfold Rev1._log_payload, Rev2._log_payload in Hpayload.
    destruct (payload_message msg _) as [p|e] eqn:Hm; [|by destruct Hpayload].
    assert (Hp : p !! "timestamp" = Some timestamp).
    { rewrite (payload_message_other _ _ _ "timestamp" Hm) by done.
      apply payload_literal_lookups. }
    destruct meta as [fields|].
    - destruct Hpayload as [[= <-]|[= <-]];
        unfold Rev1.payload_meta, Rev2.payload_meta; cbv zeta;
        rewrite payload_rename_id_other by done;
        rewrite payload_additional_plain by (intros field; by apply plain_name);
        rewrite payload_timestamp_self, !set_if_truthy_lookup;
        repeat case_decide; try discriminate; rewrite Hp; cbn [meta_prop];
        by destruct (prop fields "timestamp").
    - by destruct Hpayload as [[= <-]|[= <-]]. }
  rewrite Hts. unfold timestamp_or_now in Hrun.
  change (match meta with
          | Some meta0 => prop meta0 "timestamp"
          | None => JsUndefined
          end) with (meta_prop meta "timestamp") in Hrun.
  destruct (truthy (meta_prop meta "timestamp")).
  - simpl in Hrun. by injection Hrun as <- _.
  - rewrite run_bind, run_call in Hrun. simpl in Hrun.
    by injection Hrun as <- <-.
Qed.

Lemma timestamp_is_the_given_one_or_the_clock_witness :
  exists payload,
    Rev2._log_payload test_client
      (JsNumber (inject_Z 1586254830000 / inject_Z 1000)%Q)
      (MsgString "hello") (Some (<["timestamp" := JsNumber 0]> ∅)) (Some INFO)
    = Ok payload
    /\ (if truthy (meta_prop (Some (<["timestamp" := JsNumber 0]> ∅)) "timestamp")
        then [Ev DateNow 1586254830000] = []
             /\ payload !! "timestamp"
                = Some match meta_prop (Some (<["timestamp" := JsNumber 0]> ∅))
                               "timestamp" with
                       | JsDate ms => JsNumber (inject_Z ms / inject_Z 1000)%Q
                       | given => given
                       end
        else [Ev DateNow 1586254830000]
             = [] ++ [Ev DateNow (runtime_ok _ DateNow [])]
             /\ payload !! "timestamp"
                = Some (JsNumber
                          (inject_Z (runtime_ok _ DateNow []) / inject_Z 1000)%Q)).
Proof.
  eexists. split; [reflexivity|].
  apply (timestamp_is_the_given_one_or_the_clock runtime_ok test_client []
           [Ev DateNow 1586254830000] (MsgString "hello")
           (Some (<["timestamp" := JsNumber 0]> ∅)) (Some INFO)
           (JsNumber (inject_Z 1586254830000 / inject_Z 1000)%Q)).
  - reflexivity.
  - right. reflexivity.
Defined.

(** X18.  Per message, [meta] replaces the client's facility and the
    long message, in both revisions and whatever the other fields of
    [meta] are: "facility" is [meta.facility] if that is truthy and the
    facility of the client otherwise; "full_message" is
    [meta.full_message] if that is truthy, otherwise the stack of an
    [Error] that has one, otherwise absent. *)
Theorem meta_overrides_facility_and_full_message
    (this : Graylog) (timestamp : JsValue) (msg : Msg)
    (meta : option AdditionalFields) (level : option GraylogLevelEnum)
    (payload : Payload) :
  Rev1._log_payload this timestamp msg meta level = Ok payload
  \/ Rev2._log_payload this timestamp msg meta level = Ok payload ->
  payload !! "facility"
  = Some (js_or (meta_prop meta "facility") (JsString (facility this)))
  /\ payload !! "full_message"
     = if truthy (meta_prop meta "full_message")
       then Some (meta_prop meta "full_message")
       else match msg with
            | MsgError _ (Some stack) =>
                if String.eqb stack "" then None else Some (JsString stack)
            | _ => None
            end.
Proof.
  unfold Rev1._log_payload, Rev2._log_payload.
  destruct (payload_message msg _) as [p|e] eqn:Hm; [|by intros [|]].
  assert (Hf : p !! "facility" = Some (JsString (facility this))).
  { rewrite (payload_message_other _ _ _ "facility" Hm) by done.
    apply payload_literal_lookups. }
  assert (Hfull : p !! "full_message"
                  = match msg with
                    | MsgError _ (Some stack) =>
                        if String.eqb stack "" then None
                        else Some (JsString stack)
                    | _ => None
                    end).
  { rewrite (payload_message_full _ _ _ Hm).
    destruct (payload_literal_lookups this timestamp level)
      as (_ & _ & _ & _ & -> & _).
    reflexivity. }
  destruct meta as [fields|].
  - intros [[= <-]|[= <-]];
      unfold Rev1.payload_meta, Rev2.payload_meta; cbv zeta;
      rewrite !payload_rename_id_other by done;
      rewrite !payload_additional_plain by (intros field; by apply plain_name);
      rewrite !payload_timestamp_other by done;
      rewrite !set_if_truthy_lookup;
      repeat case_decide; try discriminate; rewrite Hf, Hfull;
      cbn [meta_prop]; unfold js_or;
      by destruct (truthy (prop fields "facility")),
           (truthy (prop fields "full_message")).
  - intros [[= <-]|[= <-]]; by rewrite Hf, Hfull.
Qed.

Lemma meta_overrides_facility_and_full_message_witness :
  exists payload,
    Rev2._log_payload test_client (JsNumber 1)
      (MsgError "boom" (Some "Error: boom"))
      (Some (<["facility" := JsString "app.js"]> ∅)) (Some ERR) = Ok payload
    /\ payload !! "facility"
       = Some (js_or (meta_prop (Some (<["facility" := JsString "app.js"]> ∅))
                        "facility")
                 (JsString (facility test_client)))
    /\ payload !! "full_message"
       = if truthy (meta_prop (Some (<["facility" := JsString "app.js"]> ∅))
                      "full_message")
         then Some (meta_prop (Some (<["facility" := JsString "app.js"]> ∅))
                      "full_message")
         else match MsgError "boom" (Some "Error: boom") with
              | MsgError _ (Some stack) =>
                  if String.eqb stack "" then None else Some (JsString stack)
              | _ => None
              end.
Proof.
  eexists. split; [reflexivity|].
  apply (meta_overrides_facility_and_full_message test_client (JsNumber 1)
           (MsgError "boom" (Some "Error: boom"))
           (Some (<["facility" := JsString "app.js"]> ∅)) (Some ERR)).
  right. reflexivity.
Defined.

(** ** The file and the line of an [Error] *)

Lemma substring_nothing (n : nat) (s : string) : substring n 0 s = "".
Proof.
  revert n. induction s as [|c s IH]; intros [|n]; simpl; auto.
Qed.

Lemma substr_no_length (s : string) start length :
  length <= 0 -> substr s start length = "".
Proof.
  intros Hl. unfold substr. cbv zeta.
  set (size := Z.of_nat (String.length s)).
  assert (0 <= size) by (subst size; lia).
  match goal with
  | |- substring _ (Z.to_nat ?n) _ = _ =>
      replace (Z.to_nat n) with 0%nat
        by (destruct (Z.ltb_spec start 0); lia)
  end.
  apply substring_nothing.
Qed.

(** X19.  The file and the line that [_log] reads off an [Error]: when
    the first line of the stack has no closing parenthesis (so for a
    stack that opens with "Error: message", as those of V8 do), the
    text between the parentheses is empty, and the payload gets "_file"
    as the empty string and "_line" as [undefined], in both revisions,
    unless [meta] sets the fields "file" or "line" itself. *)
Theorem stack_without_parenthesis_gives_an_empty_file
    (this : Graylog) (timestamp : JsValue) (message stack : string)
    (meta : option AdditionalFields) (level : option GraylogLevelEnum)
    (payload : Payload) :
  stack <> "" ->
  indexOf ")"%char (default "" (head (split "010"%char stack))) = -1 ->
  (forall fields, meta = Some fields ->
     fields !! "file" = None /\ fields !! "line" = None) ->
  Rev1._log_payload this timestamp (MsgError message (Some stack)) meta level
  = Ok payload
  \/ Rev2._log_payload this timestamp (MsgError message (Some stack)) meta level
     = Ok payload ->
  payload !! "_file" = Some (JsString "")
  /\ payload !! "_line" = Some JsUndefined.
Proof.
  intros Hstack Hparen Hmeta.
  unfold Rev1._log_payload, Rev2._log_payload, payload_message.
  cbn [js_string_opt truthy default].
  destruct (String.eqb_spec stack "") as [|_]; [done|]. cbn [negb]. cbv zeta.
  change (id stack) with stack.
  rewrite Hparen, substr_no_length by lia.
  change (split ":" "") with [""]. cbn [lookup list_lookup js_string_opt].
  set (p := <["_line":=_]> _).
  assert (Hfile : p !! "_file" = Some (JsString ""))
    by (subst p; by simplify_map_eq).
  assert (Hline : p !! "_line" = Some JsUndefined)
    by (subst p; by simplify_map_eq).
  destruct meta as [fields|].
  2:{ by intros [[= <-]|[= <-]]. }
  destruct (Hmeta fields eq_refl) as [Hf Hl].
  change "_file" with ("_" +:+ "file"). change "_line" with ("_" +:+ "line").
  intros [[= <-]|[= <-]];
    unfold Rev1.payload_meta, Rev2.payload_meta; cbv zeta;
    rewrite !payload_rename_id_other by (by intros [=]);
    rewrite !payload_additional_lookup, !lookup_delete_ne, Hf, Hl by done.
  - by rewrite !(proj2 (reserved_setters_keep_additional p _ _ _ _ JsUndefined _)).
  - by rewrite !(proj1 (reserved_setters_keep_additional p _ _ _ _ _ _)).
Qed.

Lemma stack_without_parenthesis_gives_an_empty_file_witness :
  exists payload,
    Rev2._log_payload test_client (JsNumber 1)
      (MsgError "boom"
         (Some ("Error: boom" +:+ String "010" "    at f (/app/index.js:10:5)")))
      None (Some ERR) = Ok payload
    /\ payload !! "_file" = Some (JsString "")
    /\ payload !! "_line" = Some JsUndefined.
Proof.
  eexists. split; [reflexivity|].
  apply (stack_without_parenthesis_gives_an_empty_file test_client (JsNumber 1)
           "boom"
           ("Error: boom" +:+ String "010" "    at f (/app/index.js:10:5)")
           None (Some ERR)).
  - discriminate.
  - reflexivity.
  - discriminate.
  - right. reflexivity.
Defined.

(** * More of the listeners and of [close] *)

(** X20.  The function that [onError(cb)] returns undoes the
    registration: after [onError(cb)] and a call of that function the
    object is as it was, whatever listeners it had; if [cb] was
    registered twice, one call takes out one registration only.
    Neither call asks anything of the runtime. *)
Theorem remover_undoes_the_registration
    (o : Oracle) (cb : ListenerId) (this : Graylog) (tr : Trace) :
  run o (onError cb;; removeListener cb) this tr = (tr, this, Ok tt)
  /\ run o (onError cb;; onError cb;; removeListener cb) this tr
     = run o (onError cb) this tr.
Proof.
  split.
  - rewrite run_bind. unfold onError, removeListener. rewrite !run_modify.
    fields. rewrite rev_unit. simpl. rewrite Nat.eqb_refl, rev_involutive.
    by destruct this.
  - unfold onError, removeListener.
    rewrite run_bind, run_modify, run_bind, !run_modify.
    fields. rewrite !rev_unit. simpl. rewrite Nat.eqb_refl.
    change (cb :: rev (listeners this)) with (rev [cb] ++ rev (listeners this)).
    by rewrite <- rev_app_distr, rev_involutive.
Qed.

(** X21.  [close] on a client that has no socket (none was created yet,
    or an earlier [close] has released it) and no message in flight:
    the promise resolves on the next tick, but [destroy] finds no socket
    and so does not clear [_destroyIfNeeded], which stays set.  The next
    message is still sent, on a socket made for it; when its send has
    completed the stale check runs, closes that socket and leaves the
    client without one. *)
Theorem close_without_a_socket_stays_armed
    (o : Oracle) (this : Graylog) (tr : Trace) (p : PromiseId)
    (buffer : Buffer) :
  client this = None ->
  _destroyIfNeeded this = None ->
  idle this = true ->
  accepts_datagrams o ->
  servers this <> [] ->
  len buffer <= _bufferSize this ->
  exists tr1 tr2 this2 bytes sock,
    run o (close p) this tr = (tr1, with_destroyIfNeeded (Some p) this, Ok tt)
    /\ settlements tr1 = settlements tr ++ [(p, Ok tt)]
    /\ closed_sockets tr1 = closed_sockets tr
    /\ run o (_sendData buffer) (with_destroyIfNeeded (Some p) this) tr1
       = (tr2, this2, Ok bytes)
    /\ length (datagrams tr2) = S (length (datagrams tr1))
    /\ closed_sockets tr2 = closed_sockets tr1 ++ [sock]
    /\ client this2 = None.
Proof.
  intros Hclient Hnone Hidle [Hsend Hcb] Hservers Hfit.
  rewrite run_close_first, run_destroyIfNeeded, run_destroy by done.
  change (idle (with_destroyIfNeeded (Some p) this)) with (idle this).
  rewrite Hidle. fields. rewrite Hclient.
  set (tr1 := (tr ++ [Ev NextTick tt]) ++ [Ev (Settle p (Ok tt)) tt]).
  assert (Hnext : exists tr2 this2 bytes sock,
             run o (_sendData buffer) (with_destroyIfNeeded (Some p) this) tr1
             = (tr2, this2, Ok bytes)
             /\ length (datagrams tr2) = S (length (datagrams tr1))
             /\ closed_sockets tr2 = closed_sockets tr1 ++ [sock]
             /\ client this2 = None).
  { destruct (getServer_defined this Hservers) as [server Hserver].
    rewrite run_sendData. cbv zeta. fields.
    apply Z.leb_le in Hfit. rewrite Hfit.
    rewrite run_bind, run_getServer. fields. rewrite Hserver.
    rewrite run_sendChunk. unfold after_getClient. fields. rewrite Hclient.
    cbv zeta. rewrite Hsend.
    set (sock := o _ CreateSocket tr1).
    match goal with
    | |- context [o _ (SendCallback sock) ?t] =>
        destruct (Hcb sock t) as [bytes ->]
    end.
    rewrite run_call_destroyIfNeeded. fields.
    rewrite run_destroyIfNeeded, run_destroy. unfold idle in *. fields.
    apply andb_true_iff in Hidle as [Hc Hm].
    apply Z.eqb_eq in Hc. apply Z.eqb_eq in Hm. rewrite Hc, Hm. simpl.
    do 2 eexists. exists bytes, sock. split; [reflexivity|]. split.
    { rewrite !datagrams_app, !length_app. simpl. lia. }
    split; [|reflexivity].
    rewrite !closed_sockets_app. simpl. by rewrite !app_nil_r. }
  destruct Hnext as (tr2 & this2 & bytes & sock & Hrun & Hd & Hcl & Hc).
  exists tr1, tr2, this2, bytes, sock.
  split; [reflexivity|]. split.
  { subst tr1. rewrite !settlements_app. simpl. by rewrite app_nil_r. }
  split; [|done].
  subst tr1. rewrite !closed_sockets_app. simpl. by rewrite !app_nil_r.
Qed.

Lemma close_without_a_socket_stays_armed_witness :
  exists tr1 tr2 this2 bytes sock,
    run runtime_ok (close 1%nat) test_client []
    = (tr1, with_destroyIfNeeded (Some 1%nat) test_client, Ok tt)
    /\ settlements tr1 = settlements [] ++ [(1%nat, Ok tt)]
    /\ closed_sockets tr1 = closed_sockets []
    /\ run runtime_ok (_sendData (Buffer_from "msg"))
         (with_destroyIfNeeded (Some 1%nat) test_client) tr1
       = (tr2, this2, Ok bytes)
    /\ length (datagrams tr2) = S (length (datagrams tr1))
    /\ closed_sockets tr2 = closed_sockets tr1 ++ [sock]
    /\ client this2 = None.
Proof.
  apply (close_without_a_socket_stays_armed runtime_ok test_client [] 1%nat
           (Buffer_from "msg")).
  - reflexivity.
  - reflexivity.
  - reflexivity.
  - exact runtime_ok_accepts.
  - discriminate.
  - vm_compute. discriminate.
Defined.

(** * More of the chunked stream: a transport that fails *)

(** The loop, whatever the runtime does: what it hands to the socket
    are the first [k] frames, in order; all of them if it ends well. *)
Lemma loop_prefix (o : Oracle) id total dataSize buffer server :
  0 < dataSize ->
  forall turns i chunk sendedBytes this tr,
    chunk_ready id total dataSize chunk ->
    0 <= i ->
    (i + Z.of_nat turns) * dataSize < len buffer + dataSize ->
    exists more this' r k,
      run o (_sendChunkedStream_loop turns i dataSize buffer chunk
               (Some server) sendedBytes) this tr = (tr ++ more, this', r)
      /\ map dg_bytes (datagrams more)
         = take k (frames turns i id total dataSize buffer)
      /\ (k <= turns)%nat
      /\ match r with Ok _ => k = turns | Err _ => (1 <= k)%nat end.
Proof.
  intros Hd. induction turns as [|turns IH];
    intros i chunk sendedBytes this tr Hready Hi Hlast.
  - exists [], this, (Ok sendedBytes), 0%nat. by rewrite app_nil_r.
  - cbn [_sendChunkedStream_loop]. cbv zeta.
    assert (Hstart : i * dataSize < len buffer) by nia.
    destruct (loop_turn id total dataSize chunk buffer i Hready Hi Hd Hstart)
      as [Hframe Hready'].
    cbv zeta in Hframe, Hready'. rewrite Hframe. rewrite run_bind.
    destruct (sendChunk_wire o
                (frame id (u8 i) total (payload_slice dataSize buffer i))
                (Some server) this tr)
      as (more1 & this1 & r1 & sock & -> & Hd1 & _).
    destruct r1 as [bytes|e].
    + destruct (IH (i + 1) _ (sendedBytes + bytes) this1 (tr ++ more1) Hready')
        as (more2 & this' & r & k & -> & Hd2 & Hk & Hr); [lia|nia|].
      exists (more1 ++ more2), this', r, (S k). rewrite app_assoc.
      split; [reflexivity|]. rewrite datagrams_app, map_app, Hd1, Hd2.
      split; [reflexivity|]. split; [lia|].
      destruct r; lia.
    + exists more1, this1, (Err e), 1%nat. split; [reflexivity|].
      rewrite Hd1. cbn [frames take]. rewrite take_0.
      split; [reflexivity|]. split; lia.
Qed.

Lemma ceil_div_count a b :
  0 < b -> b < a ->
  exists c, Math_ceil_div a b = Finite c /\ 1 <= c /\ (c - 1) * b < a <= c * b.
Proof.
  intros Hb Ha. exists (- ((- a) / b)).
  pose proof (ceil_div_bounds a b Hb) as Hc.
  split; [|split; [nia|exact Hc]].
  unfold Math_ceil_div. by destruct (Z.eqb_spec b 0); [lia|].
Qed.

(** X22.  A transport error ends the chunked stream but does not spoil
    what was sent.  For a buffer that needs between 1 and 128 chunks, a
    random id of eight bytes and a client with a server, whatever the
    socket does: the datagrams that [_sendData] hands to the socket are
    the first [k] frames of the message, in order (each with the magic
    bytes, the id, its sequence number, the total and its slice of the
    buffer); [k] is the number of chunks if the promise resolves, and at
    least 1 and at most that number if it is rejected. *)
Theorem failing_transport_leaves_a_prefix_of_the_frames
    (o : Oracle) (buffer : Buffer) (this : Graylog) (tr : Trace)
    (id : Buffer) :
  o _ (RandomBytes 8) tr = Ok id ->
  length id = 8%nat ->
  servers this <> [] ->
  _bufferSize this < len buffer ->
  len buffer <= 128 * (_bufferSize this - 12) ->
  exists more this' r k,
    run o (_sendData buffer) this tr = (tr ++ more, this', r)
    /\ map dg_bytes (datagrams more)
       = take k (frames (datagrams_needed this buffer) 0 id
                   (u8 (Z.of_nat (datagrams_needed this buffer)))
                   (_bufferSize this - 12) buffer)
    /\ match r with
       | Ok _ => k = datagrams_needed this buffer
       | Err _ => (1 <= k <= datagrams_needed this buffer)%nat
       end.
Proof.
  intros Hid Hlen Hservers Hlong Hmax.
  set (d := _bufferSize this - 12) in *.
  pose proof (len_nonneg buffer) as Hnn.
  assert (Hd : 0 < d) by lia.
  destruct (ceil_div_count (len buffer) d Hd) as (c & Hcount & Hc1 & Hc);
    [subst d; lia|].
  assert (Hc128 : c <= 128) by nia.
  unfold datagrams_needed. fold d.
  destruct (Z.leb_spec (len buffer) (_bufferSize this)) as [?|_]; [lia|].
  rewrite Hcount. cbn [Count_turns]. rewrite Z2Nat.id by lia.
  rewrite run_sendData. cbv zeta.
  destruct (Z.leb_spec (len buffer) (_bufferSize this)) as [?|_]; [lia|].
  unfold _sendChunkedStream. rewrite run_bind. cbn [run]. fields. fold d.
  rewrite Hcount. cbn [Count_gt Count_u8 Count_turns].
  destruct (Z.ltb_spec 128 c) as [?|_]; [lia|].
  rewrite run_bind. unfold _generateRandomId, await. cbn [run].
  rewrite Hid. cbn [run]. rewrite run_bind, run_getServer. fields.
  destruct (getServer_defined this Hservers) as [server ->].
  destruct (Z.ltb_spec (_bufferSize this) 0) as [?|_]; [lia|].
  assert (Hready : chunk_ready id (u8 c) d
                     (Buffer_copy id
                        (Buffer_set (Buffer_set (Buffer_set
                           (Buffer_alloc (_bufferSize this)) 0 x1e) 1 x0f) 11 (u8 c))
                        2 0 8))
    by (apply header_prepared; [done|subst d; lia]).
  match goal with
  | |- context [run o (_sendChunkedStream_loop _ _ _ _ ?ch _ ?s) ?t ?tr0] =>
      destruct (loop_prefix o id (u8 c) d buffer server Hd (Z.to_nat c) 0 ch s
                  t tr0 Hready)
        as (more & this' & r & k & -> & Hd' & Hk & Hr); [lia|nia|]
  end.
  destruct r as [n|e].
  - match goal with
    | |- context [run o call_destroyIfNeeded ?t ?tr0] =>
        destruct (call_destroyIfNeeded_wire o t tr0)
          as (more2 & this'' & -> & Hd2 & _)
    end.
    exists (Ev (RandomBytes 8) (Ok id) :: more ++ more2), this'', (Ok n), k.
    split; [by rewrite <- !app_assoc|].
    rewrite (datagrams_cons_other (Ev (RandomBytes 8) (Ok id)) _ eq_refl).
    rewrite datagrams_app, Hd2, app_nil_r. by split.
  - eexists (Ev (RandomBytes 8) (Ok id) :: more), _, (Err e), k.
    split; [by rewrite <- !app_assoc|].
    rewrite (datagrams_cons_other (Ev (RandomBytes 8) (Ok id)) _ eq_refl).
    split; [exact Hd'|]. lia.
Qed.

Lemma failing_transport_leaves_a_prefix_of_the_frames_witness :
  exists more this' r k,
    run runtime_throwing (_sendData (Buffer_from "0123456789abcdefghijklmnopq")) small_client []
    = ([] ++ more, this', r)
    /\ map dg_bytes (datagrams more)
       = take k (frames (datagrams_needed small_client (Buffer_from "0123456789abcdefghijklmnopq"))
                   0 (replicate 8 "1"%byte)
                   (u8 (Z.of_nat (datagrams_needed small_client
                                    (Buffer_from "0123456789abcdefghijklmnopq"))))
                   (_bufferSize small_client - 12) (Buffer_from "0123456789abcdefghijklmnopq"))
    /\ match r with
       | Ok _ => k = datagrams_needed small_client (Buffer_from "0123456789abcdefghijklmnopq")
       | Err _ =>
           (1 <= k <= datagrams_needed small_client (Buffer_from "0123456789abcdefghijklmnopq"))%nat
       end.
Proof.
  apply (failing_transport_leaves_a_prefix_of_the_frames runtime_throwing
           (Buffer_from "0123456789abcdefghijklmnopq") small_client [] (replicate 8 "1"%byte)).
  - reflexivity.
  - reflexivity.
  - discriminate.
  - vm_compute. reflexivity.
  - vm_compute. discriminate.
Defined.

(** X23.  When the random generator fails, a message that needs chunks
    is rejected with its error and nothing else has happened: the asking
    is all that the trace shows, and the object is as it was (the
    message counter is back, the server selector has not moved, no
    socket was created). *)
Theorem failed_random_id_sends_nothing
    (o : Oracle) (buffer : Buffer) (this : Graylog) (tr : Trace)
    (e : Error) :
  _bufferSize this < len buffer ->
  Count_gt (Math_ceil_div (len buffer) (_bufferSize this - 12)) 128 = false ->
  o _ (RandomBytes 8) tr = Err e ->
  run o (_sendData buffer) this tr
  = (tr ++ [Ev (RandomBytes 8) (Err e)], this, Err e).
Proof.
  intros Hlong Hcount Hrandom. rewrite run_sendData. cbv zeta.
  destruct (Z.leb_spec (len buffer) (_bufferSize this)) as [?|_]; [lia|].
  unfold _sendChunkedStream. rewrite run_bind. cbn [run]. fields.
  rewrite Hcount, run_bind. unfold _generateRandomId, await. cbn [run].
  rewrite Hrandom. cbn [run]. fields. f_equal. f_equal.
  replace (_unsentMessages this + 1 - 1) with (_unsentMessages this) by lia.
  by destruct this.
Qed.

Lemma failed_random_id_sends_nothing_witness :
  run runtime_no_entropy (_sendData (Buffer_from "0123456789abcdefghijklmnopq"))
    small_client []
  = ([] ++ [Ev (RandomBytes 8) (Err (External "entropy"))], small_client,
     Err (External "entropy")).
Proof.
  apply (failed_random_id_sends_nothing runtime_no_entropy
           (Buffer_from "0123456789abcdefghijklmnopq") small_client []
           (External "entropy")).
  - vm_compute. reflexivity.
  - reflexivity.
  - reflexivity.
Defined.

(** X24.  [destroy] may be called again: it closes the socket that the
    client has, once, and leaves the client without a socket; a second
    call finds none and does nothing, for every runtime. *)
Theorem destroy_twice_closes_once
    (o : Oracle) (this : Graylog) (tr : Trace) :
  run o (destroy;; destroy) this tr = run o destroy this tr
  /\ client (run o destroy this tr).1.2 = None
  /\ closed_sockets (run o destroy this tr).1.1
     = closed_sockets tr
       ++ match client this with Some sock => [sock] | None => [] end.
Proof.
  rewrite run_bind, !run_destroy. destruct (client this) as [sock|] eqn:E.
  - rewrite run_destroy. fields. cbn [fst snd]. rewrite closed_sockets_app.
    by repeat split.
  - rewrite run_destroy, E. cbn [fst snd]. rewrite E, app_nil_r. by repeat split.
Qed.

(** * More of [_log]: the strict mode *)

Section StrictMode.

Variable JSON_members : Payload -> string.

(** X25.  [_log] without [disablePromiseRejection] (revision 2) is
    strict, whatever the runtime does.  Its promise settles as that of
    [send] on the payload it has built: it resolves to the bytes that
    [send] resolved to, and a failure of [send] rejects it with the
    same error (a message that cannot be serialized rejects it before
    anything is sent).  It never resolves to [false] and never calls a
    listener of 'err'. *)
Theorem strict_log_never_resolves_to_false
    (o : Oracle) (msg : Msg) (meta : option AdditionalFields)
    (level : option GraylogLevelEnum) (this : Graylog) (tr : Trace) :
  exists tr0 timestamp,
    run o (timestamp_or_now meta) this tr = (tr0, this, Ok timestamp)
    /\ run o (Rev2._log JSON_members msg meta level false) this tr
       = match Rev2._log_payload this timestamp msg meta level with
         | Err e => (tr0, this, Err e)
         | Ok payload =>
             match run o (send JSON_members payload) this tr0 with
             | (tr1, this1, Ok bytes) => (tr1, this1, Ok (Bytes bytes))
             | (tr1, this1, Err e) => (tr1, this1, Err e)
             end
         end
    /\ listener_calls
         (run o (Rev2._log JSON_members msg meta level false) this tr).1.1
       = listener_calls tr
    /\ (run o (Rev2._log JSON_members msg meta level false) this tr).2
       <> Ok False_.
Proof.
  assert (Hts : exists tr0 timestamp,
             run o (timestamp_or_now meta) this tr = (tr0, this, Ok timestamp)
             /\ listener_calls tr0 = listener_calls tr).
  { unfold timestamp_or_now. destruct (truthy _).
    - by exists tr, (match meta with
                     | Some m => prop m "timestamp"
                     | None => JsUndefined
                     end).
    - rewrite run_bind, run_call. cbn [run]. do 2 eexists.
      split; [reflexivity|].
      rewrite listener_calls_app. simpl. by rewrite app_nil_r. }
  destruct Hts as (tr0 & timestamp & Hts & Hl0).
  exists tr0, timestamp. split; [exact Hts|].
  assert (Hrun : run o (Rev2._log JSON_members msg meta level false) this tr
                 = match Rev2._log_payload this timestamp msg meta level with
                   | Err e => (tr0, this, Err e)
                   | Ok payload =>
                       match run o (send JSON_members payload) this tr0 with
                       | (tr1, this1, Ok bytes) => (tr1, this1, Ok (Bytes bytes))
                       | (tr1, this1, Err e) => (tr1, this1, Err e)
                       end
                   end).
  { unfold Rev2._log. rewrite run_bind. cbn [run]. rewrite run_bind, Hts.
    destruct (Rev2._log_payload this timestamp msg meta level) as [payload|e];
      [|reflexivity].
    rewrite run_bind.
    by destruct (run o (send JSON_members payload) this tr0) as [[tr1 this1] [bytes|e]]. }
  split; [exact Hrun|]. rewrite Hrun.
  destruct (Rev2._log_payload this timestamp msg meta level) as [payload|e].
  2:{ by split. }
  destruct (send_quiet JSON_members o payload this tr0)
    as (tr1 & this1 & r & -> & Hl1 & _).
  destruct r as [bytes|e]; cbn [fst snd]; split; congruence.
Qed.

End StrictMode.

(** The strict [_log] on the socket that throws: the promise is
    rejected with the error of the socket, and the registered listener
    is not called. *)
Example strict_log_on_a_throwing_socket :
  let '(tr, _, r) :=
    run runtime_throwing
      (_ ← onError 7%nat;
       Rev2._log names_only (MsgString "msg") None (Some INFO) false)
      test_client [] in
  r = Err (External "Connection error") /\ listener_calls tr = [].
Proof. vm_compute. split; reflexivity. Qed.

(** * The server selector, message by message *)

(** One message: endpoint, count and call counter together. *)
Lemma sendData_selector (o : Oracle) buffer this tr server :
  servers this !! (_callCount this `mod` length (servers this))%nat = Some server ->
  exists tr' this' r ds,
    run o (_sendData buffer) this tr = (tr', this', r)
    /\ datagrams tr' = datagrams tr ++ ds
    /\ Forall (fun d => endpoint d = server) ds
    /\ match refused_before_selector o this tr buffer with
       | None => _callCount this' = S (_callCount this)
       | Some e => r = Err e /\ _callCount this' = _callCount this /\ ds = []
       end
    /\ match r with
       | Ok _ => length ds = datagrams_needed this buffer
       | Err _ => (length ds <= datagrams_needed this buffer)%nat
       end
    /\ servers this' = servers this
    /\ _bufferSize this' = _bufferSize this.
Proof.
  intros Hserver.
  destruct (sendData_endpoint o buffer this tr server Hserver)
    as (tr' & this' & r & ds & Hrun & Hd & Hf & Hc & Hs & Hb).
  destruct (sendData_wire o buffer this tr)
    as (more & this2 & r2 & sock & Hrun2 & _ & Hle & Hok & _).
  rewrite Hrun in Hrun2. injection Hrun2 as E1 E2 E3. subst tr' this' r.
  rewrite datagrams_app in Hd. apply app_inv_head in Hd. subst ds.
  exists (tr ++ more), this2, r2, (datagrams more).
  split; [exact Hrun|]. split; [by rewrite datagrams_app|].
  split; [exact Hf|]. split; [exact Hc|]. split; [|by split].
  destruct r2 as [bytes|e]; [|exact Hle]. by destruct (Hok bytes eq_refl).
Qed.

(** Messages of any size, one after the other, under a runtime whose
    random generator does not fail: message number [j] goes, with all
    its chunks, to the server of call count [_callCount + j]. *)
Lemma send_each_selector (o : Oracle) :
  (forall tr, exists id, o _ (RandomBytes 8) tr = Ok id) ->
  forall buffers this tr,
    servers this <> [] ->
    Forall (fun buffer =>
              len buffer <= _bufferSize this
              \/ Count_gt (Math_ceil_div (len buffer) (_bufferSize this - 12))
                   128 = false) buffers ->
    exists dss,
      datagrams (send_each o buffers this tr).1 = datagrams tr ++ concat dss
      /\ Forall2
           (fun k ds =>
              Forall (fun d => Some (endpoint d)
                               = servers this !! (k `mod` length (servers this))%nat)
                ds)
           (seq (_callCount this) (length buffers)) dss
      /\ Forall2
           (fun buffer ds => (length ds <= datagrams_needed this buffer)%nat)
           buffers dss.
Proof.
  intros Hrandom.
  induction buffers as [|buffer buffers IH]; intros this tr Hservers Hsel.
  - exists []. rewrite app_nil_r. by repeat split; constructor.
  - apply Forall_cons in Hsel as [Hsel1 Hsel].
    destruct (getServer_defined this Hservers) as [server Hserver].
    destruct (sendData_selector o buffer this tr server Hserver)
      as (tr' & this' & r & ds & Hrun & Hd & Hf & Hc & Hn & Hs & Hb).
    assert (Hreach : refused_before_selector o this tr buffer = None).
    { unfold refused_before_selector.
      destruct (Z.leb_spec (len buffer) (_bufferSize this)) as [|Hlong]; [done|].
      destruct Hsel1 as [?|Hcount]; [lia|]. rewrite Hcount.
      destruct (Hrandom tr) as [id Hid]. by rewrite Hid. }
    rewrite Hreach in Hc.
    cbn [send_each]. rewrite Hrun.
    destruct (IH this' tr') as (dss & Hds & Hend & Hcount).
    { by rewrite Hs. }
    { by rewrite Hb. }
    exists (ds :: dss). cbn [concat length seq].
    rewrite Hds, Hd, <- app_assoc. split; [reflexivity|]. split.
    + constructor.
      * rewrite Hserver. eapply Forall_impl; [exact Hf|]. by intros d ->.
      * rewrite Hc, Hs in Hend. exact Hend.
    + constructor.
      * by destruct r; rewrite ?Hn.
      * eapply Forall2_impl; [exact Hcount|]. intros b l.
        unfold datagrams_needed. by rewrite Hb.
Qed.

(** C9.  [getServer] gives [servers[_callCount % servers.length]] and
    adds one to [_callCount].  For a client with at least one server and
    every runtime:
    - all the datagrams of one message, chunked or not, go to the
      server that the selector gives for the value of [_callCount] at
      the start of the message; the message has moved [_callCount] by
      exactly one, unless it was refused before the selector was asked
      (by the size check, or because the random generator failed), and
      then it is rejected with that error, no datagram was handed to a
      socket and [_callCount] has not moved; a message that resolves
      has handed over all its datagrams (one, or the chunk count), a
      rejected one at most that many;
    - messages that fit one datagram, sent one after the other on a
      client whose [_callCount] is 0, go to servers 0, 1, ..., in a
      cycle, one datagram each, also when the sends fail;
    - messages of any size that pass the size check, sent one after the
      other under a runtime whose random generator does not fail:
      message number [j] goes with all its chunks to the server of call
      count [_callCount + j]. *)
Theorem selector_is_round_robin_per_message (o : Oracle) (this : Graylog)
    (tr : Trace) :
  servers this <> [] ->
  run o getServer this tr
    = (tr, with_callCount (S (_callCount this)) this,
       Ok (servers this !! (_callCount this `mod` length (servers this))%nat))
  /\ (forall buffer,
        exists tr' this' r ds server,
          run o (_sendData buffer) this tr = (tr', this', r)
          /\ servers this !! (_callCount this `mod` length (servers this))%nat
             = Some server
          /\ datagrams tr' = datagrams tr ++ ds
          /\ Forall (fun d => endpoint d = server) ds
          /\ match refused_before_selector o this tr buffer with
             | None => _callCount this' = S (_callCount this)
             | Some e =>
                 r = Err e /\ _callCount this' = _callCount this /\ ds = []
             end
          /\ match r with
             | Ok _ => length ds = datagrams_needed this buffer
             | Err _ => (length ds <= datagrams_needed this buffer)%nat
             end)
  /\ (forall buffers,
        _callCount this = 0%nat ->
        Forall (fun buffer => len buffer <= _bufferSize this) buffers ->
        exists ds,
          datagrams (send_each o buffers this tr).1 = datagrams tr ++ ds
          /\ map (fun d => Some (endpoint d)) ds
             = map (fun k => servers this !! (k `mod` length (servers this))%nat)
                 (seq 0 (length buffers)))
  /\ (forall buffers,
        (forall tr0, exists id, o _ (RandomBytes 8) tr0 = Ok id) ->
        Forall (fun buffer =>
                  len buffer <= _bufferSize this
                  \/ Count_gt
                       (Math_ceil_div (len buffer) (_bufferSize this - 12)) 128
                     = false) buffers ->
        exists dss,
          datagrams (send_each o buffers this tr).1
          = datagrams tr ++ concat dss
          /\ Forall2
               (fun k ds =>
                  Forall (fun d =>
                            Some (endpoint d)
                            = servers this !! (k `mod` length (servers this))%nat)
                    ds)
               (seq (_callCount this) (length buffers)) dss
          /\ Forall2
               (fun buffer ds =>
                  (length ds <= datagrams_needed this buffer)%nat)
               buffers dss).
Proof.
  intros Hservers. split; [apply run_getServer|]. split; [|split].
  - intros buffer.
    destruct (getServer_defined this Hservers) as [server Hserver].
    destruct (sendData_selector o buffer this tr server Hserver)
      as (tr' & this' & r & ds & Hrun & Hd & Hf & Hc & Hn & _).
    by exists tr', this', r, ds, server.
  - intros buffers Hfresh Hfit.
    destruct (send_each_round_robin o buffers this tr Hservers Hfit)
      as (ds & Hd & Hmap).
    exists ds. by rewrite <- Hfresh.
  - intros buffers Hrandom Hsel.
    by apply send_each_selector.
Qed.

Lemma selector_is_round_robin_per_message_witness :
  (exists ds,
     datagrams
       (send_each runtime_throwing
          [Buffer_from "a"; Buffer_from "b"; Buffer_from "c"; Buffer_from "d"]
          three_server_client []).1 = datagrams [] ++ ds
     /\ map (fun d => Some (endpoint d)) ds
        = map (fun k => three_servers !! (k `mod` 3)%nat) (seq 0 4))
  /\ (exists dss,
        datagrams
          (send_each runtime_ok
             [Buffer_from "0123456789abcdefghijklmnopq"; Buffer_from "b";
              Buffer_from "c"]
             three_server_client []).1 = datagrams [] ++ concat dss
        /\ Forall2
             (fun k ds =>
                Forall (fun d =>
                          Some (endpoint d) = three_servers !! (k `mod` 3)%nat)
                  ds)
             (seq 0 3) dss
        /\ Forall2
             (fun buffer ds =>
                (length ds <= datagrams_needed three_server_client buffer)%nat)
             [Buffer_from "0123456789abcdefghijklmnopq"; Buffer_from "b";
              Buffer_from "c"]
             dss).
Proof.
  split.
  - refine (proj1 (proj2 (proj2 (selector_is_round_robin_per_message
                                   runtime_throwing three_server_client [] _)))
              [Buffer_from "a"; Buffer_from "b"; Buffer_from "c"; Buffer_from "d"]
              _ _).
    + discriminate.
    + reflexivity.
    + repeat constructor; vm_compute; discriminate.
  - refine (proj2 (proj2 (proj2 (selector_is_round_robin_per_message
                                   runtime_ok three_server_client [] _)))
              [Buffer_from "0123456789abcdefghijklmnopq"; Buffer_from "b";
               Buffer_from "c"]
              _ _).
    + discriminate.
    + intros tr0. by eexists.
    + repeat constructor; (left; vm_compute; discriminate) || (right; reflexivity).
Defined.
